(** * Repository tree crawler and analysis sessions

    A shallow embedding of [server/routes/github.js]: the recursive crawler
    [buildFileTreeWithCancellation], the session table [activeAnalyses] and
    the three routes [/analyze], [/analyze/cancel] and [/analyze/progress],
    followed by the properties of the crawler and of the session manager.

    JavaScript values are modelled as follows.
    - numbers that are integers in every run ([depth], [maxDepth], [size],
      [Date.now()]) are [Z]; the one non-integer computation, the progress
      percentage, is done in [Q] and checked against binary64 numbers;
    - a field that may be [undefined] is an [option];
    - a thrown [Error] is the outcome [Throw msg], [msg] being
      [error.message];
    - the [Map] [activeAnalyses] is an association list in insertion order;
    - an [await] on network I/O is a suspension point: the handlers of the
      requests that arrive meanwhile run there, on the shared session
      table, and so do the other analyses in progress, each of them
      between two suspension points of its own. *)

From Stdlib Require Import ZArith List String Ascii Bool Lia.
From Stdlib Require Import QArith Qround Qminmax.
From Stdlib Require Import DecimalString.
From Stdlib Require Floats Uint63.
From Stdlib Require Import Permutation Sorted.
Import ListNotations.

Local Open Scope string_scope.
Local Open Scope list_scope.
Local Open Scope Z_scope.
Local Set Warnings "-register-all".

(** ** JavaScript helpers *)

(** [String(n)] of an integer number. *)
Definition show_Z (n : Z) : string := NilZero.string_of_int (Z.to_int n).

(** [s.includes(c)] for a single character. *)
Fixpoint includes (c : ascii) (s : string) : bool :=
  match s with
  | EmptyString => false
  | String a rest => Ascii.eqb a c || includes c rest
  end.

(** [s.replace('*', by)]: a string pattern replaces the first occurrence
    only. *)
Fixpoint replace_first (c : ascii) (by_ : string) (s : string) : string :=
  match s with
  | EmptyString => EmptyString
  | String a rest =>
      if Ascii.eqb a c then (by_ ++ rest)%string else String a (replace_first c by_ rest)
  end.

(** ** Regular expressions, as far as [skipPatterns] needs them

    [new RegExp(src)] for a source made of literal characters, [.] and a
    postfix [*]. *)
Module Regex.

Inductive CharClass : Type :=
| AnyChar                (* [.]: any character but a line terminator *)
| Lit (c : ascii).

Inductive Atom : Type :=
| One (cls : CharClass)
| Star (cls : CharClass).

Definition classOf (c : ascii) : CharClass :=
  if Ascii.eqb c "."%char then AnyChar else Lit c.

Fixpoint parse (src : string) : list Atom :=
  match src with
  | EmptyString => []
  | String c rest =>
      match rest with
      | String "*"%char rest' => Star (classOf c) :: parse rest'
      | _ => One (classOf c) :: parse rest
      end
  end.

Definition lineTerminator (c : ascii) : bool :=
  Ascii.eqb c "010"%char || Ascii.eqb c "013"%char.

Definition accepts (cls : CharClass) (c : ascii) : bool :=
  match cls with
  | AnyChar => negb (lineTerminator c)
  | Lit l => Ascii.eqb l c
  end.

(** [matchHere re s]: some prefix of [s] is matched by [re]. *)
Fixpoint matchHere (re : list Atom) (s : string) {struct re} : bool :=
  match re with
  | [] => true
  | One cls :: re' =>
      match s with
      | String c rest => accepts cls c && matchHere re' rest
      | EmptyString => false
      end
  | Star cls :: re' =>
      (fix star (s : string) : bool :=
         matchHere re' s ||
         match s with
         | String c rest => accepts cls c && star rest
         | EmptyString => false
         end) s
  end.

(** [regex.test(s)]: the expression is not anchored, so it may match at
    any position of [s]. *)
Fixpoint test (re : list Atom) (s : string) : bool :=
  matchHere re s ||
  match s with
  | String _ rest => test re rest
  | EmptyString => false
  end.

End Regex.

(** ** Skip patterns (lines 103-123) *)

Definition skipPatterns : list string :=
  [ "node_modules"; ".git"; "dist"; "build"; ".next"; ".nuxt";
    "coverage"; ".nyc_output"; ".cache"; ".parcel-cache";
    "*.log"; "*.lock"; "*.min.js"; "*.min.css"; "*.map" ].

Definition patternMatches (name pattern : string) : bool :=
  if includes "*"%char pattern
  then Regex.test (Regex.parse (replace_first "*"%char ".*" pattern)) name
  else String.eqb name pattern.

(** [skipPatterns.some(pattern => ...)] *)
Definition shouldSkip (name : string) : bool :=
  existsb (patternMatches name) skipPatterns.

(** ** Data model *)

(** An entry of a GitHub contents listing. *)
Record Item : Type := mkItem {
  item_name : string;
  item_type : string;            (* 'dir', 'file', 'symlink', 'submodule' *)
  item_path : string;
  item_size : option Z;          (* [None]: the field is absent *)
  item_download_url : option string
}.

(** A node of the returned tree.  A file node always has [path],
    [download_url], [size] and [depth]; a folder node has [children], and the
    fields the code leaves out are [None]. *)
Inductive FileTreeNode : Type :=
| File (name path : string) (download_url : option string) (size depth : Z)
| Folder (name : string) (path : option string)
         (children : list FileTreeNode) (depth : option Z)
         (truncated : option bool) (message : option string).

Definition node_name (n : FileTreeNode) : string :=
  match n with
  | File name _ _ _ _ => name
  | Folder name _ _ _ _ _ => name
  end.

Definition node_path (n : FileTreeNode) : option string :=
  match n with
  | File _ path _ _ _ => Some path
  | Folder _ path _ _ _ _ => path
  end.

Definition node_children (n : FileTreeNode) : list FileTreeNode :=
  match n with
  | File _ _ _ _ _ => []
  | Folder _ _ children _ _ _ => children
  end.

Definition node_depth (n : FileTreeNode) : option Z :=
  match n with
  | File _ _ _ _ depth => Some depth
  | Folder _ _ _ depth _ _ => depth
  end.

Definition node_truncated (n : FileTreeNode) : option bool :=
  match n with
  | File _ _ _ _ _ => None
  | Folder _ _ _ _ truncated _ => truncated
  end.

Definition node_message (n : FileTreeNode) : option string :=
  match n with
  | File _ _ _ _ _ => None
  | Folder _ _ _ _ _ message => message
  end.

Definition is_file (n : FileTreeNode) : bool :=
  match n with File _ _ _ _ _ => true | Folder _ _ _ _ _ _ => false end.

(** All the nodes of a tree, the root first. *)
Fixpoint nodes (n : FileTreeNode) : list FileTreeNode :=
  n :: match n with
       | File _ _ _ _ _ => []
       | Folder _ _ children _ _ _ =>
           (fix nodes_list (l : list FileTreeNode) : list FileTreeNode :=
              match l with
              | [] => []
              | c :: l' => nodes c ++ nodes_list l'
              end) children
       end.

(** The nodes below the root. *)
Definition descendants (n : FileTreeNode) : list FileTreeNode :=
  flat_map nodes (node_children n).

(** An analysis session, a value of the map [activeAnalyses].  A read of
    [cancelled] only tests its truth, so an absent field reads as [false]. *)
Record Session : Type := mkSession {
  cancelled : bool;
  progress : option Z;
  currentDepth : option Z;
  currentPath : option string
}.

(** ** The [Map] of sessions, in insertion order *)
Module JsMap.

Definition t (V : Type) : Type := list (string * V).

Fixpoint get {V} (k : string) (m : t V) : option V :=
  match m with
  | [] => None
  | (k', v) :: m' => if String.eqb k' k then Some v else get k m'
  end.

(** [set] keeps the position of a key that is present and appends a new
    key. *)
Fixpoint set {V} (k : string) (v : V) (m : t V) : t V :=
  match m with
  | [] => [(k, v)]
  | (k', v') :: m' =>
      if String.eqb k' k then (k', v) :: m' else (k', v') :: set k v m'
  end.

(** [delete] leaves no entry with the key. *)
Fixpoint delete {V} (k : string) (m : t V) : t V :=
  match m with
  | [] => []
  | (k', v') :: m' =>
      if String.eqb k' k then delete k m' else (k', v') :: delete k m'
  end.

Lemma get_set_same {V} (k : string) (v : V) (m : t V) :
  get k (set k v m) = Some v.
Proof.
  induction m as [| [k' v'] m IH]; simpl.
  - now rewrite String.eqb_refl.
  - destruct (String.eqb k' k) eqn:E; simpl; rewrite E; auto.
Qed.

Lemma get_set_other {V} (k k' : string) (v : V) (m : t V) :
  k <> k' -> get k' (set k v m) = get k' m.
Proof.
  intros Hk. induction m as [| [k0 v0] m IH]; simpl.
  - destruct (String.eqb k k') eqn:E; [| reflexivity].
    apply String.eqb_eq in E. contradiction.
  - destruct (String.eqb k0 k) eqn:E; simpl.
    + apply String.eqb_eq in E. subst k0.
      destruct (String.eqb k k') eqn:E'; [| reflexivity].
      apply String.eqb_eq in E'. contradiction.
    + now rewrite IH.
Qed.

Lemma get_delete_same {V} (k : string) (m : t V) :
  get k (delete k m) = None.
Proof.
  induction m as [| [k' v'] m IH]; simpl; [reflexivity |].
  destruct (String.eqb k' k) eqn:E; simpl; [| rewrite E]; exact IH.
Qed.

End JsMap.

(** ** Progress percentage (lines 69 and 72)

    [Math.round(Math.min((depth / maxDepth) * 100, 100))], computed on
    rationals.  [Math.round] rounds to the nearest integer, a half upwards.
    It is only evaluated for [depth > 0], where a zero [maxDepth] makes the
    quotient [+Infinity] and the minimum [100].  The program computes on
    binary64 numbers; [progressFloat], further down, is that computation,
    and it gives the same percentage for every depth limit that line 183
    lets through and every depth reached under it. *)

Definition js_round (x : Q) : Z := Qfloor (x + (1 # 2)).

Definition progressPercent (depth maxDepth : Z) : Z :=
  if maxDepth =? 0 then 100
  else js_round (Qmin ((inject_Z depth / inject_Z maxDepth) * 100) 100).

(** ** Outcomes, responses and the world *)

(** The result of a call that may throw. *)
Inductive Outcome (A : Type) : Type :=
| Ok (a : A)
| Throw (message : string).
Arguments Ok {A} a.
Arguments Throw {A} message.

(** The body given to [res.json]. *)
Inductive Body : Type :=
| Message (message : string)
| Failure (message error : string)
| Analyzed (message owner repo : string) (fileTree : FileTreeNode)
           (maxDepth : Z)
| Active (progress currentDepth : Z) (currentPath : string)
         (cancelled : bool)
| Inactive.

(** [res.status(status).json(body)]; [res.json(body)] has status 200. *)
Record Response : Type := mkResponse {
  status : Z;
  body : Body
}.

(** A record made by [Repository.create(userId, repoUrl, repoData)]. *)
Record Stored : Type := mkStored {
  stored_user : string;
  stored_url : string;
  stored_data : FileTreeNode
}.

(** What an analysis does to the state of the server between two of its
    suspension points: it registers its session (line 196), stores its
    progress (lines 68-76), removes its session (line 202) or saves its
    tree (line 210).  Which of these steps the other analyses take, and
    when, is for the surroundings to say, so that every run of the server
    is among the runs described. *)
Inductive Activity : Type :=
| Registers
| Advances (path : string) (depth maxDepth : Z)
| Leaves
| Saves (repository : Stored).

(** What happens while an analysis waits for the network: a request to
    [/analyze/cancel] or to [/analyze/progress] arrives and is served, or
    another analysis, the one with the session key [analysisId], takes a
    step. *)
Inductive Incoming : Type :=
| CancelRequest (userId : string)
| ProgressRequest (userId : string)
| OtherAnalysis (analysisId : string) (step : Activity).

(** The reply of the GitHub contents API to one request. *)
Inductive FetchReply : Type :=
| Listing (items : list Item)
| Failed (message : string).

(** The surroundings of one analysis: what the API answers for a path of a
    repository; what arrives during the [n]-th wait of the analysis, the
    waits being its fetches, numbered from 0, and after them the saving of
    its tree; and the message of the error that [Repository.create] throws
    for a record, if it throws one (the fallback storage never does, a
    database may). *)
Record Env : Type := mkEnv {
  upstream : string -> string -> string -> option string -> FetchReply;
  arrivals : nat -> list Incoming;
  createFails : Stored -> option string
}.

(** The state of the server process.  [activeAnalyses] is the session
    table of the program.  The other fields are histories, each with the
    most recent entry last: [repositories] holds the records that
    [Repository.create] has saved, by whatever analysis; the last three are
    kept to state what happened during the run of one analysis: the paths
    that its crawl requested from the API, the sessions that its crawl
    stored, and the responses sent to the requests served at its
    suspension points. *)
Record World : Type := mkWorld {
  activeAnalyses : JsMap.t Session;
  repositories : list Stored;
  requested : list string;
  written : list (string * Session);
  replied : list Response
}.

Definition with_analyses (m : JsMap.t Session) (w : World) : World :=
  mkWorld m (repositories w) (requested w) (written w) (replied w).

(** Line 196: [activeAnalyses.set(analysisId, { cancelled: false,
    progress: 0 })]. *)
Definition register (analysisId : string) (w : World) : World :=
  with_analyses
    (JsMap.set analysisId (mkSession false (Some 0) None None)
               (activeAnalyses w)) w.

(** Line 202: [activeAnalyses.delete(analysisId)]. *)
Definition unregister (analysisId : string) (w : World) : World :=
  with_analyses (JsMap.delete analysisId (activeAnalyses w)) w.

(** [Repository.create] saves a record. *)
Definition save (repository : Stored) (w : World) : World :=
  mkWorld (activeAnalyses w) (repositories w ++ [repository]) (requested w)
          (written w) (replied w).

(** ** The cancel and progress routes (lines 227-267) *)

Definition markCancelled (s : Session) : Session :=
  mkSession true (progress s) (currentDepth s) (currentPath s).

(** The loop of [/analyze/cancel]: [analysis.cancelled = true] for every
    entry whose key starts with the user's id. *)
Definition cancelSessions (userId : string) (m : JsMap.t Session)
  : JsMap.t Session :=
  List.map (fun entry : string * Session =>
              let (id, analysis) := entry in
              if String.prefix userId id
              then (id, markCancelled analysis)
              else (id, analysis)) m.

Definition cancelRoute (userId : string) (w : World) : Response * World :=
  (mkResponse 200 (Message "Analysis cancellation requested"),
   with_analyses (cancelSessions userId (activeAnalyses w)) w).

Definition orElse {A} (o : option A) (d : A) : A :=
  match o with Some a => a | None => d end.

(** [analysis.progress || 0]: zero stands for an absent value as well. *)
Definition snapshot (analysis : Session) : Body :=
  Active (orElse (progress analysis) 0)
         (orElse (currentDepth analysis) 0)
         (orElse (currentPath analysis) "")
         (cancelled analysis).

(** The loop of [/analyze/progress] answers with the first entry, in
    insertion order, whose key starts with the user's id. *)
Fixpoint firstSession (userId : string) (m : JsMap.t Session)
  : option Session :=
  match m with
  | [] => None
  | (id, analysis) :: m' =>
      if String.prefix userId id then Some analysis
      else firstSession userId m'
  end.

Definition progressRoute (userId : string) (w : World) : Response * World :=
  match firstSession userId (activeAnalyses w) with
  | Some analysis => (mkResponse 200 (snapshot analysis), w)
  | None => (mkResponse 200 Inactive, w)
  end.

(** ** The crawler (lines 59-168) *)

(** [analysisId && ...]: [null] and the empty string are falsy. *)
Definition truthyId (analysisId : option string) : option string :=
  match analysisId with
  | Some id => if String.eqb id "" then None else Some id
  | None => None
  end.

(** [analysisId && activeAnalyses.get(analysisId)?.cancelled] *)
Definition isCancelled (analysisId : option string) (w : World) : bool :=
  match truthyId analysisId with
  | Some id =>
      match JsMap.get id (activeAnalyses w) with
      | Some analysis => cancelled analysis
      | None => false
      end
  | None => false
  end.

(** Lines 68-76: the session is replaced by a copy with the three progress
    fields set; spreading an absent session gives an object with these
    three fields only. *)
Definition updateProgress (analysisId : option string) (path : string)
    (depth maxDepth : Z) (w : World) : World :=
  match truthyId analysisId with
  | Some id =>
      if 0 <? depth then
        let old := JsMap.get id (activeAnalyses w) in
        let analysis :=
          mkSession (match old with Some s => cancelled s | None => false end)
                    (Some (progressPercent depth maxDepth))
                    (Some depth) (Some path) in
        mkWorld (JsMap.set id analysis (activeAnalyses w)) (repositories w)
                (requested w) (written w ++ [(id, analysis)]) (replied w)
      else w
  | None => w
  end.

(** ** What happens at a suspension point *)

(** The response of a route goes to its client. *)
Definition respond (answer : Response * World) : World :=
  let (res, w') := answer in
  mkWorld (activeAnalyses w') (repositories w') (requested w') (written w')
          (replied w' ++ [res]).

(** A step of the analysis [analysisId], by the code of that step.  The
    histories are those of the analysis that is followed, and a step of
    another one adds nothing to them. *)
Definition otherAnalysis (analysisId : string) (step : Activity) (w : World)
  : World :=
  match step with
  | Registers => register analysisId w
  | Advances path depth maxDepth =>
      with_analyses
        (activeAnalyses
           (updateProgress (Some analysisId) path depth maxDepth w)) w
  | Leaves => unregister analysisId w
  | Saves repository => save repository w
  end.

Definition handle (rq : Incoming) (w : World) : World :=
  match rq with
  | CancelRequest userId => respond (cancelRoute userId w)
  | ProgressRequest userId => respond (progressRoute userId w)
  | OtherAnalysis analysisId step => otherAnalysis analysisId step w
  end.

Definition handleAll (rqs : list Incoming) (w : World) : World :=
  fold_left (fun w rq => handle rq w) rqs w.

(** [await axios.get(.../contents/path, { headers })]: the request is
    recorded, what arrives while it is in flight is served, and the reply
    comes back. *)
Definition axios_get (env : Env) (owner repo path : string)
    (githubToken : option string) (w : World) : FetchReply * World :=
  let n := List.length (requested w) in
  let w1 := mkWorld (activeAnalyses w) (repositories w)
                    (requested w ++ [path]) (written w) (replied w) in
  (upstream env owner repo path githubToken, handleAll (arrivals env n) w1).

(** [path || repo] *)
Definition folderName (path repo : string) : string :=
  if String.eqb path "" then repo else path.

(** Lines 80-86. *)
Definition truncatedFolder (path repo : string) (maxDepth : Z)
  : FileTreeNode :=
  Folder (folderName path repo) None [] None (Some true)
         (Some ("Maximum depth (" ++ show_Z maxDepth ++ ") reached")%string).

(** Lines 140-148: the node pushed for a directory entry. *)
Definition folderChild (item : Item) (subTree : FileTreeNode) (depth : Z)
  : FileTreeNode :=
  Folder (item_name item) (Some (item_path item)) (node_children subTree)
         (Some (depth + 1)) (node_truncated subTree) (node_message subTree).

(** Line 129: [item.type === 'dir']. *)
Definition isDir (item : Item) : bool := String.eqb (item_type item) "dir".

(** Line 151: [item.size && item.size < 1024 * 1024]. *)
Definition reasonableSize (item : Item) : option Z :=
  match item_size item with
  | Some size =>
      if negb (size =? 0) && (size <? 1024 * 1024) then Some size else None
  | None => None
  end.

(** Lines 152-159: the node pushed for any other entry. *)
Definition fileChild (item : Item) (size depth : Z) : FileTreeNode :=
  File (item_name item) (item_path item) (item_download_url item) size depth.

Definition Run (A : Type) : Type := option (Outcome A * World).

(** The loop of lines 110-162 over the listing, [recurse] being the call of
    lines 131-139; the result is [tree.children]. *)
Fixpoint forItems (recurse : string -> World -> Run FileTreeNode)
    (analysisId : option string) (depth : Z) (items : list Item)
    (children : list FileTreeNode) (w : World) : Run (list FileTreeNode) :=
  match items with
  | [] => Some (Ok children, w)
  | item :: rest =>
      if isCancelled analysisId w
      then Some (Throw "Analysis cancelled by user", w)
      else if shouldSkip (item_name item)
      then forItems recurse analysisId depth rest children w
      else if isDir item
      then
        match recurse (item_path item) w with
        | None => None
        | Some (Throw message, w') => Some (Throw message, w')
        | Some (Ok subTree, w') =>
            forItems recurse analysisId depth rest
                     (children ++ [folderChild item subTree depth]) w'
        end
      else
        match reasonableSize item with
        | Some size =>
            forItems recurse analysisId depth rest
                     (children ++ [fileChild item size depth]) w
        | None => forItems recurse analysisId depth rest children w
        end
  end.

(** The [catch] of lines 165-167 wraps the message of whatever was thrown in
    the [try] block, at every level of the recursion. *)
Definition rethrow {A} (r : Run A) : Run A :=
  match r with
  | Some (Throw message, w) =>
      Some (Throw ("GitHub API error: " ++ message)%string, w)
  | _ => r
  end.

(** One call of [buildFileTreeWithCancellation]; [fuel] bounds the nesting
    of the calls and [None] means that it ran out. *)
Fixpoint crawl (fuel : nat) (env : Env) (owner repo path : string)
    (githubToken analysisId : option string) (depth maxDepth : Z)
    (w : World) : Run FileTreeNode :=
  match fuel with
  | O => None
  | S fuel' =>
      rethrow
        (if isCancelled analysisId w
         then Some (Throw "Analysis cancelled by user", w)
         else
           let w1 := updateProgress analysisId path depth maxDepth w in
           if maxDepth <? depth
           then Some (Ok (truncatedFolder path repo maxDepth), w1)
           else
             match axios_get env owner repo path githubToken w1 with
             | (Failed message, w2) => Some (Throw message, w2)
             | (Listing items, w2) =>
                 match
                   forItems (fun p w' =>
                               crawl fuel' env owner repo p githubToken
                                     analysisId (depth + 1) maxDepth w')
                            analysisId depth items [] w2
                 with
                 | None => None
                 | Some (Throw message, w3) => Some (Throw message, w3)
                 | Some (Ok children, w3) =>
                     Some (Ok (Folder (folderName path repo) None children
                                      (Some depth) None None), w3)
                 end
             end)
  end.

(** The nesting of the calls is at most [maxDepth + 1 - depth] below the
    first one. *)
Definition levels (depth maxDepth : Z) : nat :=
  S (Z.to_nat (maxDepth + 1 - depth)).

Definition buildFileTreeWithCancellation (env : Env)
    (owner repo path : string) (githubToken analysisId : option string)
    (depth maxDepth : Z) (w : World) : Run FileTreeNode :=
  crawl (levels depth maxDepth) env owner repo path githubToken analysisId
        depth maxDepth w.

(** ** The [/analyze] route (lines 8-13 and 173-225) *)

(** The longest prefix without a slash, and what follows it. *)
Fixpoint segment (s : string) : string * string :=
  match s with
  | EmptyString => (EmptyString, EmptyString)
  | String c rest =>
      if Ascii.eqb c "/"%char then (EmptyString, s)
      else let (seg, tail) := segment rest in (String c seg, tail)
  end.

Fixpoint dropPrefix (p s : string) : option string :=
  match p with
  | EmptyString => Some s
  | String a p' =>
      match s with
      | String b s' => if Ascii.eqb a b then dropPrefix p' s' else None
      | EmptyString => None
      end
  end.

(** A match of [/github\.com\/([^\/]+)\/([^\/]+)/] that starts at the head
    of [s].  Both groups are greedy and stop at a slash only, so the first
    one must be followed by a slash. *)
Definition matchGitHub (s : string) : option (string * string) :=
  match dropPrefix "github.com/" s with
  | Some rest =>
      match segment rest with
      | (EmptyString, _) => None
      | (owner, String _ rest') =>
          match segment rest' with
          | (EmptyString, _) => None
          | (repo, _) => Some (owner, repo)
          end
      | (_, EmptyString) => None
      end
  | None => None
  end.

(** [url.match(regex)]: the leftmost match. *)
Fixpoint parseGitHubUrl (url : string) : option (string * string) :=
  match matchGitHub url with
  | Some groups => Some groups
  | None =>
      match url with
      | String _ rest => parseGitHubUrl rest
      | EmptyString => None
      end
  end.

(** A value of a JSON body, as far as [/analyze] tells values apart: a
    string, or a value of another kind with its truth value ([null],
    [false] and [0] are falsy; [true], the other numbers, the arrays and
    the objects are truthy). *)
Inductive JsValue : Type :=
| Text (s : string)
| Other (truthy : bool).

(** The body of a request to [/analyze]: [repoUrl], [None] when the field
    is absent, and for [maxDepth] the integer that [parseInt] reads from
    the field, [None] when it reads none or when the field is absent. *)
Record AnalyzeBody : Type := mkAnalyzeBody {
  repoUrl : option JsValue;
  maxDepth : option Z
}.

(** Line 183: [Math.min(Math.max(parseInt(maxDepth) || 15, 1), 20)]. *)
Definition clampDepth (maxDepth : option Z) : Z :=
  let n := match maxDepth with
           | Some n => if n =? 0 then 15 else n
           | None => 15
           end in
  Z.min (Z.max n 1) 20.

(** Line 195. *)
Definition analysisIdOf (userId : string) (now : Z) : string :=
  (userId ++ "-" ++ show_Z now)%string.

(** [await Repository.create(req.user.id, repoUrl, fileTree)]: what arrives
    while the database works is served, and then the record is saved, or an
    error is thrown and nothing is saved.  The fallback storage saves at
    once, and nothing arrives meanwhile. *)
Definition Repository_create (env : Env) (userId url : string)
    (data : FileTreeNode) (w : World) : Outcome Stored * World :=
  let repository := mkStored userId url data in
  let n := List.length (requested w) in
  let w1 := handleAll (arrivals env n) w in
  match createFails env repository with
  | Some message => (Throw message, w1)
  | None => (Ok repository, save repository w1)
  end.

(** The handler of [/analyze] for the user [userId], [now] being the value
    of [Date.now()] at line 195 and [githubToken] the environment's
    [GITHUB_TOKEN]. *)
Definition analyzeRoute (env : Env) (githubToken : option string) (now : Z)
    (userId : string) (rq : AnalyzeBody) (w : World)
  : option (Response * World) :=
  match repoUrl rq with
  | None | Some (Other false) | Some (Text EmptyString) =>
      (* line 178: [!repoUrl] *)
      Some (mkResponse 400 (Message "Repository URL is required"), w)
  | Some (Other true) =>
      (* line 11: [url.match] is no function; the [TypeError] is caught at
         line 218 *)
      Some (mkResponse 500
              (Failure "Failed to analyze repository"
                       "url.match is not a function"), w)
  | Some (Text url) =>
      let depth := clampDepth (maxDepth rq) in
      match parseGitHubUrl url with
      | None => Some (mkResponse 400 (Message "Invalid GitHub URL"), w)
      | Some (owner, repo) =>
          let analysisId := analysisIdOf userId now in
          let w1 := register analysisId w in
          match
            buildFileTreeWithCancellation env owner repo "" githubToken
                                          (Some analysisId) 0 depth w1
          with
          | None => None
          | Some (Throw error, w2) =>
              (* the [catch] of line 218 *)
              Some (mkResponse 500
                      (Failure "Failed to analyze repository" error), w2)
          | Some (Ok fileTree, w2) =>
              let w3 := unregister analysisId w2 in
              (* line 205, after the entry has been deleted *)
              if match JsMap.get analysisId (activeAnalyses w3) with
                 | Some analysis => cancelled analysis
                 | None => false
                 end
              then
                Some (mkResponse 499 (Message "Analysis cancelled by user"),
                      w3)
              else
                match Repository_create env userId url fileTree w3 with
                | (Throw error, w4) =>
                    (* the [catch] of line 218 again *)
                    Some (mkResponse 500
                            (Failure "Failed to analyze repository" error),
                          w4)
                | (Ok _, w4) =>
                    Some (mkResponse 200
                            (Analyzed "Repository analyzed successfully"
                                      owner repo fileTree depth), w4)
                end
          end
      end
  end.

(** ** Sample runs *)
Module Samples.

Definition dir (name path : string) : Item :=
  mkItem name "dir" path None None.

Definition file (name path : string) (size : Z) : Item :=
  mkItem name "file" path (Some size) (Some ("https://raw/" ++ path)%string).

Definition emptyWorld : World := mkWorld [] [] [] [] [].

Definition quiet : nat -> list Incoming := fun _ => [].

(** Requests [rqs] arrive during the fetch number [k], none otherwise. *)
Definition during (k : nat) (rqs : list Incoming) : nat -> list Incoming :=
  fun n => if Nat.eqb n k then rqs else [].

(** A repository given by the listings of its directories; any other path
    is answered by an error. *)
Fixpoint lookupListing (listings : list (string * list Item))
    (path : string) : FetchReply :=
  match listings with
  | [] => Failed "Request failed with status code 404"
  | (p, items) :: more =>
      if String.eqb p path then Listing items else lookupListing more path
  end.

(** Every record is saved. *)
Definition repository (listings : list (string * list Item))
    (arrive : nat -> list Incoming) : Env :=
  mkEnv (fun _ _ path _ => lookupListing listings path) arrive
        (fun _ => None).

(** [readme.txt] and a directory [src] holding a directory [lib]. *)
Definition widgets : list (string * list Item) :=
  [ ("", [file "readme.txt" "readme.txt" 10; dir "src" "src"]);
    ("src", [dir "lib" "src/lib"; file "main.js" "src/main.js" 200]);
    ("src/lib", [file "util.js" "src/lib/util.js" 30]) ].

End Samples.

(** * Properties *)

(** One unfolding of the crawler. *)
Lemma crawl_step fuel env owner repo path githubToken analysisId depth
    maxDepth w :
  crawl (S fuel) env owner repo path githubToken analysisId depth maxDepth w
  = rethrow
      (if isCancelled analysisId w
       then Some (Throw "Analysis cancelled by user", w)
       else
         let w1 := updateProgress analysisId path depth maxDepth w in
         if maxDepth <? depth
         then Some (Ok (truncatedFolder path repo maxDepth), w1)
         else
           match axios_get env owner repo path githubToken w1 with
           | (Failed message, w2) => Some (Throw message, w2)
           | (Listing items, w2) =>
               match
                 forItems (fun p w' =>
                             crawl fuel env owner repo p githubToken
                                   analysisId (depth + 1) maxDepth w')
                          analysisId depth items [] w2
               with
               | None => None
               | Some (Throw message, w3) => Some (Throw message, w3)
               | Some (Ok children, w3) =>
                   Some (Ok (Folder (folderName path repo) None children
                                    (Some depth) None None), w3)
               end
           end).
Proof. reflexivity. Qed.

(** ** The crawler returns: the fuel of [buildFileTreeWithCancellation]
    is enough *)

Lemma rethrow_some {A} (r : Run A) : r <> None -> rethrow r <> None.
Proof.
  destruct r as [[[a | m] w] |]; simpl; congruence.
Qed.

Lemma forItems_total recurse analysisId depth items :
  (forall p w, recurse p w <> None) ->
  forall children w,
    forItems recurse analysisId depth items children w <> None.
Proof.
  intros Hrec. induction items as [| item rest IH]; intros children w; simpl.
  - discriminate.
  - destruct (isCancelled analysisId w); [discriminate |].
    destruct (shouldSkip (item_name item)); [apply IH |].
    destruct (isDir item).
    + specialize (Hrec (item_path item) w).
      destruct (recurse (item_path item) w) as [[[sub | m] w'] |];
        [apply IH | discriminate | congruence].
    + destruct (reasonableSize item); apply IH.
Qed.

Lemma crawl_total env owner repo githubToken analysisId maxDepth fuel :
  forall path depth w,
    (Z.to_nat (maxDepth + 1 - depth) < fuel)%nat ->
    crawl fuel env owner repo path githubToken analysisId depth maxDepth w
    <> None.
Proof.
  induction fuel as [| fuel IH]; intros path depth w Hfuel; [lia |].
  rewrite crawl_step. apply rethrow_some.
  destruct (isCancelled analysisId w); [discriminate |].
  cbv zeta.
  destruct (maxDepth <? depth) eqn:Hd; [discriminate |].
  apply Z.ltb_ge in Hd.
  destruct (axios_get env owner repo path githubToken _) as [[items | m] w2];
    [| discriminate].
  match goal with
  | |- context [forItems ?r ?a ?d ?i ?c ?w] =>
      pose proof (forItems_total r a d i) as Htot
  end.
  match type of Htot with
  | ?P -> _ => assert (Hrec : P) by (intros p w'; apply IH; lia)
  end.
  specialize (Htot Hrec [] w2).
  destruct (forItems _ _ _ _ _ _) as [[[ch | m] w3] |];
    [discriminate | discriminate | congruence].
Qed.

(** More fuel than needed changes nothing. *)
Lemma forItems_ext recurse recurse' analysisId depth items :
  (forall p w r, recurse p w = Some r -> recurse' p w = Some r) ->
  forall children w r,
    forItems recurse analysisId depth items children w = Some r ->
    forItems recurse' analysisId depth items children w = Some r.
Proof.
  intros Hrec. induction items as [| item rest IH]; intros children w r; simpl.
  - trivial.
  - destruct (isCancelled analysisId w); [trivial |].
    destruct (shouldSkip (item_name item)); [apply IH |].
    destruct (isDir item).
    + destruct (recurse (item_path item) w) as [[[sub | m] w'] |] eqn:E;
        [| | discriminate]; rewrite (Hrec _ _ _ E); [apply IH | trivial].
    + destruct (reasonableSize item); apply IH.
Qed.

Lemma crawl_fuel_mono env owner repo githubToken analysisId maxDepth fuel :
  forall fuel' path depth w r,
    (fuel <= fuel')%nat ->
    crawl fuel env owner repo path githubToken analysisId depth maxDepth w
    = Some r ->
    crawl fuel' env owner repo path githubToken analysisId depth maxDepth w
    = Some r.
Proof.
  induction fuel as [| fuel IH]; intros fuel' path depth w r Hle;
    [discriminate |].
  destruct fuel' as [| fuel']; [lia |]. rewrite !crawl_step.
  destruct (isCancelled analysisId w); [trivial |].
  cbv zeta.
  destruct (maxDepth <? depth); [trivial |].
  destruct (axios_get env owner repo path githubToken _) as [[items | m] w2];
    [| trivial].
  destruct (forItems _ _ _ _ _ _) as [r1 |] eqn:E; [| discriminate].
  erewrite forItems_ext; [| | exact E]; [trivial |].
  intros p w' r' Hr. apply IH; [lia | exact Hr].
Qed.

(** ** What a successful call went through *)

Lemma rethrow_ok {A} (r : Run A) (a : A) (w : World) :
  rethrow r = Some (Ok a, w) -> r = Some (Ok a, w).
Proof.
  destruct r as [[[a' | m] w'] |]; simpl; congruence.
Qed.

Lemma crawl_ok_inv fuel env owner repo path githubToken analysisId depth
    maxDepth w tree w' :
  crawl (S fuel) env owner repo path githubToken analysisId depth maxDepth w
  = Some (Ok tree, w') ->
  isCancelled analysisId w = false /\
  ((maxDepth < depth /\
    tree = truncatedFolder path repo maxDepth /\
    w' = updateProgress analysisId path depth maxDepth w)
   \/
   (depth <= maxDepth /\
    exists items w2 children,
      axios_get env owner repo path githubToken
                (updateProgress analysisId path depth maxDepth w)
      = (Listing items, w2) /\
      forItems (fun p w0 =>
                  crawl fuel env owner repo p githubToken analysisId
                        (depth + 1) maxDepth w0)
               analysisId depth items [] w2
      = Some (Ok children, w') /\
      tree = Folder (folderName path repo) None children (Some depth)
                    None None)).
Proof.
  rewrite crawl_step. intros H. apply rethrow_ok in H.
  destruct (isCancelled analysisId w); [discriminate |].
  split; [reflexivity |]. cbv zeta in H.
  destruct (maxDepth <? depth) eqn:Hd.
  - apply Z.ltb_lt in Hd. left. inversion H. auto.
  - apply Z.ltb_ge in Hd. right. split; [exact Hd |].
    destruct (axios_get _ _ _ _ _ _) as [[items | m] w2]; [| discriminate].
    destruct (forItems _ _ _ _ _ _) as [[[ch | m] w3] |] eqn:E;
      try discriminate.
    inversion H; subst. exists items, w2, ch. auto.
Qed.

Section Unfolding.

Variable env : Env.
Variables owner repo : string.
Variable githubToken : option string.
Variable maxDepth : Z.

(** [Unfolds depth path tree]: [tree] is the tree of the directory [path]
    of the repository, taken at depth [depth], filtered and cut below
    [maxDepth]; [Children depth items children] relates a listing to the
    nodes pushed for it. *)
Inductive Unfolds : Z -> string -> FileTreeNode -> Prop :=
| Unfolds_truncated depth path :
    maxDepth < depth ->
    Unfolds depth path (truncatedFolder path repo maxDepth)
| Unfolds_listed depth path items children :
    depth <= maxDepth ->
    upstream env owner repo path githubToken = Listing items ->
    Children depth items children ->
    Unfolds depth path
            (Folder (folderName path repo) None children (Some depth)
                    None None)
with Children : Z -> list Item -> list FileTreeNode -> Prop :=
| Children_nil depth : Children depth [] []
| Children_skipped depth item items children :
    shouldSkip (item_name item) = true ->
    Children depth items children ->
    Children depth (item :: items) children
| Children_dir depth item items subTree children :
    shouldSkip (item_name item) = false ->
    isDir item = true ->
    Unfolds (depth + 1) (item_path item) subTree ->
    Children depth items children ->
    Children depth (item :: items)
             (folderChild item subTree depth :: children)
| Children_file depth item items size children :
    shouldSkip (item_name item) = false ->
    isDir item = false ->
    reasonableSize item = Some size ->
    Children depth items children ->
    Children depth (item :: items) (fileChild item size depth :: children)
| Children_unsized depth item items children :
    shouldSkip (item_name item) = false ->
    isDir item = false ->
    reasonableSize item = None ->
    Children depth items children ->
    Children depth (item :: items) children.

Scheme Unfolds_mut := Induction for Unfolds Sort Prop
  with Children_mut := Induction for Children Sort Prop.

Lemma forItems_children recurse analysisId depth items :
  (forall p w subTree w',
      recurse p w = Some (Ok subTree, w') ->
      Unfolds (depth + 1) p subTree) ->
  forall children w children' w',
    forItems recurse analysisId depth items children w
    = Some (Ok children', w') ->
    exists pushed,
      children' = children ++ pushed /\ Children depth items pushed.
Proof.
  intros Hrec.
  induction items as [| item rest IH]; intros children w children' w' H;
    simpl in H.
  - inversion H; subst. exists []. split; [now rewrite app_nil_r |].
    constructor.
  - destruct (isCancelled analysisId w); [discriminate |].
    destruct (shouldSkip (item_name item)) eqn:Hskip.
    { destruct (IH _ _ _ _ H) as (pushed & -> & Hch).
      exists pushed. split; [reflexivity |].
      now apply Children_skipped. }
    destruct (isDir item) eqn:Hdir.
    + destruct (recurse (item_path item) w) as [[[sub | m] w1] |] eqn:E;
        try discriminate.
      destruct (IH _ _ _ _ H) as (pushed & -> & Hch).
      exists (folderChild item sub depth :: pushed).
      split; [now rewrite <- app_assoc |].
      apply Children_dir; eauto.
    + destruct (reasonableSize item) as [size |] eqn:Hsize.
      * destruct (IH _ _ _ _ H) as (pushed & -> & Hch).
        exists (fileChild item size depth :: pushed).
        split; [now rewrite <- app_assoc |].
        now apply Children_file.
      * destruct (IH _ _ _ _ H) as (pushed & -> & Hch).
        exists pushed. split; [reflexivity |].
        now apply Children_unsized.
Qed.

Lemma axios_get_reply path w reply w' :
  axios_get env owner repo path githubToken w = (reply, w') ->
  upstream env owner repo path githubToken = reply.
Proof. unfold axios_get. intros H. now inversion H. Qed.

(** A tree that the crawler returns is the unfolding of the repository. *)
Lemma crawl_unfolds analysisId fuel :
  forall path depth w tree w',
    crawl fuel env owner repo path githubToken analysisId depth maxDepth w
    = Some (Ok tree, w') ->
    Unfolds depth path tree.
Proof.
  induction fuel as [| fuel IH]; intros path depth w tree w' H;
    [discriminate |].
  apply crawl_ok_inv in H.
  destruct H as [_ [(Hd & -> & _) | (Hd & items & w2 & ch & Hget & Hloop & ->)]].
  - now apply Unfolds_truncated.
  - apply axios_get_reply in Hget.
    apply forItems_children in Hloop; [| intros; eapply IH; eauto].
    destruct Hloop as (pushed & -> & Hch). simpl.
    eapply Unfolds_listed; eauto.
Qed.

End Unfolding.

(** ** The nodes of an unfolding *)

Lemma nodes_folder name path children depth truncated message :
  nodes (Folder name path children depth truncated message)
  = Folder name path children depth truncated message
    :: flat_map nodes children.
Proof.
  reflexivity.
Qed.

Lemma nodes_descendants (n : FileTreeNode) : nodes n = n :: descendants n.
Proof.
  destruct n; [reflexivity | apply nodes_folder].
Qed.

Lemma descendants_folderChild item subTree depth :
  descendants (folderChild item subTree depth) = descendants subTree.
Proof. reflexivity. Qed.

Section Nodes.

Variable env : Env.
Variables owner repo : string.
Variable githubToken : option string.
Variable maxDepth : Z.

Abbreviation Unfolds := (Unfolds env owner repo githubToken maxDepth).
Abbreviation Children := (Children env owner repo githubToken maxDepth).

(** How a node pushed at depth [depth] for an entry of [items] looks. *)
Inductive ChildOf (depth : Z) (items : list Item) : FileTreeNode -> Prop :=
| ChildOf_file item size :
    In item items ->
    shouldSkip (item_name item) = false ->
    isDir item = false ->
    reasonableSize item = Some size ->
    ChildOf depth items (fileChild item size depth)
| ChildOf_dir item subTree :
    In item items ->
    shouldSkip (item_name item) = false ->
    isDir item = true ->
    Unfolds (depth + 1) (item_path item) subTree ->
    ChildOf depth items (folderChild item subTree depth).

Lemma ChildOf_cons depth item items n :
  ChildOf depth items n -> ChildOf depth (item :: items) n.
Proof.
  intros [i size Hin | i sub Hin]; [eapply ChildOf_file | eapply ChildOf_dir];
    simpl; eauto.
Qed.

(** Every node pushed by the loop stems from an entry of the listing. *)
Lemma Children_sound depth items children :
  Children depth items children ->
  forall n, In n children -> ChildOf depth items n.
Proof.
  induction 1 as [d | d item items ch Hskip _ IH
                  | d item items sub ch Hskip Hdir Hsub _ IH
                  | d item items size ch Hskip Hdir Hsize _ IH
                  | d item items ch Hskip Hdir Hsize _ IH];
    intros n Hin.
  - destruct Hin.
  - apply ChildOf_cons; auto.
  - destruct Hin as [<- | Hin]; [| apply ChildOf_cons; auto].
    apply ChildOf_dir; simpl; auto.
  - destruct Hin as [<- | Hin]; [| apply ChildOf_cons; auto].
    apply ChildOf_file; simpl; auto.
  - apply ChildOf_cons; auto.
Qed.

(** Every entry that is not filtered out has its node, and the nodes
    keep the order of the listing. *)
Lemma Children_complete depth items children :
  Children depth items children ->
  forall item,
    In item items ->
    shouldSkip (item_name item) = false ->
    (isDir item = true ->
     exists subTree,
       Unfolds (depth + 1) (item_path item) subTree /\
       In (folderChild item subTree depth) children) /\
    (isDir item = false ->
     forall size,
       reasonableSize item = Some size ->
       In (fileChild item size depth) children).
Proof.
  induction 1 as [d | d item items ch Hskip _ IH
                  | d item items sub ch Hskip Hdir Hsub _ IH
                  | d item items size ch Hskip Hdir Hsize _ IH
                  | d item items ch Hskip Hdir Hsize _ IH];
    intros i Hin Hi.
  - destruct Hin.
  - destruct Hin as [<- | Hin]; [congruence | auto].
  - destruct Hin as [<- | Hin].
    + split; [| congruence]. intros _. exists sub. simpl; auto.
    + destruct (IH i Hin Hi) as [IHd IHf]. split.
      * intros Hd. destruct (IHd Hd) as (s & Hs & Hins).
        exists s. simpl; auto.
      * intros Hd size Hsz. simpl; auto.
  - destruct Hin as [<- | Hin].
    + split; [congruence |]. intros _ size' Hsz.
      assert (size' = size) by congruence. subst. simpl; auto.
    + destruct (IH i Hin Hi) as [IHd IHf]. split.
      * intros Hd. destruct (IHd Hd) as (s & Hs & Hins).
        exists s. simpl; auto.
      * intros Hd size' Hsz. simpl; auto.
  - destruct Hin as [<- | Hin]; [| auto].
    split; congruence.
Qed.

(** A node below the root was pushed for an entry of some listing. *)
Definition Pushed (depth : Z) (n : FileTreeNode) : Prop :=
  exists d path items,
    depth <= d /\ d <= maxDepth /\
    upstream env owner repo path githubToken = Listing items /\
    ChildOf d items n.

Lemma Pushed_deeper depth n : Pushed (depth + 1) n -> Pushed depth n.
Proof.
  intros (d & p & items & Hd & H). exists d, p, items.
  split; [lia | exact H].
Qed.

Lemma Unfolds_descendants depth path tree :
  Unfolds depth path tree ->
  forall n, In n (descendants tree) -> Pushed depth n.
Proof.
  intros H.
  induction H using Unfolds_mut with
    (P0 := fun d items ch _ =>
             forall n, In n (flat_map nodes ch) ->
                       ChildOf d items n \/ Pushed (d + 1) n).
  - intros n [].
  - intros n Hin. destruct (IHUnfolds n Hin) as [Hc | Hp].
    + exists depth, path, items. auto using Z.le_refl.
    + now apply Pushed_deeper.
  - intros n [].
  - intros n Hin. destruct (IHUnfolds n Hin);
      [left; now apply ChildOf_cons | now right].
  - intros n Hin. cbn [flat_map] in Hin.
    rewrite nodes_descendants, descendants_folderChild in Hin.
    destruct Hin as [<- | Hin]; [| apply in_app_or in Hin as [Hin | Hin]].
    + left. apply ChildOf_dir; simpl; auto.
    + right. auto.
    + destruct (IHUnfolds0 n Hin);
        [left; now apply ChildOf_cons | now right].
  - intros n Hin. simpl in Hin.
    destruct Hin as [<- | Hin].
    + left. apply ChildOf_file; simpl; auto.
    + destruct (IHUnfolds n Hin);
        [left; now apply ChildOf_cons | now right].
  - intros n Hin. destruct (IHUnfolds n Hin);
      [left; now apply ChildOf_cons | now right].
Qed.

End Nodes.

(** ** Entries that leave no trace

    An entry is ignored when its name matches a skip pattern, or when it is
    not a directory and its size is refused by line 151.  A successful
    crawl is the same, tree and world, when the API does not list some of
    the ignored entries at all. *)

Definition ignored (item : Item) : bool :=
  shouldSkip (item_name item)
  || (negb (isDir item)
      && match reasonableSize item with Some _ => false | None => true end).

(** The environment whose listings leave out the entries chosen by
    [drop]. *)
Definition hide (drop : Item -> bool) (env : Env) : Env :=
  mkEnv (fun owner repo path token =>
           match upstream env owner repo path token with
           | Listing items =>
               Listing (filter (fun item => negb (drop item)) items)
           | Failed message => Failed message
           end)
        (arrivals env) (createFails env).

Lemma forItems_hide drop recurse recurse' analysisId depth items :
  (forall item, drop item = true -> ignored item = true) ->
  (forall p w subTree w',
      recurse p w = Some (Ok subTree, w') ->
      recurse' p w = Some (Ok subTree, w')) ->
  forall children w children' w',
    forItems recurse analysisId depth items children w
    = Some (Ok children', w') ->
    forItems recurse' analysisId depth
             (filter (fun item => negb (drop item)) items) children w
    = Some (Ok children', w').
Proof.
  intros Hdrop Hrec.
  induction items as [| item rest IH]; intros children w children' w' H;
    simpl in H |- *; [exact H |].
  destruct (isCancelled analysisId w) eqn:Hc; [discriminate |].
  pose proof (Hdrop item) as Hi. unfold ignored in Hi.
  destruct (drop item); simpl; rewrite ?Hc.
  - specialize (Hi eq_refl).
    destruct (shouldSkip (item_name item)); [auto |].
    destruct (isDir item); [discriminate |].
    destruct (reasonableSize item); [discriminate | auto].
  - destruct (shouldSkip (item_name item)); [auto |].
    destruct (isDir item).
    + destruct (recurse (item_path item) w) as [[[sub | m] w1] |] eqn:E;
        try discriminate.
      rewrite (Hrec _ _ _ _ E). auto.
    + destruct (reasonableSize item); auto.
Qed.

Lemma crawl_hide drop env owner repo githubToken analysisId maxDepth fuel :
  (forall item, drop item = true -> ignored item = true) ->
  forall path depth w tree w',
    crawl fuel env owner repo path githubToken analysisId depth maxDepth w
    = Some (Ok tree, w') ->
    crawl fuel (hide drop env) owner repo path githubToken analysisId depth
          maxDepth w
    = Some (Ok tree, w').
Proof.
  intros Hdrop.
  induction fuel as [| fuel IH]; intros path depth w tree w' H;
    [discriminate |].
  apply crawl_ok_inv in H. rewrite crawl_step.
  destruct H as [-> [(Hd & -> & ->) | (Hd & items & w2 & ch & Hget & Hloop & ->)]];
    cbv zeta.
  - apply Z.ltb_lt in Hd. now rewrite Hd.
  - apply Z.ltb_ge in Hd. rewrite Hd.
    unfold axios_get in Hget |- *. simpl upstream. simpl arrivals.
    inversion Hget as [[Hup Hw]]. rewrite Hup, Hw.
    erewrite (forItems_hide drop); [reflexivity | exact Hdrop | | exact Hloop].
    intros p w0 sub w0' Hsub. apply IH. exact Hsub.
Qed.

(** ** What a call adds to the histories *)

(** [Grows R W w w']: from [w] to [w'] the requests added to the history
    satisfy [R] and the sessions stored by the crawler satisfy [W]. *)
Definition Grows (R : string -> Prop) (W : string * Session -> Prop)
    (w w' : World) : Prop :=
  (exists paths, requested w' = requested w ++ paths /\ Forall R paths) /\
  (exists stores, written w' = written w ++ stores /\ Forall W stores).

Lemma Grows_refl R W w : Grows R W w w.
Proof.
  split; exists []; now rewrite app_nil_r.
Qed.

Lemma Grows_trans R W w1 w2 w3 :
  Grows R W w1 w2 -> Grows R W w2 w3 -> Grows R W w1 w3.
Proof.
  intros [(p1 & E1 & F1) (s1 & E2 & F2)] [(p2 & E3 & F3) (s2 & E4 & F4)].
  split.
  - exists (p1 ++ p2). rewrite E3, E1, app_assoc.
    split; [reflexivity | now apply Forall_app].
  - exists (s1 ++ s2). rewrite E4, E2, app_assoc.
    split; [reflexivity | now apply Forall_app].
Qed.

Lemma Grows_impl (R R' : string -> Prop) (W W' : string * Session -> Prop)
    w w' :
  (forall p, R p -> R' p) -> (forall s, W s -> W' s) ->
  Grows R W w w' -> Grows R' W' w w'.
Proof.
  intros HR HW [(p & E1 & F1) (s & E2 & F2)].
  split; [exists p | exists s]; split; auto;
    eapply Forall_impl; eauto.
Qed.

(** What is served at a suspension point adds nothing to the requests and
    to the stored sessions of the crawl. *)
Lemma handle_histories rq w :
  requested (handle rq w) = requested w /\
  written (handle rq w) = written w.
Proof.
  unfold handle. destruct rq as [u | u | id step]; simpl.
  - auto.
  - unfold progressRoute.
    destruct (firstSession u (activeAnalyses w)); simpl; auto.
  - destruct step; simpl; auto.
Qed.

Lemma handleAll_histories rqs w :
  requested (handleAll rqs w) = requested w /\
  written (handleAll rqs w) = written w.
Proof.
  unfold handleAll. revert w.
  induction rqs as [| rq rqs IH]; intros w; simpl; [auto |].
  destruct (IH (handle rq w)) as (-> & ->). apply handle_histories.
Qed.

Lemma axios_get_grows env owner repo path githubToken w reply w'
    (W : string * Session -> Prop) :
  axios_get env owner repo path githubToken w = (reply, w') ->
  Grows (fun p => p = path) W w w'.
Proof.
  unfold axios_get. intros H. inversion H; subst. clear H.
  match goal with
  | |- Grows _ _ _ (handleAll ?r ?w1) =>
      destruct (handleAll_histories r w1) as (Hr & Hw)
  end.
  split; [exists [path] | exists []]; simpl in *.
  - split; [exact Hr | auto].
  - rewrite app_nil_r. split; [exact Hw | auto].
Qed.

(** The session stored by a call at depth [depth]. *)
Definition StoredAt (analysisId : option string) (maxDepth : Z)
    (store : string * Session) : Prop :=
  truthyId analysisId = Some (fst store) /\
  exists depth,
    0 < depth /\
    currentDepth (snd store) = Some depth /\
    progress (snd store) = Some (progressPercent depth maxDepth).

Lemma updateProgress_grows analysisId path depth maxDepth w
    (R : string -> Prop) :
  Grows R (StoredAt analysisId maxDepth) w
        (updateProgress analysisId path depth maxDepth w).
Proof.
  unfold updateProgress.
  destruct (truthyId analysisId) as [id |] eqn:Hid; [| apply Grows_refl].
  destruct (0 <? depth) eqn:Hd; [| apply Grows_refl].
  apply Z.ltb_lt in Hd.
  split; [exists [] | eexists [_]]; simpl.
  - now rewrite app_nil_r.
  - split; [reflexivity |]. constructor; [| constructor].
    split; [exact Hid |]. exists depth. simpl. auto.
Qed.

Lemma rethrow_world {A} (r : Run A) (o : Outcome A) (w : World) :
  rethrow r = Some (o, w) -> exists o', r = Some (o', w).
Proof.
  destruct r as [[[a | m] w0] |]; simpl; intros H; inversion H; subst; eauto.
Qed.

Section Histories.

Variable env : Env.
Variables owner repo : string.
Variables githubToken analysisId : option string.
Variable maxDepth : Z.

(** [path] is the path of a directory entry, in some listing of the
    repository, that matches no skip pattern. *)
Definition KeptDir (path : string) : Prop :=
  exists parent items item,
    upstream env owner repo parent githubToken = Listing items /\
    In item items /\
    isDir item = true /\
    shouldSkip (item_name item) = false /\
    item_path item = path.

Abbreviation Progress := (StoredAt analysisId maxDepth).

Lemma forItems_grows recurse depth items :
  (forall item w r w',
      In item items ->
      isDir item = true ->
      shouldSkip (item_name item) = false ->
      recurse (item_path item) w = Some (r, w') ->
      Grows KeptDir Progress w w') ->
  forall children w r w',
    forItems recurse analysisId depth items children w = Some (r, w') ->
    Grows KeptDir Progress w w'.
Proof.
  induction items as [| item rest IH]; intros Hrec children w r w' H;
    simpl in H.
  - inversion H; subst. apply Grows_refl.
  - assert (Hrest : forall children w r w',
               forItems recurse analysisId depth rest children w
               = Some (r, w') ->
               Grows KeptDir Progress w w').
    { apply IH. intros i w0 r0 w0' Hin. apply Hrec. now right. }
    destruct (isCancelled analysisId w).
    { inversion H; subst. apply Grows_refl. }
    destruct (shouldSkip (item_name item)) eqn:Hskip; [eauto |].
    destruct (isDir item) eqn:Hdir.
    + destruct (recurse (item_path item) w) as [[[sub | m] w1] |] eqn:E;
        [| | discriminate].
      * eapply Grows_trans; [| eapply Hrest; exact H].
        eapply Hrec; eauto. now left.
      * inversion H; subst. eapply Hrec; eauto. now left.
    + destruct (reasonableSize item); eauto.
Qed.

(** A call requests its own path and then only paths of directory entries
    that match no skip pattern; what it stores is the progress of a
    depth. *)
Lemma crawl_grows fuel :
  forall path depth w r w',
    crawl fuel env owner repo path githubToken analysisId depth maxDepth w
    = Some (r, w') ->
    Grows (fun p => p = path \/ KeptDir p) Progress w w'.
Proof.
  induction fuel as [| fuel IH]; intros path depth w r w' H;
    [discriminate |].
  rewrite crawl_step in H. apply rethrow_world in H as [o H].
  destruct (isCancelled analysisId w).
  { inversion H; subst. apply Grows_refl. }
  cbv zeta in H.
  eapply Grows_trans; [apply updateProgress_grows |].
  destruct (maxDepth <? depth).
  { inversion H; subst. apply Grows_refl. }
  destruct (axios_get _ _ _ _ _ _) as [reply w2] eqn:Hget.
  pose proof (axios_get_reply _ _ _ _ _ _ _ _ Hget) as Hup.
  eapply Grows_trans.
  { eapply Grows_impl; [| | eapply axios_get_grows; exact Hget];
      [intros p Hp; left; exact Hp | intros s Hs; exact Hs]. }
  destruct reply as [items | m].
  2:{ inversion H; subst. apply Grows_refl. }
  destruct (forItems _ _ _ _ _ _) as [[o3 w3] |] eqn:Hloop;
    [| discriminate].
  assert (w3 = w') by (destruct o3; inversion H; reflexivity). subst w3.
  eapply Grows_impl; [| | eapply forItems_grows; [| exact Hloop]];
    [intros p Hp; right; exact Hp | intros s Hs; exact Hs |].
  intros item w0 r0 w0' Hin Hdir Hskip Hrec.
  eapply Grows_impl; [| | eapply IH; exact Hrec];
    [| intros s Hs; exact Hs].
  intros p [-> | Hp]; [| exact Hp].
  exists path, items, item. auto.
Qed.

End Histories.

(** ** The progress percentage *)

(** The formula of the specification:
    [min(100, round(100 * depth / maxDepth))]. *)
Definition specProgress (depth maxDepth : Z) : Z :=
  Z.min 100 (js_round (100 * inject_Z depth / inject_Z maxDepth)).

Lemma js_round_le (x y : Q) : (x <= y)%Q -> js_round x <= js_round y.
Proof.
  intros H. apply Qfloor_resp_le. now apply Qplus_le_l.
Qed.

Lemma js_round_Z (n : Z) : js_round (inject_Z n) = n.
Proof.
  unfold js_round, Qfloor. simpl.
  replace (n * 2 + 1) with (1 + n * 2) by ring.
  rewrite Z.div_add by discriminate. reflexivity.
Qed.

Lemma js_round_min (x : Q) :
  js_round (Qmin x 100) = Z.min 100 (js_round x).
Proof.
  destruct (Q.min_spec_le x 100) as [[Hle E] | [Hle E]];
    unfold js_round at 1; rewrite E; fold (js_round x); fold (js_round 100);
    pose proof (js_round_le _ _ Hle) as H;
    change (js_round 100) with 100 in *; lia.
Qed.


Lemma scaled_le (d1 d2 m : Z) :
  0 < m -> d1 <= d2 ->
  (inject_Z d1 / inject_Z m * 100 <= inject_Z d2 / inject_Z m * 100)%Q.
Proof.
  intros Hm Hd.
  apply Qmult_le_compat_r; [| discriminate].
  unfold Qdiv. apply Qmult_le_compat_r.
  - now rewrite <- Zle_Qle.
  - apply Qinv_le_0_compat. change 0%Q with (inject_Z 0).
    rewrite <- Zle_Qle. lia.
Qed.

(** The percentage does not decrease with the depth. *)
Lemma progressPercent_mono (d1 d2 maxDepth : Z) :
  0 <= maxDepth -> d1 <= d2 ->
  progressPercent d1 maxDepth <= progressPercent d2 maxDepth.
Proof.
  intros Hm Hd. unfold progressPercent.
  destruct (maxDepth =? 0) eqn:E; [lia |]. apply Z.eqb_neq in E.
  apply js_round_le, Q.min_le_compat_r, scaled_le; lia.
Qed.

(** It lies between 0 and 100. *)
Lemma progressPercent_range (depth maxDepth : Z) :
  0 <= depth -> 0 <= maxDepth ->
  0 <= progressPercent depth maxDepth <= 100.
Proof.
  intros Hd Hm. unfold progressPercent.
  destruct (maxDepth =? 0) eqn:E; [lia |]. apply Z.eqb_neq in E.
  rewrite js_round_min. split; [| lia].
  apply Z.min_glb; [lia |].
  change 0 with (js_round (inject_Z 0)) at 1.
  apply js_round_le.
  setoid_replace (inject_Z 0) with (inject_Z 0 / inject_Z maxDepth * 100)%Q
    by (unfold Qdiv; simpl; rewrite !Qmult_0_l; reflexivity).
  apply scaled_le; lia.
Qed.

(** ** The depth limit *)

Section DepthLimit.

Variable env : Env.
Variables owner repo : string.
Variable githubToken : option string.
Variable maxDepth : Z.

Abbreviation Unfolds := (Unfolds env owner repo githubToken maxDepth).
Abbreviation Children := (Children env owner repo githubToken maxDepth).
Abbreviation ChildOf := (ChildOf env owner repo githubToken maxDepth).
Abbreviation Pushed := (Pushed env owner repo githubToken maxDepth).

(** The node pushed for a directory entry of a directory at depth
    [maxDepth]. *)
Definition truncatedChild (item : Item) : FileTreeNode :=
  Folder (item_name item) (Some (item_path item)) []
         (Some (maxDepth + 1)) (Some true)
         (Some ("Maximum depth (" ++ show_Z maxDepth ++ ") reached")%string).

Lemma Unfolds_beyond depth path tree :
  Unfolds depth path tree -> maxDepth < depth ->
  tree = truncatedFolder path repo maxDepth.
Proof.
  intros [d p Hd | d p items ch Hd Hup Hch] Hlt; [reflexivity | lia].
Qed.

Lemma Unfolds_within depth path tree :
  Unfolds depth path tree -> depth <= maxDepth ->
  exists items children,
    upstream env owner repo path githubToken = Listing items /\
    Children depth items children /\
    tree = Folder (folderName path repo) None children (Some depth)
                  None None.
Proof.
  intros [d p Hd | d p items ch Hd Hup Hch] Hle; [lia | eauto].
Qed.

(** The depth field of a pushed node, and its shape when the field is
    [maxDepth + 1]. *)
Lemma ChildOf_depth d items n :
  ChildOf d items n -> d <= maxDepth ->
  exists k,
    node_depth n = Some k /\ d <= k <= d + 1 /\
    (node_truncated n = Some true -> node_children n = []) /\
    (k = maxDepth + 1 ->
     is_file n = false /\ node_truncated n = Some true /\
     node_children n = []).
Proof.
  intros [item size Hin Hskip Hdir Hsize | item sub Hin Hskip Hdir Hsub] Hd.
  - exists d. simpl. repeat split; try lia; discriminate.
  - exists (d + 1). simpl. split; [reflexivity |]. split; [lia |].
    destruct (Z_lt_le_dec maxDepth (d + 1)) as [Hlt | Hle].
    + rewrite (Unfolds_beyond _ _ _ Hsub Hlt). simpl. auto.
    + destruct (Unfolds_within _ _ _ Hsub Hle) as (its & ch & _ & _ & ->).
      simpl. split; [discriminate | lia].
Qed.

(** The node pushed for a directory entry: it is one level below the
    directory that lists it, and cut exactly when that level is beyond the
    limit. *)
Lemma ChildOf_folder d items n :
  ChildOf d items n -> d <= maxDepth -> is_file n = false ->
  node_depth n = Some (d + 1) /\
  (d = maxDepth ->
   node_truncated n = Some true /\ node_children n = []) /\
  (d < maxDepth -> node_truncated n = None).
Proof.
  intros [item size Hin Hskip Hdir Hsize | item sub Hin Hskip Hdir Hsub]
         Hd Hfile; [discriminate |].
  simpl. split; [reflexivity |]. split.
  - intros ->. rewrite (Unfolds_beyond _ _ _ Hsub) by lia. simpl. auto.
  - intros Hlt.
    destruct (Unfolds_within _ _ _ Hsub) as (its & ch & _ & _ & ->);
      [lia | reflexivity].
Qed.

(** The children of a directory listed at depth [maxDepth]. *)
Lemma Children_boundary items children :
  Children maxDepth items children ->
  forall item,
    In item items ->
    isDir item = true ->
    shouldSkip (item_name item) = false ->
    In (truncatedChild item) children.
Proof.
  intros Hch item Hin Hdir Hskip.
  destruct (Children_complete _ _ _ _ _ _ _ _ Hch item Hin Hskip)
    as [Hd _].
  destruct (Hd Hdir) as (sub & Hsub & Hins).
  rewrite (Unfolds_beyond _ _ _ Hsub) in Hins by lia.
  exact Hins.
Qed.

Lemma ChildOf_boundary d items n :
  ChildOf d items n ->
  is_file n = false ->
  node_depth n = Some maxDepth ->
  exists path listing,
    node_path n = Some path /\
    upstream env owner repo path githubToken = Listing listing /\
    Children maxDepth listing (node_children n).
Proof.
  intros [item size Hin Hskip Hdir Hsize | item sub Hin Hskip Hdir Hsub]
         Hfile Hdepth; [discriminate |].
  simpl in Hdepth. assert (Hd : d + 1 = maxDepth) by congruence.
  rewrite Hd in Hsub.
  destruct (Unfolds_within _ _ _ Hsub (Z.le_refl _))
    as (listing & ch & Hup & Hch & ->).
  exists (item_path item), listing. auto.
Qed.

End DepthLimit.

(** C2, amended.  A tree returned for [maxDepth] has no depth field above
    [maxDepth + 1]; a directory node whose depth field is [maxDepth + 1] is
    truncated, with [truncated = true] and no children; a truncated node is
    a directory without children, and its depth field, if it has one, is
    [maxDepth + 1]; a directory node whose depth field is [maxDepth] or
    less is not truncated; and a directory node at depth [maxDepth] holds,
    for every directory entry of its listing that matches no skip pattern,
    the truncated node of that entry.  Nothing here is said of the depth
    fields of files.  ([orElse (node_path n) path] is the path the node was
    listed under: the root has no [path] field and was listed under the
    path of the call.) *)
Theorem truncation_at_depth_limit env owner repo path githubToken analysisId
    depth maxDepth w tree w' :
  buildFileTreeWithCancellation env owner repo path githubToken analysisId
                                depth maxDepth w
  = Some (Ok tree, w') ->
  (forall n k,
      In n (nodes tree) -> node_depth n = Some k -> k <= maxDepth + 1) /\
  (forall n,
      In n (nodes tree) -> is_file n = false ->
      node_depth n = Some (maxDepth + 1) ->
      node_truncated n = Some true /\ node_children n = []) /\
  (forall n,
      In n (nodes tree) -> node_truncated n = Some true ->
      is_file n = false /\ node_children n = [] /\
      forall k, node_depth n = Some k -> k = maxDepth + 1) /\
  (forall n k,
      In n (nodes tree) -> is_file n = false ->
      node_depth n = Some k -> k <= maxDepth ->
      node_truncated n = None) /\
  (forall n,
      In n (nodes tree) -> is_file n = false ->
      node_depth n = Some maxDepth ->
      exists items,
        upstream env owner repo (orElse (node_path n) path) githubToken
        = Listing items /\
        forall item,
          In item items -> isDir item = true ->
          shouldSkip (item_name item) = false ->
          In (truncatedChild maxDepth item) (node_children n)).
Proof.
  intros H. apply crawl_unfolds in H.
  pose proof (Unfolds_descendants _ _ _ _ _ _ _ _ H) as Hdesc.
  rewrite nodes_descendants.
  assert (Hroot :
    (forall k, node_depth tree = Some k -> k <= maxDepth) /\
    (node_truncated tree = Some true ->
     node_children tree = [] /\ node_depth tree = None) /\
    (forall k, node_depth tree = Some k -> node_truncated tree = None) /\
    (node_depth tree = Some maxDepth ->
     exists items,
       upstream env owner repo path githubToken = Listing items /\
       Children env owner repo githubToken maxDepth maxDepth items
                (node_children tree)) /\
    is_file tree = false /\ node_path tree = None).
  { destruct H as [d p Hd | d p items ch Hd Hup Hch]; simpl.
    - repeat split; auto; discriminate.
    - repeat split; auto; try discriminate.
      + intros k Hk. inversion Hk; subst. exact Hd.
      + intros Hk. inversion Hk; subst. eauto. }
  destruct Hroot as (Hr1 & Hr2 & Hr3 & Hr4 & Hr5 & Hr6).
  assert (Hpushed : forall n,
             In n (descendants tree) ->
             exists d items,
               d <= maxDepth /\
               ChildOf env owner repo githubToken maxDepth d items n).
  { intros n Hn. destruct (Hdesc n Hn) as (d & p & items & _ & Hd & _ & Hc).
    eauto. }
  split; [| split; [| split; [| split]]].
  - intros n k [<- | Hn] Hk.
    + specialize (Hr1 k Hk). lia.
    + destruct (Hpushed n Hn) as (d & items & Hd & Hc).
      destruct (ChildOf_depth _ _ _ _ _ _ _ _ Hc Hd) as (k' & Hk' & Hr & _).
      assert (k = k') by congruence. lia.
  - intros n [<- | Hn] Hfile Hk.
    + specialize (Hr1 _ Hk). lia.
    + destruct (Hpushed n Hn) as (d & items & Hd & Hc).
      destruct (ChildOf_folder _ _ _ _ _ _ _ _ Hc Hd Hfile)
        as (Hk' & Hcut & _).
      apply Hcut. rewrite Hk in Hk'. inversion Hk'. lia.
  - intros n [<- | Hn] Ht.
    + destruct (Hr2 Ht) as [Hch Hnone].
      split; [exact Hr5 |]. split; [exact Hch |].
      intros k Hk. congruence.
    + destruct (Hpushed n Hn) as (d & items & Hd & Hc).
      assert (Hfile : is_file n = false)
        by (destruct n; [discriminate | reflexivity]).
      destruct (ChildOf_folder _ _ _ _ _ _ _ _ Hc Hd Hfile)
        as (Hk' & Hcut & Hwhole).
      destruct (Z_lt_le_dec d maxDepth) as [Hlt | Hge];
        [rewrite (Hwhole Hlt) in Ht; discriminate |].
      assert (d = maxDepth) by lia. subst d.
      destruct (Hcut eq_refl) as [_ Hch].
      split; [exact Hfile |]. split; [exact Hch |].
      intros k Hk. congruence.
  - intros n k [<- | Hn] Hfile Hk Hle.
    + eapply Hr3. exact Hk.
    + destruct (Hpushed n Hn) as (d & items & Hd & Hc).
      destruct (ChildOf_folder _ _ _ _ _ _ _ _ Hc Hd Hfile)
        as (Hk' & _ & Hwhole).
      apply Hwhole. rewrite Hk in Hk'. inversion Hk'. lia.
  - intros n [<- | Hn] Hfile Hk.
    + destruct (Hr4 Hk) as (items & Hup & Hch). rewrite Hr6. simpl.
      exists items. split; [exact Hup |].
      intros item Hin Hdir Hskip.
      eapply Children_boundary; eauto.
    + destruct (Hpushed n Hn) as (d & items & Hd & Hc).
      destruct (ChildOf_boundary _ _ _ _ _ _ _ _ Hc Hfile Hk)
        as (p & listing & Hp & Hup & Hch).
      rewrite Hp. simpl. exists listing. split; [exact Hup |].
      intros item Hin Hdir Hskip.
      eapply Children_boundary; eauto.
Qed.

Import Samples.

Lemma truncation_at_depth_limit_witness :
  exists tree w',
    buildFileTreeWithCancellation (repository widgets quiet) "acme" "widgets"
                                  "" None (Some "u1-5") 0 1 emptyWorld
    = Some (Ok tree, w') /\
    In (truncatedChild 1 (dir "lib" "src/lib")) (nodes tree) /\
    (forall n k,
        In n (nodes tree) -> node_depth n = Some k -> k <= 1 + 1) /\
    (forall n,
        In n (nodes tree) -> is_file n = false ->
        node_depth n = Some (1 + 1) ->
        node_truncated n = Some true /\ node_children n = []).
Proof.
  destruct (buildFileTreeWithCancellation (repository widgets quiet)
              "acme" "widgets" "" None (Some "u1-5") 0 1 emptyWorld)
    as [[[tree | m] w'] |] eqn:E;
    try (vm_compute in E; discriminate).
  destruct (truncation_at_depth_limit _ _ _ _ _ _ _ _ _ _ _ E)
    as (Hbound & Hcut & _).
  exists tree, w'. split; [reflexivity |].
  split; [| split; [exact Hbound | exact Hcut]].
  vm_compute in E. inversion E. vm_compute. tauto.
Defined.

(** C2 as stated fails: with [maxDepth = 1] the directory [src/lib] is in
    the tree with the depth field 2. *)
Lemma depth_field_exceeds_maxDepth :
  exists tree w',
    buildFileTreeWithCancellation (repository widgets quiet) "acme" "widgets"
                                  "" None (Some "u1-5") 0 1 emptyWorld
    = Some (Ok tree, w') /\
    ~ (forall n k, In n (nodes tree) -> node_depth n = Some k -> k <= 1).
Proof.
  eexists. eexists. split.
  - vm_compute. reflexivity.
  - intros Hclaim.
    specialize (Hclaim (truncatedChild 1 (dir "lib" "src/lib")) 2).
    assert (2 <= 1); [| lia].
    apply Hclaim; [| reflexivity].
    vm_compute. tauto.
Qed.

(** ** Depth fields of parents and children *)

Section ChildDepths.

Variable env : Env.
Variables owner repo : string.
Variable githubToken : option string.
Variable maxDepth : Z.

Lemma ChildOf_child_depth d items c :
  ChildOf env owner repo githubToken maxDepth d items c ->
  node_depth c = Some (if is_file c then d else d + 1).
Proof.
  intros [item size _ _ _ _ | item sub _ _ _ _]; reflexivity.
Qed.

Lemma Unfolds_child_depth depth path tree c :
  Unfolds env owner repo githubToken maxDepth depth path tree ->
  In c (node_children tree) ->
  node_depth c = Some (if is_file c then depth else depth + 1).
Proof.
  intros [d p Hd | d p items ch Hd Hup Hch] Hin; [destruct Hin |].
  eapply ChildOf_child_depth, Children_sound; eauto.
Qed.

End ChildDepths.

(** In a returned tree a child that is a directory is one level below its
    parent, and a child that is a file carries the depth of its parent. *)
Lemma child_depths env owner repo path githubToken analysisId depth maxDepth
    w tree w' :
  buildFileTreeWithCancellation env owner repo path githubToken analysisId
                                depth maxDepth w
  = Some (Ok tree, w') ->
  forall n d c,
    In n (nodes tree) -> node_depth n = Some d -> In c (node_children n) ->
    node_depth c = Some (if is_file c then d else d + 1).
Proof.
  intros H n d c Hn Hd Hc. apply crawl_unfolds in H.
  rewrite nodes_descendants in Hn. destruct Hn as [<- | Hn].
  - assert (Hdepth : depth = d).
    { destruct H; simpl in Hd; [destruct Hc | congruence]. }
    subst d. eapply Unfolds_child_depth; eauto.
  - destruct (Unfolds_descendants _ _ _ _ _ _ _ _ H n Hn)
      as (d' & p & items & _ & _ & _ & Hch).
    destruct Hch as [item size _ _ _ _ | item sub _ _ _ Hsub];
      [destruct Hc |].
    simpl in Hd, Hc. assert (d = d' + 1) by congruence. subst d.
    eapply Unfolds_child_depth; eauto.
Qed.

(** C3 fails on a file: the root has depth 0 and so has the node of
    [readme.txt], where the claim asks for depth 1.  The directory [src],
    pushed by the other branch of the same loop, has depth 1. *)
Theorem file_child_has_parent_depth :
  exists w',
    buildFileTreeWithCancellation
      (repository [("", [file "readme.txt" "readme.txt" 10; dir "src" "src"]);
                   ("src", [])] quiet)
      "acme" "widgets" "" None (Some "u1-5") 0 1 emptyWorld
    = Some (Ok (Folder "widgets" None
                  [File "readme.txt" "readme.txt"
                        (Some "https://raw/readme.txt") 10 0;
                   Folder "src" (Some "src") [] (Some 1) None None]
                  (Some 0) None None), w').
Proof.
  eexists. vm_compute. reflexivity.
Qed.

(** ** Files and their sizes *)

Lemma reasonableSize_some item size :
  reasonableSize item = Some size ->
  item_size item = Some size /\ size <> 0 /\ size < 1024 * 1024.
Proof.
  unfold reasonableSize. destruct (item_size item) as [s |]; [| discriminate].
  destruct (s =? 0) eqn:E0; [discriminate |].
  destruct (s <? 1024 * 1024) eqn:E1; [| discriminate].
  intros H. inversion H; subst.
  apply Z.eqb_neq in E0. apply Z.ltb_lt in E1. auto.
Qed.

Lemma reasonableSize_refuses item :
  match item_size item with
  | Some size => size = 0 \/ 1024 * 1024 <= size
  | None => True
  end ->
  reasonableSize item = None.
Proof.
  unfold reasonableSize. destruct (item_size item) as [s |]; [| reflexivity].
  intros [-> | Hs]; [reflexivity |].
  destruct (s <? 1024 * 1024) eqn:E; [apply Z.ltb_lt in E; lia |].
  now rewrite andb_false_r.
Qed.

(** A file node of a returned tree is the node of a listed entry whose size
    passed the check of line 151. *)
Lemma file_node_origin env owner repo path githubToken analysisId depth
    maxDepth w tree w' :
  buildFileTreeWithCancellation env owner repo path githubToken analysisId
                                depth maxDepth w
  = Some (Ok tree, w') ->
  forall name p url size d,
    In (File name p url size d) (nodes tree) ->
    exists parent items item,
      upstream env owner repo parent githubToken = Listing items /\
      In item items /\
      isDir item = false /\
      reasonableSize item = Some size /\
      File name p url size d = fileChild item size d.
Proof.
  intros H name p url size d Hn. apply crawl_unfolds in H.
  rewrite nodes_descendants in Hn. destruct Hn as [E | Hn].
  - rewrite E in H. inversion H.
  - destruct (Unfolds_descendants _ _ _ _ _ _ _ _ H _ Hn)
      as (d' & parent & items & _ & _ & Hup & Hch).
    inversion Hch as [item size' Hin Hskip Hdir Hsize Heq
                     | item sub Hin Hskip Hdir Hsub Heq].
    unfold fileChild in Heq. inversion Heq; subst.
    exists parent, items, item. auto.
Qed.

(** A file entry whose size is at or above the ceiling. *)
Definition oversized (item : Item) : bool :=
  negb (isDir item)
  && match item_size item with
     | Some size => 1024 * 1024 <=? size
     | None => false
     end.

Lemma oversized_ignored item : oversized item = true -> ignored item = true.
Proof.
  unfold oversized, ignored. intros H. apply andb_prop in H as [Hdir Hs].
  rewrite Hdir, reasonableSize_refuses; [apply orb_true_r |].
  destruct (item_size item) as [s |]; [| discriminate].
  apply Z.leb_le in Hs. now right.
Qed.

(** C7.  Every file node of a returned tree has a size below 1 MiB, the
    size that the API reported for its entry; and the tree is the one that
    the crawler returns when the API does not list the files of 1 MiB and
    more at all. *)
Theorem file_nodes_below_ceiling env owner repo path githubToken analysisId
    depth maxDepth w tree w' :
  buildFileTreeWithCancellation env owner repo path githubToken analysisId
                                depth maxDepth w
  = Some (Ok tree, w') ->
  (forall name p url size d,
      In (File name p url size d) (nodes tree) ->
      size < 1024 * 1024 /\
      exists parent items item,
        upstream env owner repo parent githubToken = Listing items /\
        In item items /\
        item_name item = name /\ item_path item = p /\
        item_size item = Some size) /\
  buildFileTreeWithCancellation (hide oversized env) owner repo path
                                githubToken analysisId depth maxDepth w
  = Some (Ok tree, w').
Proof.
  intros H. split.
  - intros name p url size d Hn.
    destruct (file_node_origin _ _ _ _ _ _ _ _ _ _ _ H _ _ _ _ _ Hn)
      as (parent & items & item & Hup & Hin & _ & Hsize & Heq).
    apply reasonableSize_some in Hsize as (Hs & _ & Hlt).
    inversion Heq; subst.
    split; [exact Hlt |]. exists parent, items, item. auto.
  - apply crawl_hide; [apply oversized_ignored | exact H].
Qed.

Lemma file_nodes_below_ceiling_witness :
  exists tree w',
    buildFileTreeWithCancellation
      (repository [("", [file "big.bin" "big.bin" 1048576;
                         file "small.txt" "small.txt" 1048575])] quiet)
      "acme" "widgets" "" None (Some "u1-5") 0 1 emptyWorld
    = Some (Ok tree, w') /\
    node_children tree
    = [File "small.txt" "small.txt" (Some "https://raw/small.txt")
            1048575 0] /\
    forall name p url size d,
      In (File name p url size d) (nodes tree) -> size < 1024 * 1024.
Proof.
  eexists. eexists. split; [vm_compute; reflexivity |].
  split; [reflexivity |].
  intros name p url size d Hn.
  refine (proj1 (proj1 (file_nodes_below_ceiling
                          (repository
                             [("", [file "big.bin" "big.bin" 1048576;
                                    file "small.txt" "small.txt" 1048575])]
                             quiet)
                          "acme" "widgets" "" None (Some "u1-5") 0 1
                          emptyWorld _ _ _)
                       name p url size d Hn)).
  vm_compute. reflexivity.
Defined.

(** A file entry whose size is zero or absent. *)
Definition sizeless (item : Item) : bool :=
  negb (isDir item)
  && match item_size item with
     | Some size => size =? 0
     | None => true
     end.

Lemma sizeless_ignored item : sizeless item = true -> ignored item = true.
Proof.
  unfold sizeless, ignored. intros H. apply andb_prop in H as [Hdir Hs].
  rewrite Hdir, reasonableSize_refuses; [apply orb_true_r |].
  destruct (item_size item) as [s |]; [| exact I].
  apply Z.eqb_eq in Hs. now left.
Qed.

(** C10.  The check of line 151 refuses a size that is zero or absent,
    though zero is below the ceiling; so no file node of a returned tree has
    size zero, each has the non-zero size that the API reported for its
    entry, and the tree is the one that the crawler returns when the API
    does not list the files of size zero or without a size at all. *)
Theorem empty_files_are_omitted env owner repo path githubToken analysisId
    depth maxDepth w tree w' :
  buildFileTreeWithCancellation env owner repo path githubToken analysisId
                                depth maxDepth w
  = Some (Ok tree, w') ->
  (forall item,
      sizeless item = true ->
      reasonableSize item = None /\ orElse (item_size item) 0 < 1024 * 1024) /\
  (forall name p url size d,
      In (File name p url size d) (nodes tree) ->
      size <> 0 /\
      exists parent items item,
        upstream env owner repo parent githubToken = Listing items /\
        In item items /\
        item_name item = name /\ item_path item = p /\
        item_size item = Some size) /\
  buildFileTreeWithCancellation (hide sizeless env) owner repo path
                                githubToken analysisId depth maxDepth w
  = Some (Ok tree, w').
Proof.
  intros H. split; [| split].
  - intros item Hs. unfold sizeless in Hs. apply andb_prop in Hs as [_ Hs].
    split.
    + apply reasonableSize_refuses.
      destruct (item_size item) as [s |]; [| exact I].
      apply Z.eqb_eq in Hs. now left.
    + destruct (item_size item) as [s |]; simpl; [| lia].
      apply Z.eqb_eq in Hs. lia.
  - intros name p url size d Hn.
    destruct (file_node_origin _ _ _ _ _ _ _ _ _ _ _ H _ _ _ _ _ Hn)
      as (parent & items & item & Hup & Hin & _ & Hsize & Heq).
    apply reasonableSize_some in Hsize as (Hs & Hnz & _).
    inversion Heq; subst.
    split; [exact Hnz |]. exists parent, items, item. auto.
  - apply crawl_hide; [apply sizeless_ignored | exact H].
Qed.

Lemma empty_files_are_omitted_witness :
  exists tree w',
    buildFileTreeWithCancellation
      (repository [("", [file ".gitkeep" ".gitkeep" 0;
                         mkItem "LICENSE" "file" "LICENSE" None None;
                         file "small.txt" "small.txt" 1])] quiet)
      "acme" "widgets" "" None (Some "u1-5") 0 1 emptyWorld
    = Some (Ok tree, w') /\
    node_children tree
    = [File "small.txt" "small.txt" (Some "https://raw/small.txt") 1 0] /\
    forall name p url size d,
      In (File name p url size d) (nodes tree) -> size <> 0.
Proof.
  eexists. eexists. split; [vm_compute; reflexivity |].
  split; [reflexivity |].
  intros name p url size d Hn.
  refine (proj1 (proj1 (proj2 (empty_files_are_omitted
                                 (repository
                                    [("", [file ".gitkeep" ".gitkeep" 0;
                                           mkItem "LICENSE" "file" "LICENSE"
                                                  None None;
                                           file "small.txt" "small.txt" 1])]
                                    quiet)
                                 "acme" "widgets" "" None (Some "u1-5") 0 1
                                 emptyWorld _ _ _))
                       name p url size d Hn)).
  vm_compute. reflexivity.
Defined.

(** ** Skip patterns *)

(** The paths of the API identify the entries: two entries with the same
    path, in whatever listings, have the same name. *)
Definition PathsNameEntries (env : Env) (owner repo : string)
    (githubToken : option string) : Prop :=
  forall parent1 items1 item1 parent2 items2 item2,
    upstream env owner repo parent1 githubToken = Listing items1 ->
    In item1 items1 ->
    upstream env owner repo parent2 githubToken = Listing items2 ->
    In item2 items2 ->
    item_path item1 = item_path item2 ->
    item_name item1 = item_name item2.

Definition skipped (item : Item) : bool := shouldSkip (item_name item).

Lemma skipped_ignored item : skipped item = true -> ignored item = true.
Proof.
  unfold skipped, ignored. now intros ->.
Qed.

(** C6, amended.  No node below the root has a name that matches a skip
    pattern (the root is named after the repository or the path of the
    call, not after an entry); the tree and the world are the ones that the
    crawler gives when the API does not list the matching entries at all;
    every request of the crawl is for the path of the call or for the path
    of a directory entry that matches no skip pattern; hence, the paths
    identifying the entries, no request is made for the path of a matching
    entry, unless it is the path of the call itself. *)
Theorem skipped_entries_leave_no_trace env owner repo path githubToken
    analysisId depth maxDepth w tree w' :
  buildFileTreeWithCancellation env owner repo path githubToken analysisId
                                depth maxDepth w
  = Some (Ok tree, w') ->
  (forall n, In n (descendants tree) -> shouldSkip (node_name n) = false) /\
  buildFileTreeWithCancellation (hide skipped env) owner repo path
                                githubToken analysisId depth maxDepth w
  = Some (Ok tree, w') /\
  exists paths,
    requested w' = requested w ++ paths /\
    (forall p,
        In p paths -> p = path \/ KeptDir env owner repo githubToken p) /\
    (PathsNameEntries env owner repo githubToken ->
     forall parent items item,
       upstream env owner repo parent githubToken = Listing items ->
       In item items ->
       shouldSkip (item_name item) = true ->
       item_path item <> path ->
       ~ In (item_path item) paths).
Proof.
  intros H. split; [| split].
  - intros n Hn. apply crawl_unfolds in H.
    destruct (Unfolds_descendants _ _ _ _ _ _ _ _ H n Hn)
      as (d & p & items & _ & _ & _ & Hc).
    destruct Hc as [item size _ Hskip _ _ | item sub _ Hskip _ _];
      exact Hskip.
  - apply crawl_hide; [apply skipped_ignored | exact H].
  - apply crawl_grows in H. destruct H as [(paths & Hreq & Hall) _].
    rewrite Forall_forall in Hall.
    exists paths. split; [exact Hreq |]. split; [exact Hall |].
    intros Hnames parent items item Hup Hin Hskip Hpath Hp.
    destruct (Hall _ Hp) as [Heq | Hkept]; [contradiction |].
    destruct Hkept as (parent' & items' & item' & Hup' & Hin' & _ & Hkeep & E).
    rewrite (Hnames _ _ _ _ _ _ Hup' Hin' Hup Hin E) in Hkeep.
    congruence.
Qed.

(** A repository with the directories [node_modules] and [src] and a log
    file. *)
Definition withModules : list (string * list Item) :=
  [ ("", [dir "node_modules" "node_modules"; file "debug.log" "debug.log" 9;
          dir "src" "src"]);
    ("node_modules", [file "index.js" "node_modules/index.js" 5]);
    ("src", [file "main.js" "src/main.js" 200]) ].

Lemma skipped_entries_leave_no_trace_witness :
  exists tree w',
    buildFileTreeWithCancellation (repository withModules quiet) "acme"
                                  "widgets" "" None (Some "u1-5") 0 3
                                  emptyWorld
    = Some (Ok tree, w') /\
    requested w' = [""; "src"] /\
    forall n, In n (descendants tree) -> shouldSkip (node_name n) = false.
Proof.
  eexists. eexists. split; [vm_compute; reflexivity |].
  split; [reflexivity |].
  refine (proj1 (skipped_entries_leave_no_trace
                   (repository withModules quiet) "acme" "widgets" "" None
                   (Some "u1-5") 0 3 emptyWorld _ _ _)).
  vm_compute. reflexivity.
Defined.

(** C6 as stated fails at the root, which is named after the repository:
    in the repository [acme/dist] the entry [dist] matches a skip pattern
    and is left out, and the root of the tree is a node of that name. *)
Lemma root_bears_a_skipped_name :
  exists tree w',
    buildFileTreeWithCancellation
      (repository [("", [dir "dist" "dist"; file "main.js" "main.js" 200])]
                  quiet)
      "acme" "dist" "" None (Some "u1-5") 0 3 emptyWorld
    = Some (Ok tree, w') /\
    shouldSkip (item_name (dir "dist" "dist")) = true /\
    ~ (forall n,
          In n (nodes tree) ->
          node_name n <> item_name (dir "dist" "dist")).
Proof.
  eexists. eexists. split; [vm_compute; reflexivity |].
  split; [reflexivity |].
  intros Hclaim. eapply Hclaim; [left; reflexivity | reflexivity].
Qed.

(** ** Progress of a crawl *)

Lemma updateProgress_stored analysisId id path depth maxDepth w :
  truthyId analysisId = Some id ->
  1 <= depth ->
  exists analysis,
    JsMap.get id
      (activeAnalyses (updateProgress analysisId path depth maxDepth w))
    = Some analysis /\
    progress analysis = Some (progressPercent depth maxDepth) /\
    currentDepth analysis = Some depth /\
    currentPath analysis = Some path.
Proof.
  intros Hid Hd. unfold updateProgress. rewrite Hid.
  assert (E : (0 <? depth) = true) by (apply Z.ltb_lt; lia).
  rewrite E. simpl. rewrite JsMap.get_set_same. eauto.
Qed.

(** Two directories, the first with a directory of its own. *)
Definition branching : list (string * list Item) :=
  [ ("", [dir "a" "a"; dir "c" "c"]);
    ("a", [dir "b" "a/b"]);
    ("a/b", []);
    ("c", []) ].

(** C4, amended.  The percentages that a crawl stores are not ordered in
    time; they are ordered by depth: each lies between 0 and 100, and of
    two stored sessions the one with the greater depth has the greater or
    the same percentage. *)
Theorem progress_follows_depth env owner repo path githubToken analysisId
    depth maxDepth w r w' :
  0 <= maxDepth ->
  buildFileTreeWithCancellation env owner repo path githubToken analysisId
                                depth maxDepth w
  = Some (r, w') ->
  exists stores,
    written w' = written w ++ stores /\
    (forall id analysis,
        In (id, analysis) stores ->
        exists d p,
          currentDepth analysis = Some d /\
          progress analysis = Some p /\
          0 <= p <= 100) /\
    (forall id1 analysis1 id2 analysis2 d1 d2 p1 p2,
        In (id1, analysis1) stores ->
        In (id2, analysis2) stores ->
        currentDepth analysis1 = Some d1 ->
        currentDepth analysis2 = Some d2 ->
        progress analysis1 = Some p1 ->
        progress analysis2 = Some p2 ->
        d1 <= d2 -> p1 <= p2).
Proof.
  intros Hm H.
  apply crawl_grows in H. destruct H as [_ (stores & Hw & Hall)].
  rewrite Forall_forall in Hall.
  exists stores. split; [exact Hw |]. split.
  - intros id analysis Hin.
    destruct (Hall _ Hin) as (_ & d & Hd & Hcur & Hp). simpl in *.
    exists d, (progressPercent d maxDepth).
    repeat split; auto; apply progressPercent_range; lia.
  - intros id1 a1 id2 a2 d1 d2 p1 p2 Hin1 Hin2 Hd1 Hd2 Hp1 Hp2 Hle.
    destruct (Hall _ Hin1) as (_ & e1 & _ & Hc1 & Hq1).
    destruct (Hall _ Hin2) as (_ & e2 & _ & Hc2 & Hq2).
    simpl in *.
    assert (e1 = d1) by congruence. assert (e2 = d2) by congruence.
    subst e1 e2.
    assert (p1 = progressPercent d1 maxDepth) by congruence.
    assert (p2 = progressPercent d2 maxDepth) by congruence.
    subst p1 p2. now apply progressPercent_mono.
Qed.

Lemma progress_follows_depth_witness :
  exists r w',
    buildFileTreeWithCancellation (repository branching quiet) "acme"
                                  "widgets" "" None (Some "u1-5") 0 10
                                  emptyWorld
    = Some (r, w') /\
    exists stores,
      written w' = written emptyWorld ++ stores /\
      (forall id analysis,
          In (id, analysis) stores ->
          exists d p,
            currentDepth analysis = Some d /\
            progress analysis = Some p /\
            0 <= p <= 100) /\
      (forall id1 analysis1 id2 analysis2 d1 d2 p1 p2,
          In (id1, analysis1) stores ->
          In (id2, analysis2) stores ->
          currentDepth analysis1 = Some d1 ->
          currentDepth analysis2 = Some d2 ->
          progress analysis1 = Some p1 ->
          progress analysis2 = Some p2 ->
          d1 <= d2 -> p1 <= p2).
Proof.
  eexists. eexists. split; [vm_compute; reflexivity |].
  refine (progress_follows_depth
            (repository branching quiet) "acme" "widgets" "" None
            (Some "u1-5") 0 10 emptyWorld _ _ _ _).
  - lia.
  - vm_compute. reflexivity.
Defined.

(** [l] never goes down. *)
Fixpoint nondecreasing (l : list Z) : bool :=
  match l with
  | [] => true
  | a :: rest =>
      match rest with
      | [] => true
      | b :: _ => (a <=? b) && nondecreasing rest
      end
  end.

(** The percentages that a crawl stored, in the order of time. *)
Definition percentages (w : World) : list Z :=
  List.map (fun store => orElse (progress (snd store)) 0) (written w).

(** The percentages reported to the progress requests served so far. *)
Definition reported (w : World) : list Z :=
  flat_map (fun res => match body res with
                       | Active p _ _ _ => [p]
                       | _ => []
                       end) (replied w).

(** C4 as stated fails: with [maxDepth = 10] the crawl of [branching] stores
    10 for [a], 20 for [a/b] and 10 again for [c]; a progress request
    during the listing of [a/b] and one during the listing of [c] get 20
    and then 10. *)
Lemma progress_goes_down :
  exists res w',
    analyzeRoute
      (repository branching
         (fun n => if Nat.leb 2 n then [ProgressRequest "u1"] else []))
      None 5 "u1"
      (mkAnalyzeBody (Some (Text "https://github.com/acme/widgets")) (Some 10))
      emptyWorld
    = Some (res, w') /\
    percentages w' = [10; 20; 10] /\
    nondecreasing (percentages w') = false /\
    reported w' = [20; 10] /\
    nondecreasing (reported w') = false.
Proof.
  eexists. eexists. split; [vm_compute; reflexivity |].
  repeat split.
Qed.

Lemma updateProgress_requested analysisId path depth maxDepth w :
  requested (updateProgress analysisId path depth maxDepth w) = requested w.
Proof.
  unfold updateProgress.
  destruct (truthyId analysisId); [| reflexivity].
  destruct (0 <? depth); reflexivity.
Qed.

(** ** The session table during a crawl *)

Section Preserved.

Variable env : Env.
Variables owner repo : string.
Variables githubToken analysisId : option string.
Variable maxDepth : Z.

(** A relation between worlds that holds across every step of a crawl holds
    across the crawl. *)
Variable Rel : World -> World -> Prop.
Hypothesis Rel_refl : forall w, Rel w w.
Hypothesis Rel_trans : forall w1 w2 w3, Rel w1 w2 -> Rel w2 w3 -> Rel w1 w3.
Hypothesis Rel_update :
  forall path depth w,
    Rel w (updateProgress analysisId path depth maxDepth w).
Hypothesis Rel_get :
  forall path w reply w',
    axios_get env owner repo path githubToken w = (reply, w') -> Rel w w'.

Lemma forItems_preserves recurse depth items :
  (forall p w r w', recurse p w = Some (r, w') -> Rel w w') ->
  forall children w r w',
    forItems recurse analysisId depth items children w = Some (r, w') ->
    Rel w w'.
Proof.
  intros Hrec.
  induction items as [| item rest IH]; intros children w r w' H;
    simpl in H.
  - inversion H; subst. apply Rel_refl.
  - destruct (isCancelled analysisId w).
    { inversion H; subst. apply Rel_refl. }
    destruct (shouldSkip (item_name item)); [eauto |].
    destruct (isDir item).
    + destruct (recurse (item_path item) w) as [[[sub | m] w1] |] eqn:E;
        [| | discriminate].
      * eapply Rel_trans; [eapply Hrec; exact E | eapply IH; exact H].
      * inversion H; subst. eapply Hrec; exact E.
    + destruct (reasonableSize item); eauto.
Qed.

Lemma crawl_preserves fuel :
  forall path depth w r w',
    crawl fuel env owner repo path githubToken analysisId depth maxDepth w
    = Some (r, w') ->
    Rel w w'.
Proof.
  induction fuel as [| fuel IH]; intros path depth w r w' H;
    [discriminate |].
  rewrite crawl_step in H. apply rethrow_world in H as [o H].
  destruct (isCancelled analysisId w).
  { inversion H; subst. apply Rel_refl. }
  cbv zeta in H.
  eapply Rel_trans; [apply Rel_update |].
  destruct (maxDepth <? depth).
  { inversion H; subst. apply Rel_refl. }
  destruct (axios_get _ _ _ _ _ _) as [reply w2] eqn:Hget.
  eapply Rel_trans; [eapply Rel_get; exact Hget |].
  destruct reply as [items | m].
  2:{ inversion H; subst. apply Rel_refl. }
  destruct (forItems _ _ _ _ _ _) as [[o3 w3] |] eqn:Hloop;
    [| discriminate].
  assert (w3 = w') by (destruct o3; inversion H; reflexivity). subst w3.
  eapply forItems_preserves; [| exact Hloop].
  intros p w0 r0 w0' Hrec. eapply IH. exact Hrec.
Qed.

End Preserved.

Lemma cancelSessions_get userId id m :
  JsMap.get id (cancelSessions userId m)
  = option_map (fun analysis =>
                  if String.prefix userId id then markCancelled analysis
                  else analysis)
               (JsMap.get id m).
Proof.
  induction m as [| [k a] m IH]; simpl; [reflexivity |].
  destruct (String.prefix userId k) eqn:Hp; simpl;
    destruct (String.eqb k id) eqn:E; auto;
    apply String.eqb_eq in E; subst k; now rewrite Hp.
Qed.

Lemma get_delete_other {V} (k k' : string) (m : JsMap.t V) :
  k <> k' -> JsMap.get k' (JsMap.delete k m) = JsMap.get k' m.
Proof.
  intros Hk. induction m as [| [k0 v0] m IH]; simpl; [reflexivity |].
  destruct (String.eqb k0 k) eqn:E; simpl.
  - apply String.eqb_eq in E. subst k0.
    destruct (String.eqb k k') eqn:E'; [| exact IH].
    apply String.eqb_eq in E'. contradiction.
  - now rewrite IH.
Qed.

(** What a step served at a suspension point makes of the session under
    the key [id], if there is one: every step works key by key. *)
Definition effect (rq : Incoming) (id : string) (session : option Session)
  : option Session :=
  match rq with
  | CancelRequest userId =>
      option_map (fun analysis =>
                    if String.prefix userId id then markCancelled analysis
                    else analysis) session
  | ProgressRequest _ => session
  | OtherAnalysis analysisId step =>
      if String.eqb analysisId id then
        match step with
        | Registers => Some (mkSession false (Some 0) None None)
        | Advances path depth maxDepth =>
            if negb (String.eqb analysisId "") && (0 <? depth) then
              Some (mkSession
                      (match session with
                       | Some analysis => cancelled analysis
                       | None => false
                       end)
                      (Some (progressPercent depth maxDepth))
                      (Some depth) (Some path))
            else session
        | Leaves => None
        | Saves _ => session
        end
      else session
  end.

Lemma handle_get rq id w :
  JsMap.get id (activeAnalyses (handle rq w))
  = effect rq id (JsMap.get id (activeAnalyses w)).
Proof.
  destruct rq as [u | u | k step]; simpl.
  - apply cancelSessions_get.
  - unfold progressRoute.
    destruct (firstSession u (activeAnalyses w)); reflexivity.
  - destruct (String.eqb k id) eqn:E.
    + apply String.eqb_eq in E. subst k.
      destruct step as [| path depth maxDepth | | r]; simpl.
      * apply JsMap.get_set_same.
      * unfold updateProgress. simpl truthyId.
        destruct (String.eqb id ""); simpl; [reflexivity |].
        destruct (0 <? depth); simpl;
          [apply JsMap.get_set_same | reflexivity].
      * apply JsMap.get_delete_same.
      * reflexivity.
    + apply String.eqb_neq in E.
      destruct step as [| path depth maxDepth | | r]; simpl.
      * now apply JsMap.get_set_other.
      * unfold updateProgress. simpl truthyId.
        destruct (String.eqb k ""); simpl; [reflexivity |].
        destruct (0 <? depth); simpl;
          [now apply JsMap.get_set_other | reflexivity].
      * now apply get_delete_other.
      * reflexivity.
Qed.

(** What a step served at a suspension point saves. *)
Definition savedBy (rq : Incoming) : list Stored :=
  match rq with
  | OtherAnalysis _ (Saves repository) => [repository]
  | _ => []
  end.

Lemma handle_repositories rq w :
  repositories (handle rq w) = repositories w ++ savedBy rq.
Proof.
  destruct rq as [u | u | k step]; simpl.
  - now rewrite app_nil_r.
  - unfold progressRoute.
    destruct (firstSession u (activeAnalyses w)); simpl;
      now rewrite app_nil_r.
  - destruct step; simpl; try now rewrite app_nil_r. reflexivity.
Qed.

Lemma handleAll_app rqs1 rqs2 w :
  handleAll (rqs1 ++ rqs2) w = handleAll rqs2 (handleAll rqs1 w).
Proof. unfold handleAll. apply fold_left_app. Qed.

Lemma handleAll_repositories rqs w :
  repositories (handleAll rqs w) = repositories w ++ flat_map savedBy rqs.
Proof.
  unfold handleAll. revert w.
  induction rqs as [| rq rqs IH]; intros w; simpl;
    [now rewrite app_nil_r |].
  now rewrite IH, handle_repositories, <- app_assoc.
Qed.

(** [Kept id w w']: if the session [id] is in the table of [w], it is in
    the table of [w'], and cancelled there if it was cancelled in [w]. *)
Definition Kept (id : string) (w w' : World) : Prop :=
  forall analysis,
    JsMap.get id (activeAnalyses w) = Some analysis ->
    exists analysis',
      JsMap.get id (activeAnalyses w') = Some analysis' /\
      (cancelled analysis = true -> cancelled analysis' = true).

Lemma Kept_refl id w : Kept id w w.
Proof. intros a H. eauto. Qed.

Lemma Kept_trans id w1 w2 w3 :
  Kept id w1 w2 -> Kept id w2 w3 -> Kept id w1 w3.
Proof.
  intros H12 H23 a H.
  destruct (H12 _ H) as (a2 & H2 & Hc2).
  destruct (H23 _ H2) as (a3 & H3 & Hc3).
  eauto.
Qed.

(** The analyses run apart: no other analysis among [rqs] has the session
    key [id]. *)
Definition Apart (id : string) (rqs : list Incoming) : Prop :=
  forall step, ~ In (OtherAnalysis id step) rqs.

Lemma handle_kept id rq w :
  (forall step, rq <> OtherAnalysis id step) -> Kept id w (handle rq w).
Proof.
  intros Hrq a Hget. rewrite handle_get, Hget.
  destruct rq as [u | u | k step]; simpl.
  - destruct (String.prefix u id); eexists; split; eauto.
  - eauto.
  - destruct (String.eqb k id) eqn:E; [| eauto].
    apply String.eqb_eq in E. subst k. exfalso. exact (Hrq step eq_refl).
Qed.

Lemma handleAll_kept id rqs w : Apart id rqs -> Kept id w (handleAll rqs w).
Proof.
  unfold handleAll. revert w.
  induction rqs as [| rq rqs IH]; intros w Hap; simpl; [apply Kept_refl |].
  eapply Kept_trans; [apply handle_kept | apply IH].
  - intros step ->. apply (Hap step). now left.
  - intros step Hin. apply (Hap step). now right.
Qed.

Lemma updateProgress_kept analysisId id path depth maxDepth w :
  Kept id w (updateProgress analysisId path depth maxDepth w).
Proof.
  unfold updateProgress.
  destruct (truthyId analysisId) as [own |]; [| apply Kept_refl].
  destruct (0 <? depth); [| apply Kept_refl].
  intros a Hget. simpl.
  destruct (String.eqb own id) eqn:E.
  - apply String.eqb_eq in E. subst own.
    rewrite JsMap.get_set_same, Hget. eauto.
  - apply String.eqb_neq in E.
    rewrite JsMap.get_set_other by exact E. eauto.
Qed.

(** Nothing in a crawl removes a session or clears its [cancelled] field,
    unless another analysis uses the same key. *)
Lemma crawl_kept env owner repo path githubToken analysisId depth maxDepth
    fuel id w r w' :
  (forall n, Apart id (arrivals env n)) ->
  crawl fuel env owner repo path githubToken analysisId depth maxDepth w
  = Some (r, w') ->
  Kept id w w'.
Proof.
  intros Hap H.
  refine (crawl_preserves env owner repo githubToken analysisId maxDepth
                          (Kept id) _ _ _ _ _ _ _ _ _ _ H).
  - apply Kept_refl.
  - apply Kept_trans.
  - intros p d w0. apply updateProgress_kept.
  - intros p w0 reply w0' Hget. unfold axios_get in Hget.
    inversion Hget; subst.
    eapply Kept_trans; [| apply handleAll_kept, Hap].
    intros a Ha. eauto.
Qed.

(** ** A crawl and what happens beside it *)

(** What arrived during the fetches number [from], ..., [upto - 1]. *)
Definition arrived (env : Env) (from upto : nat) : list Incoming :=
  flat_map (arrivals env) (seq from (upto - from)).

(** The state that these arrivals make of [w] when nothing else happens. *)
Definition served (env : Env) (from upto : nat) (w : World) : World :=
  handleAll (arrived env from upto) w.

(** What the other analyses saved meanwhile. *)
Definition savedElsewhere (env : Env) (from upto : nat) : list Stored :=
  flat_map savedBy (arrived env from upto).

Lemma arrived_none env n : arrived env n n = [].
Proof. unfold arrived. now rewrite Nat.sub_diag. Qed.

Lemma arrived_one env n : arrived env n (S n) = arrivals env n.
Proof.
  unfold arrived. replace (S n - n)%nat with 1%nat by lia.
  simpl. apply app_nil_r.
Qed.

Lemma arrived_app env n1 n2 n3 :
  (n1 <= n2)%nat -> (n2 <= n3)%nat ->
  arrived env n1 n3 = arrived env n1 n2 ++ arrived env n2 n3.
Proof.
  intros H12 H23. unfold arrived.
  replace (n3 - n1)%nat with ((n2 - n1) + (n3 - n2))%nat by lia.
  rewrite seq_app, flat_map_app.
  replace (n1 + (n2 - n1))%nat with n2 by lia. reflexivity.
Qed.

Lemma served_repositories env from upto w :
  repositories (served env from upto w)
  = repositories w ++ savedElsewhere env from upto.
Proof. apply handleAll_repositories. Qed.

(** [Upheld before after]: a session that is there [before] is there
    [after], and cancelled if it was. *)
Definition Upheld (before after : option Session) : Prop :=
  forall analysis,
    before = Some analysis ->
    exists analysis',
      after = Some analysis' /\
      (cancelled analysis = true -> cancelled analysis' = true).

Lemma effect_upheld rq id before after :
  Upheld before after -> Upheld (effect rq id before) (effect rq id after).
Proof.
  intros H. destruct rq as [u | u | k step]; simpl; [| exact H |].
  - intros a Ha. destruct before as [b |]; [| discriminate].
    destruct (H b eq_refl) as (b' & -> & Hc). simpl in *.
    inversion Ha; subst a.
    destruct (String.prefix u id); eexists; split; eauto.
  - destruct (String.eqb k id); [| exact H].
    destruct step as [| path depth maxDepth | | r]; [| | | exact H].
    + intros a Ha. eauto.
    + destruct (negb (String.eqb k "") && (0 <? depth)); [| exact H].
      intros a Ha. inversion Ha; subst a. simpl.
      eexists. split; [reflexivity |]. simpl.
      destruct before as [b |]; [| discriminate].
      destruct (H b eq_refl) as (b' & -> & Hc). exact Hc.
    + intros a Ha. discriminate.
Qed.

(** [Follows own alone w]: [w] is a state of the crawl of the session
    [own], and [alone] what the state would be had the crawl done nothing:
    the same repositories are saved, the other sessions are the same, and
    every session of [alone] is in [w], cancelled if it is in [alone]. *)
Definition Follows (own : option string) (alone w : World) : Prop :=
  repositories w = repositories alone /\
  (forall id,
      truthyId own <> Some id ->
      JsMap.get id (activeAnalyses w) = JsMap.get id (activeAnalyses alone)) /\
  (forall id,
      Upheld (JsMap.get id (activeAnalyses alone))
             (JsMap.get id (activeAnalyses w))).

Lemma Follows_refl own w : Follows own w w.
Proof.
  split; [reflexivity |]. split; [reflexivity |].
  intros id a Ha. eauto.
Qed.

Lemma handle_follows own rq alone w :
  Follows own alone w -> Follows own (handle rq alone) (handle rq w).
Proof.
  intros (Hrepo & Hother & Hup). split; [| split].
  - now rewrite !handle_repositories, Hrepo.
  - intros id Hid. now rewrite !handle_get, (Hother id Hid).
  - intros id. rewrite !handle_get. apply effect_upheld, Hup.
Qed.

Lemma handleAll_follows own rqs alone w :
  Follows own alone w -> Follows own (handleAll rqs alone) (handleAll rqs w).
Proof.
  unfold handleAll. revert alone w.
  induction rqs as [| rq rqs IH]; intros alone w H; simpl; [exact H |].
  apply IH, handle_follows, H.
Qed.

Lemma updateProgress_follows own path depth maxDepth alone w :
  Follows own alone w ->
  Follows own alone (updateProgress own path depth maxDepth w).
Proof.
  intros H. pose proof H as (Hrepo & Hother & Hup). unfold updateProgress.
  destruct (truthyId own) as [id |] eqn:Hid; [| exact H].
  destruct (0 <? depth); [| exact H].
  split; [exact Hrepo |]. split; simpl.
  - intros k Hk. rewrite JsMap.get_set_other by congruence. apply Hother.
    congruence.
  - intros k a Ha. destruct (String.eqb id k) eqn:E.
    + apply String.eqb_eq in E. subst k. rewrite JsMap.get_set_same.
      destruct (Hup id a Ha) as (a' & -> & Hc). eauto.
    + apply String.eqb_neq in E. rewrite JsMap.get_set_other by exact E.
      exact (Hup k a Ha).
Qed.

(** A crawl leaves alone what happens beside it: whatever state [alone] it
    followed at the start, it follows at the end the state that the
    arrivals of its fetches make of [alone]. *)
Lemma crawl_follows env owner repo path githubToken analysisId depth
    maxDepth fuel w r w' :
  crawl fuel env owner repo path githubToken analysisId depth maxDepth w
  = Some (r, w') ->
  (List.length (requested w) <= List.length (requested w'))%nat /\
  forall alone,
    Follows analysisId alone w ->
    Follows analysisId
            (served env (List.length (requested w))
                    (List.length (requested w')) alone) w'.
Proof.
  intros H.
  refine (crawl_preserves env owner repo githubToken analysisId maxDepth
            (fun w w' =>
               (List.length (requested w) <= List.length (requested w'))%nat /\
               forall alone,
                 Follows analysisId alone w ->
                 Follows analysisId
                         (served env (List.length (requested w))
                                 (List.length (requested w')) alone) w')
            _ _ _ _ _ _ _ _ _ _ H).
  - intros w0. split; [lia |]. intros alone Ha.
    unfold served. now rewrite arrived_none.
  - intros w1 w2 w3 [L12 H12] [L23 H23]. split; [lia |].
    intros alone Ha. unfold served in *.
    rewrite (arrived_app env _ _ _ L12 L23), handleAll_app. auto.
  - intros p d w0. rewrite updateProgress_requested. split; [lia |].
    intros alone Ha. unfold served. rewrite arrived_none.
    now apply updateProgress_follows.
  - intros p w0 reply w0' Hget. unfold axios_get in Hget.
    inversion Hget as [[Hreply Hw]]. clear Hget.
    match goal with
    | |- context [handleAll ?r ?w1] =>
        destruct (handleAll_histories r w1) as (Hr & _)
    end.
    rewrite Hr. simpl. rewrite length_app. simpl.
    replace (List.length (requested w0) + 1)%nat
      with (S (List.length (requested w0))) by lia.
    split; [lia |]. intros alone Ha. unfold served.
    rewrite arrived_one. apply handleAll_follows.
    destruct Ha as (Hrepo & Hother & Hup). repeat split; assumption.
Qed.

(** A call that finds its session cancelled throws at once. *)
Lemma crawl_cancelled env owner repo githubToken analysisId maxDepth fuel
    path depth w :
  isCancelled analysisId w = true ->
  crawl (S fuel) env owner repo path githubToken analysisId depth maxDepth w
  = Some (Throw "GitHub API error: Analysis cancelled by user", w).
Proof.
  intros Hc. rewrite crawl_step, Hc. reflexivity.
Qed.

Lemma rethrow_throw {A} (r : Run A) (message : string) (w : World) :
  rethrow r = Some (Throw message, w) ->
  exists inner,
    r = Some (Throw inner, w) /\
    message = ("GitHub API error: " ++ inner)%string.
Proof.
  destruct r as [[[a | m] w0] |]; simpl; intros H; inversion H; subst; eauto.
Qed.

(** ** The [/analyze] route *)

(** What is saved during a crawl is what the other analyses save. *)
Lemma crawl_saves env owner repo path githubToken analysisId depth maxDepth
    fuel w r w' :
  crawl fuel env owner repo path githubToken analysisId depth maxDepth w
  = Some (r, w') ->
  repositories w'
  = repositories w
    ++ savedElsewhere env (List.length (requested w))
                      (List.length (requested w')).
Proof.
  intros H. apply crawl_follows in H as [_ H].
  destruct (H w (Follows_refl _ _)) as (Hrepo & _).
  now rewrite Hrepo, served_repositories.
Qed.

(** The route answers. *)
Lemma analyzeRoute_total env githubToken now userId rq w :
  analyzeRoute env githubToken now userId rq w <> None.
Proof.
  unfold analyzeRoute.
  destruct (repoUrl rq) as [[[| c url] | [|]] |]; try discriminate.
  destruct (parseGitHubUrl (String c url)) as [[owner repo] |];
    [| discriminate].
  match goal with
  | |- context [buildFileTreeWithCancellation ?e ?o ?r ?p ?t ?a ?d ?m ?w0] =>
      pose proof (crawl_total e o r t a m (levels d m) p d w0) as Htot;
      unfold buildFileTreeWithCancellation;
      destruct (crawl (levels d m) e o r p t a d m w0)
        as [[[tree | error] w2] |]
  end.
  - destruct (match JsMap.get _ _ with Some _ => _ | None => _ end);
      [discriminate |].
    destruct (Repository_create _ _ _ _ _) as [[saved | error] w4];
      discriminate.
  - discriminate.
  - exfalso. apply Htot; [unfold levels; lia | reflexivity].
Qed.

Lemma savedElsewhere_next env from n :
  (from <= n)%nat ->
  savedElsewhere env from (S n)
  = savedElsewhere env from n ++ flat_map savedBy (arrivals env n).
Proof.
  intros Hle. unfold savedElsewhere.
  rewrite (arrived_app env from n (S n)) by lia.
  now rewrite flat_map_app, arrived_one.
Qed.

(** What is served brings no session under a key that no other analysis
    uses. *)
Lemma handleAll_absent id rqs w :
  Apart id rqs ->
  JsMap.get id (activeAnalyses w) = None ->
  JsMap.get id (activeAnalyses (handleAll rqs w)) = None.
Proof.
  unfold handleAll. revert w.
  induction rqs as [| rq rqs IH]; intros w Hap Hnone; simpl; [exact Hnone |].
  apply IH; [intros step Hin; apply (Hap step); now right |].
  rewrite handle_get, Hnone.
  destruct rq as [u | u | k step]; simpl; try reflexivity.
  destruct (String.eqb k id) eqn:E; [| reflexivity].
  apply String.eqb_eq in E. subst k. exfalso. apply (Hap step). now left.
Qed.

(** The state after [Repository.create], whether it saved or threw. *)
Lemma Repository_create_after env userId url data w saved w' :
  Repository_create env userId url data w = (saved, w') ->
  requested w' = requested w /\
  written w' = written w /\
  (forall id,
      Apart id (arrivals env (List.length (requested w))) ->
      JsMap.get id (activeAnalyses w) = None ->
      JsMap.get id (activeAnalyses w') = None) /\
  repositories w'
  = repositories w
    ++ flat_map savedBy (arrivals env (List.length (requested w)))
    ++ match saved with
       | Ok repository => [repository]
       | Throw _ => []
       end.
Proof.
  unfold Repository_create.
  destruct (handleAll_histories (arrivals env (List.length (requested w))) w)
    as (Hr & Hw).
  pose proof (handleAll_repositories
                (arrivals env (List.length (requested w))) w) as Hrepo.
  destruct (createFails env _) as [error |]; intros H; inversion H; subst;
    simpl; rewrite ?Hr, ?Hw, ?Hrepo, ?app_nil_r, <- ?app_assoc;
    repeat split; auto; intros id Hap Hnone;
    now apply handleAll_absent.
Qed.

(** What the route answers, and what it leaves behind.  The answer 499 of
    line 206 is not among the cases: the test of line 205 reads the entry
    that line 202 has just deleted.  The answer 500 has three origins: an
    address that is no string, which stops the route before anything is
    registered; a failure of the crawl, which leaves the session of the
    analysis in the table; and a failure to save the tree, after the
    session has been removed. *)
Lemma analyzeRoute_answers env githubToken now userId rq w res w' :
  analyzeRoute env githubToken now userId rq w = Some (res, w') ->
  (status res = 400 /\ w' = w) \/
  (status res = 500 /\ repoUrl rq = Some (Other true) /\ w' = w) \/
  (status res = 500 /\
   (exists inner,
       body res = Failure "Failed to analyze repository"
                          ("GitHub API error: " ++ inner)) /\
   repositories w'
   = repositories w
     ++ savedElsewhere env (List.length (requested w))
                       (List.length (requested w')) /\
   ((forall n, Apart (analysisIdOf userId now) (arrivals env n)) ->
    exists analysis,
      JsMap.get (analysisIdOf userId now) (activeAnalyses w')
      = Some analysis)) \/
  (status res = 500 /\
   (Apart (analysisIdOf userId now)
          (arrivals env (List.length (requested w'))) ->
    JsMap.get (analysisIdOf userId now) (activeAnalyses w') = None) /\
   repositories w'
   = repositories w
     ++ savedElsewhere env (List.length (requested w))
                       (S (List.length (requested w'))) /\
   exists url fileTree error,
     repoUrl rq = Some (Text url) /\
     createFails env (mkStored userId url fileTree) = Some error /\
     body res = Failure "Failed to analyze repository" error) \/
  (status res = 200 /\
   (Apart (analysisIdOf userId now)
          (arrivals env (List.length (requested w'))) ->
    JsMap.get (analysisIdOf userId now) (activeAnalyses w') = None) /\
   exists url owner repo fileTree,
     repoUrl rq = Some (Text url) /\
     createFails env (mkStored userId url fileTree) = None /\
     body res = Analyzed "Repository analyzed successfully" owner repo
                         fileTree (clampDepth (maxDepth rq)) /\
     repositories w'
     = repositories w
       ++ savedElsewhere env (List.length (requested w))
                         (S (List.length (requested w')))
       ++ [mkStored userId url fileTree]).
Proof.
  unfold analyzeRoute.
  destruct (repoUrl rq) as [[[| c url] | [|]] |];
    try (intros H; inversion H; subst; left; split; reflexivity).
  2:{ intros H. inversion H; subst. right. left. auto. }
  destruct (parseGitHubUrl (String c url)) as [[owner repo] |];
    [| intros H; inversion H; subst; left; split; reflexivity].
  unfold buildFileTreeWithCancellation.
  match goal with
  | |- context [crawl ?f ?e ?o ?r ?p ?t ?a ?d ?m ?w0] =>
      destruct (crawl f e o r p t a d m w0) as [[[tree | error] w2] |] eqn:E
  end; [| | discriminate].
  - pose proof (crawl_saves _ _ _ _ _ _ _ _ _ _ _ _ E) as Hrepo.
    pose proof (proj1 (crawl_follows _ _ _ _ _ _ _ _ _ _ _ _ E)) as Hlen.
    simpl in Hrepo, Hlen.
    simpl activeAnalyses. rewrite JsMap.get_delete_same.
    destruct (Repository_create env userId (String c url) tree
                (unregister (analysisIdOf userId now) w2))
      as [saved w4] eqn:Hcreate.
    pose proof Hcreate as Hafter.
    apply Repository_create_after in Hafter
      as (Hr4 & _ & Hgone & Hrepo4).
    simpl in Hr4, Hgone, Hrepo4.
    assert (Hsaved :
      repositories w4
      = repositories w
        ++ savedElsewhere env (List.length (requested w))
                          (S (List.length (requested w4)))
        ++ match saved with
           | Ok repository => [repository]
           | Throw _ => []
           end).
    { rewrite Hrepo4, Hrepo, Hr4, savedElsewhere_next by exact Hlen.
      now rewrite <- !app_assoc. }
    assert (Hnone :
      Apart (analysisIdOf userId now)
            (arrivals env (List.length (requested w4))) ->
      JsMap.get (analysisIdOf userId now) (activeAnalyses w4) = None).
    { rewrite Hr4. intros Hap. apply Hgone; [exact Hap |].
      apply JsMap.get_delete_same. }
    unfold Repository_create in Hcreate.
    destruct (createFails env _) as [error |] eqn:Hfail;
      inversion Hcreate; subst saved;
      intros H; inversion H; subst; clear H; right; right; right; simpl.
    + left. split; [reflexivity |]. split; [exact Hnone |].
      split; [now rewrite Hsaved, app_nil_r |].
      exists (String c url), tree, error. auto.
    + right. split; [reflexivity |]. split; [exact Hnone |].
      exists (String c url), owner, repo, tree.
      split; [reflexivity |]. split; [exact Hfail |].
      split; [reflexivity | exact Hsaved].
  - intros H. inversion H; subst. clear H. right. right. left. simpl.
    split; [reflexivity |].
    pose proof (crawl_saves _ _ _ _ _ _ _ _ _ _ _ _ E) as Hrepo.
    simpl in Hrepo.
    split; [| split; [exact Hrepo |]].
    + pose proof E as E'. unfold levels in E'. rewrite crawl_step in E'.
      apply rethrow_throw in E' as (inner & _ & ->).
      exists inner. reflexivity.
    + intros Hap.
      destruct (crawl_kept _ _ _ _ _ _ _ _ _ _ _ _ _ Hap E
                           (mkSession false (Some 0) None None))
        as (analysis & Hget & _).
      * simpl. apply JsMap.get_set_same.
      * eauto.
Qed.

(** C1 fails.  The user cancels while the root of the repository is being
    listed: the crawler throws at the first entry, and the route answers
    through the [catch] of line 218 with the status 500 and the message of
    any failure, not with the status 499 of line 206.  Nothing is saved. *)
Theorem cancelled_analysis_answers_failure :
  exists w',
    analyzeRoute (repository widgets (during 0 [CancelRequest "u1"]))
                 None 5 "u1"
                 (mkAnalyzeBody (Some (Text "https://github.com/acme/widgets"))
                                (Some 1))
                 emptyWorld
    = Some (mkResponse 500
              (Failure "Failed to analyze repository"
                       "GitHub API error: Analysis cancelled by user"),
            w') /\
    repositories w' = [].
Proof.
  eexists. split; [vm_compute; reflexivity | reflexivity].
Qed.

(** C5 fails.  When the API refuses the listing of the root, and when the
    user cancels during it, the route answers 500 and the session
    [u1-5] that it created stays in the table. *)
Theorem failed_analysis_leaves_session :
  (exists res w',
      analyzeRoute (repository [] quiet) None 5 "u1"
                   (mkAnalyzeBody
                      (Some (Text "https://github.com/acme/widgets"))
                      (Some 1))
                   emptyWorld
      = Some (res, w') /\
      status res = 500 /\
      activeAnalyses w' = [("u1-5", mkSession false (Some 0) None None)]) /\
  (exists res w',
      analyzeRoute (repository widgets (during 0 [CancelRequest "u1"]))
                   None 5 "u1"
                   (mkAnalyzeBody
                      (Some (Text "https://github.com/acme/widgets"))
                      (Some 1))
                   emptyWorld
      = Some (res, w') /\
      status res = 500 /\
      activeAnalyses w' = [("u1-5", mkSession true (Some 0) None None)]).
Proof.
  split; eexists; eexists; (split; [vm_compute; reflexivity |]);
    split; reflexivity.
Qed.

(** ** The [/analyze/cancel] route *)

Lemma prefix_append (s t : string) : String.prefix s (s ++ t) = true.
Proof.
  induction s as [| c s IH]; simpl.
  - now destruct t.
  - destruct (ascii_dec c c) as [_ | Hc]; [exact IH | contradiction].
Qed.

(** The sessions of the user who cancels are marked, and so is any other
    session whose key begins with the characters of the user's id; the
    rest of the table is as it was. *)
Lemma cancelRoute_sessions userId w :
  (forall now,
      String.prefix userId (analysisIdOf userId now) = true) /\
  (forall id,
      JsMap.get id (activeAnalyses (snd (cancelRoute userId w)))
      = option_map (fun analysis =>
                      if String.prefix userId id then markCancelled analysis
                      else analysis)
                   (JsMap.get id (activeAnalyses w))) /\
  List.map fst (activeAnalyses (snd (cancelRoute userId w)))
  = List.map fst (activeAnalyses w).
Proof.
  split; [| split].
  - intros now. apply prefix_append.
  - intros id. apply cancelSessions_get.
  - simpl. unfold cancelSessions. rewrite List.map_map.
    apply List.map_ext. intros [id a].
    destruct (String.prefix userId id); reflexivity.
Qed.

(** Two analyses in progress, of the users 1 and 12. *)
Definition twoUsers : World :=
  mkWorld [ (analysisIdOf "1" 1700000000000,
             mkSession false (Some 20) (Some 3) (Some "src"));
            (analysisIdOf "12" 1700000000001,
             mkSession false (Some 40) (Some 6) (Some "lib")) ]
          [] [] [] [].

(** C8 fails.  The user 1 cancels, and the session of the user 12 is
    cancelled as well, for its key [12-1700000000001] starts with [1]. *)
Theorem cancel_reaches_another_user :
  JsMap.get (analysisIdOf "12" 1700000000001)
            (activeAnalyses (snd (cancelRoute "1" twoUsers)))
  = Some (mkSession true (Some 40) (Some 6) (Some "lib")) /\
  JsMap.get (analysisIdOf "12" 1700000000001) (activeAnalyses twoUsers)
  = Some (mkSession false (Some 40) (Some 6) (Some "lib")).
Proof.
  split; vm_compute; reflexivity.
Qed.

(** ** The crawler returns *)

(** With the fuel that [buildFileTreeWithCancellation] takes, the crawler
    comes back with a tree or with an error. *)
Lemma buildFileTreeWithCancellation_returns env owner repo path githubToken
    analysisId depth maxDepth w :
  exists r w',
    buildFileTreeWithCancellation env owner repo path githubToken analysisId
                                  depth maxDepth w
    = Some (r, w').
Proof.
  unfold buildFileTreeWithCancellation.
  pose proof (crawl_total env owner repo githubToken analysisId maxDepth
                          (levels depth maxDepth) path depth w) as H.
  destruct (crawl _ _ _ _ _ _ _ _ _ _) as [[r w'] |]; [eauto |].
  exfalso. apply H; [unfold levels; lia | reflexivity].
Qed.

(** * Further properties *)

(** ** Strings *)

Lemma string_app_assoc (a b c : string) :
  ((a ++ b) ++ c)%string = (a ++ (b ++ c))%string.
Proof.
  induction a as [| x a IH]; simpl; [reflexivity | now rewrite IH].
Qed.

Lemma string_app_nil_r (a : string) : (a ++ "")%string = a.
Proof.
  induction a as [| x a IH]; simpl; [reflexivity | now rewrite IH].
Qed.

(** ** The address of a repository (lines 8-13) *)

(** [s] is empty or begins with a slash. *)
Definition endsSegment (s : string) : Prop :=
  s = EmptyString \/ exists rest, s = String "/"%char rest.

Lemma segment_spec (s : string) :
  forall seg tail,
    segment s = (seg, tail) ->
    s = (seg ++ tail)%string /\ includes "/"%char seg = false /\
    endsSegment tail.
Proof.
  induction s as [| c s IH]; intros seg tail H; simpl in H.
  - inversion H; subst. repeat split. now left.
  - destruct (Ascii.eqb c "/"%char) eqn:E.
    + inversion H; subst. apply Ascii.eqb_eq in E. subst c.
      repeat split. right. eauto.
    + destruct (segment s) as [seg' tail'] eqn:Hs.
      inversion H; subst.
      destruct (IH _ _ eq_refl) as (Hcat & Hno & Hend).
      simpl. rewrite E, Hno. rewrite Hcat at 1. auto.
Qed.

Lemma segment_append (seg tail : string) :
  includes "/"%char seg = false -> endsSegment tail ->
  segment (seg ++ tail) = (seg, tail).
Proof.
  intros Hno Hend. induction seg as [| c seg IH]; simpl in *.
  - destruct Hend as [-> | [rest ->]]; reflexivity.
  - apply orb_false_iff in Hno as [Hc Hno]. rewrite Hc, (IH Hno).
    reflexivity.
Qed.

Lemma dropPrefix_spec (p s rest : string) :
  dropPrefix p s = Some rest -> s = (p ++ rest)%string.
Proof.
  revert s. induction p as [| a p IH]; intros s H; simpl in H.
  - now inversion H.
  - destruct s as [| b s]; [discriminate |].
    destruct (Ascii.eqb a b) eqn:E; [| discriminate].
    apply Ascii.eqb_eq in E. subst b. simpl. now rewrite (IH _ H).
Qed.

Lemma dropPrefix_append (p rest : string) :
  dropPrefix p (p ++ rest) = Some rest.
Proof.
  induction p as [| a p IH]; simpl; [reflexivity |].
  now rewrite Ascii.eqb_refl.
Qed.

(** The two groups of a match: segments that are not empty, after
    [github.com/] and separated by a slash. *)
Lemma matchGitHub_spec (s owner repo : string) :
  matchGitHub s = Some (owner, repo) ->
  exists post,
    s = ("github.com/" ++ owner ++ "/" ++ repo ++ post)%string /\
    owner <> EmptyString /\ repo <> EmptyString /\
    includes "/"%char owner = false /\ includes "/"%char repo = false /\
    endsSegment post.
Proof.
  unfold matchGitHub. intros H.
  destruct (dropPrefix "github.com/" s) as [rest |] eqn:Hp; [| discriminate].
  apply dropPrefix_spec in Hp.
  destruct (segment rest) as [o tail] eqn:Ho.
  destruct o as [| c o]; [discriminate |].
  destruct tail as [| slash rest']; [discriminate |].
  destruct (segment rest') as [r post] eqn:Hr.
  destruct r as [| c' r]; [discriminate |].
  inversion H; subst owner repo. clear H.
  apply segment_spec in Ho as (Hcat & Hno & Hend).
  apply segment_spec in Hr as (Hcat' & Hno' & Hend').
  destruct Hend as [Habs | [t Ht]]; [discriminate |].
  inversion Ht; subst slash t.
  exists post. subst rest' rest s.
  repeat split; auto; discriminate.
Qed.

Lemma matchGitHub_append (owner repo post : string) :
  owner <> EmptyString -> repo <> EmptyString ->
  includes "/"%char owner = false -> includes "/"%char repo = false ->
  endsSegment post ->
  matchGitHub ("github.com/" ++ owner ++ "/" ++ repo ++ post)
  = Some (owner, repo).
Proof.
  intros Ho Hr Hno Hnr Hpost. unfold matchGitHub.
  rewrite dropPrefix_append.
  rewrite (segment_append owner ("/" ++ repo ++ post));
    [| exact Hno | right; simpl; eauto].
  destruct owner as [| c owner]; [contradiction |].
  simpl. rewrite (segment_append repo post Hnr Hpost).
  destruct repo as [| c' repo]; [contradiction | reflexivity].
Qed.

Lemma parseGitHubUrl_step (url : string) :
  parseGitHubUrl url
  = match matchGitHub url with
    | Some groups => Some groups
    | None =>
        match url with
        | String _ rest => parseGitHubUrl rest
        | EmptyString => None
        end
    end.
Proof. destruct url; reflexivity. Qed.

(** X1.  What [parseGitHubUrl] returns is read off the address: the address
    holds [github.com/owner/repo], neither part is empty or holds a slash,
    and the repository name runs to the next slash or to the end. *)
Theorem parseGitHubUrl_sound (url owner repo : string) :
  parseGitHubUrl url = Some (owner, repo) ->
  exists pre post,
    url = (pre ++ "github.com/" ++ owner ++ "/" ++ repo ++ post)%string /\
    owner <> EmptyString /\ repo <> EmptyString /\
    includes "/"%char owner = false /\ includes "/"%char repo = false /\
    endsSegment post.
Proof.
  induction url as [| c url IH]; rewrite parseGitHubUrl_step.
  - unfold matchGitHub. simpl. discriminate.
  - destruct (matchGitHub (String c url)) as [[o r] |] eqn:Hm.
    + intros H. inversion H; subst o r.
      destruct (matchGitHub_spec _ _ _ Hm) as (post & Hs & Hrest).
      exists EmptyString, post. split; [exact Hs | exact Hrest].
    + intros H. destruct (IH H) as (pre & post & Hs & Hrest).
      exists (String c pre), post. split; [| exact Hrest].
      simpl. now rewrite Hs.
Qed.

Lemma parseGitHubUrl_sound_witness :
  exists pre post,
    "https://github.com/acme/widgets/tree/main"
    = (pre ++ "github.com/" ++ "acme" ++ "/" ++ "widgets" ++ post)%string.
Proof.
  destruct (parseGitHubUrl_sound "https://github.com/acme/widgets/tree/main"
                                 "acme" "widgets" eq_refl)
    as (pre & post & H & _).
  exists pre, post. exact H.
Defined.

(** X2.  Every address that holds [github.com/], a part without a slash, a
    slash and a character that is not a slash is accepted; and when no [g]
    comes before [github.com/], the two parts are the ones returned. *)
Theorem parseGitHubUrl_complete (pre owner repo post : string) :
  owner <> EmptyString -> repo <> EmptyString ->
  includes "/"%char owner = false -> includes "/"%char repo = false ->
  endsSegment post ->
  parseGitHubUrl (pre ++ "github.com/" ++ owner ++ "/" ++ repo ++ post)
  <> None /\
  (includes "g"%char pre = false ->
   parseGitHubUrl (pre ++ "github.com/" ++ owner ++ "/" ++ repo ++ post)
   = Some (owner, repo)).
Proof.
  intros Ho Hr Hno Hnr Hpost.
  pose proof (matchGitHub_append owner repo post Ho Hr Hno Hnr Hpost) as Hm.
  remember ("github.com/" ++ owner ++ "/" ++ repo ++ post)%string as u
    eqn:Hu.
  clear Hu. induction pre as [| c pre [IH1 IH2]].
  - simpl. rewrite parseGitHubUrl_step, Hm.
    split; [discriminate | reflexivity].
  - change ((String c pre ++ u)%string) with (String c (pre ++ u)).
    split.
    + rewrite parseGitHubUrl_step.
      destruct (matchGitHub (String c (pre ++ u)));
        [discriminate | exact IH1].
    + intros Hg. simpl in Hg. apply orb_false_iff in Hg as [Hc Hg].
      rewrite parseGitHubUrl_step.
      assert (Hnone : matchGitHub (String c (pre ++ u)) = None).
      { unfold matchGitHub. cbn [dropPrefix].
        rewrite Ascii.eqb_sym in Hc. rewrite Hc. reflexivity. }
      rewrite Hnone. exact (IH2 Hg).
Qed.

Lemma parseGitHubUrl_complete_witness :
  parseGitHubUrl ("https://www." ++ "github.com/" ++ "acme" ++ "/"
                                 ++ "widgets" ++ "/issues/3")
  = Some ("acme", "widgets").
Proof.
  refine (proj2 (parseGitHubUrl_complete "https://www." "acme" "widgets"
                                         "/issues/3" _ _ _ _ _) _);
    try discriminate; try reflexivity.
  right. eexists. reflexivity.
Defined.

(** ** The depth of an analysis (line 183) *)

(** X3.  Whatever the request holds, the depth handed to the crawler lies
    between 1 and 20: a value in that range is kept, a smaller one,
    negative ones included, becomes 1, a greater one 20, and zero or no
    number at all 15. *)
Theorem clampDepth_range (requested : option Z) :
  1 <= clampDepth requested <= 20 /\
  (forall n, requested = Some n -> 1 <= n <= 20 -> clampDepth requested = n) /\
  (forall n, requested = Some n -> n < 0 -> clampDepth requested = 1) /\
  (forall n, requested = Some n -> 20 < n -> clampDepth requested = 20) /\
  (requested = None \/ requested = Some 0 -> clampDepth requested = 15).
Proof.
  unfold clampDepth. split; [| split; [| split; [| split]]].
  - destruct requested as [n |]; [destruct (n =? 0) |]; lia.
  - intros n -> Hn. destruct (n =? 0) eqn:E; [apply Z.eqb_eq in E |]; lia.
  - intros n -> Hn. destruct (n =? 0) eqn:E; [apply Z.eqb_eq in E |]; lia.
  - intros n -> Hn. destruct (n =? 0) eqn:E; [apply Z.eqb_eq in E |]; lia.
  - intros [-> | ->]; reflexivity.
Qed.

(** ** Requests that [/analyze] refuses (lines 178-189) *)

(** The request names no repository of GitHub: the address is absent, it is
    a falsy value, or it is a string that holds no address of GitHub. *)
Definition refused (rq : AnalyzeBody) : Prop :=
  match repoUrl rq with
  | Some (Text url) => parseGitHubUrl url = None
  | Some (Other truthy) => truthy = false
  | None => True
  end.

(** X4.  [/analyze] answers 400 exactly when the address is missing, falsy
    (empty, [null], [false], 0) or a string that holds no address of
    GitHub.  A truthy address that is no string, such as a number or an
    object, passes the test of line 178 and makes [url.match] fail at line
    11: the answer is 500.  In both cases the state of the server is left
    as it was: no session is registered and nothing is requested or
    saved. *)
Theorem analyzeRoute_refuses env githubToken now userId rq w :
  (refused rq ->
   exists message,
     analyzeRoute env githubToken now userId rq w
     = Some (mkResponse 400 (Message message), w)) /\
  (forall res w',
      analyzeRoute env githubToken now userId rq w = Some (res, w') ->
      status res = 400 -> refused rq /\ w' = w) /\
  (repoUrl rq = Some (Other true) ->
   analyzeRoute env githubToken now userId rq w
   = Some (mkResponse 500
             (Failure "Failed to analyze repository"
                      "url.match is not a function"), w)).
Proof.
  unfold refused, analyzeRoute. split; [| split].
  - destruct (repoUrl rq) as [[[| c url] | [|]] |]; eauto.
    + intros ->. eauto.
    + discriminate.
  - intros res w'.
    destruct (repoUrl rq) as [[[| c url] | [|]] |];
      try solve [intros H _; inversion H; auto].
    + destruct (parseGitHubUrl (String c url)) as [[owner repo] |];
        [| intros H _; inversion H; auto].
      destruct (buildFileTreeWithCancellation _ _ _ _ _ _ _ _ _)
        as [[[tree | error] w2] |]; [| | discriminate].
      * destruct (match JsMap.get _ _ with Some _ => _ | None => _ end);
          [intros H Hs; inversion H; subst; discriminate |].
        destruct (Repository_create _ _ _ _ _) as [[saved | error] w4];
          intros H Hs; inversion H; subst; discriminate.
      * intros H Hs; inversion H; subst; discriminate.
    + intros H Hs. inversion H; subst. discriminate.
  - intros ->. reflexivity.
Qed.

(** ** The [/analyze/cancel] route, again *)

Lemma markCancelled_twice (s : Session) :
  markCancelled (markCancelled s) = markCancelled s.
Proof. reflexivity. Qed.

Lemma cancelSessions_twice userId m :
  cancelSessions userId (cancelSessions userId m) = cancelSessions userId m.
Proof.
  unfold cancelSessions. rewrite List.map_map. apply List.map_ext.
  intros [id a]. destruct (String.prefix userId id) eqn:E; rewrite E;
    reflexivity.
Qed.

(** X5.  Cancelling twice is cancelling once: the second request gets the
    same answer and leaves the state as the first one made it. *)
Theorem cancelRoute_idempotent userId w :
  cancelRoute userId (snd (cancelRoute userId w)) = cancelRoute userId w.
Proof.
  unfold cancelRoute, with_analyses. simpl.
  now rewrite cancelSessions_twice.
Qed.

(** X6.  A cancel request answers 200 whether or not an analysis runs, and
    it changes nothing but [cancelled] fields, from unset to set: the keys
    of the table and their order, the progress fields of every session and
    the rest of the state stay, and no session that was cancelled is
    revived. *)
Theorem cancelRoute_frame userId w :
  status (fst (cancelRoute userId w)) = 200 /\
  List.map fst (activeAnalyses (snd (cancelRoute userId w)))
  = List.map fst (activeAnalyses w) /\
  Forall2 (fun before after : string * Session =>
             progress (snd after) = progress (snd before) /\
             currentDepth (snd after) = currentDepth (snd before) /\
             currentPath (snd after) = currentPath (snd before) /\
             cancelled (snd after)
             = cancelled (snd before) || String.prefix userId (fst before))
          (activeAnalyses w) (activeAnalyses (snd (cancelRoute userId w))) /\
  repositories (snd (cancelRoute userId w)) = repositories w /\
  requested (snd (cancelRoute userId w)) = requested w /\
  written (snd (cancelRoute userId w)) = written w.
Proof.
  simpl. repeat split.
  - unfold cancelSessions. rewrite List.map_map. apply List.map_ext.
    intros [id a]. destruct (String.prefix userId id); reflexivity.
  - induction (activeAnalyses w) as [| [id a] m IH]; simpl; constructor;
      [| exact IH].
    simpl. destruct (String.prefix userId id); simpl; repeat split;
      [now rewrite orb_true_r | now rewrite orb_false_r].
Qed.

(** ** The [/analyze/progress] route (lines 246-267) *)

Lemma firstSession_none userId m :
  firstSession userId m = None <->
  forall id analysis, In (id, analysis) m -> String.prefix userId id = false.
Proof.
  induction m as [| [k a] m IH]; simpl.
  - split; [intros _ id an [] | reflexivity].
  - destruct (String.prefix userId k) eqn:E.
    + split; [discriminate |]. intros H.
      rewrite (H k a) in E by now left. discriminate.
    + rewrite IH. split.
      * intros H id an [Heq | Hin]; [inversion Heq; subst; exact E | eauto].
      * intros H id an Hin. eapply H. right. exact Hin.
Qed.

Lemma firstSession_some userId m analysis :
  firstSession userId m = Some analysis ->
  exists earlier id later,
    m = earlier ++ (id, analysis) :: later /\
    String.prefix userId id = true /\
    firstSession userId earlier = None.
Proof.
  induction m as [| [k a] m IH]; simpl; [discriminate |].
  destruct (String.prefix userId k) eqn:E.
  - intros H. inversion H; subst. exists [], k, m. auto.
  - intros H. destruct (IH H) as (earlier & id & later & -> & Hp & Hn).
    exists ((k, a) :: earlier), id, later. simpl. rewrite E. auto.
Qed.

(** X7.  A progress request never changes the state.  It answers
    [active: false] exactly when no key of the table starts with the user's
    id, and otherwise with the fields of the first such session in the
    order of insertion, absent fields read as 0, the empty path and
    [false]. *)
Theorem progressRoute_reports userId w :
  snd (progressRoute userId w) = w /\
  status (fst (progressRoute userId w)) = 200 /\
  (body (fst (progressRoute userId w)) = Inactive <->
   forall id analysis,
     In (id, analysis) (activeAnalyses w) ->
     String.prefix userId id = false) /\
  (forall p d path c,
      body (fst (progressRoute userId w)) = Active p d path c ->
      exists earlier id analysis later,
        activeAnalyses w = earlier ++ (id, analysis) :: later /\
        String.prefix userId id = true /\
        (forall id' analysis',
            In (id', analysis') earlier ->
            String.prefix userId id' = false) /\
        p = orElse (progress analysis) 0 /\
        d = orElse (currentDepth analysis) 0 /\
        path = orElse (currentPath analysis) "" /\
        c = cancelled analysis).
Proof.
  unfold progressRoute.
  destruct (firstSession userId (activeAnalyses w)) as [a |] eqn:E; simpl.
  - repeat split; try discriminate.
    + intros H. apply firstSession_none in H. congruence.
    + intros p d path c H. unfold snapshot in H. inversion H; subst.
      destruct (firstSession_some _ _ _ E) as (earlier & id & later & Hm & Hp & Hn).
      exists earlier, id, a, later. rewrite firstSession_none in Hn.
      repeat split; auto.
  - repeat split; try discriminate.
    intros _. now apply firstSession_none.
Qed.

(** ** What [/analyze] answers on success and on failure *)

(** The depth fields of an unfolding that starts within the limit. *)
Lemma Unfolds_depth_fields env owner repo githubToken maxDepth depth path
    tree :
  Unfolds env owner repo githubToken maxDepth depth path tree ->
  forall n k,
    In n (nodes tree) -> node_depth n = Some k ->
    depth <= k <= maxDepth + 1.
Proof.
  intros H n k Hn Hk. rewrite nodes_descendants in Hn.
  destruct Hn as [<- | Hn].
  - destruct H as [d p Hd | d p items ch Hd Hup Hch]; simpl in Hk;
      [discriminate |].
    inversion Hk; subst. lia.
  - destruct (Unfolds_descendants _ _ _ _ _ _ _ _ H n Hn)
      as (d & p & items & Hle & Hd & _ & Hc).
    destruct (ChildOf_depth _ _ _ _ _ _ _ _ Hc Hd) as (k' & Hk' & Hr & _).
    assert (k = k') by congruence. lia.
Qed.

Lemma clampDepth_bounds (requested : option Z) :
  1 <= clampDepth requested <= 20.
Proof.
  unfold clampDepth. destruct requested as [n |]; [destruct (n =? 0) |]; lia.
Qed.

Lemma savedElsewhere_none env from upto :
  (forall n id repository,
      ~ In (OtherAnalysis id (Saves repository)) (arrivals env n)) ->
  savedElsewhere env from upto = [].
Proof.
  intros Hno. unfold savedElsewhere, arrived.
  induction (seq from (upto - from)) as [| n l IH]; [reflexivity |].
  cbn [flat_map]. rewrite flat_map_app, IH, app_nil_r.
  specialize (Hno n).
  induction (arrivals env n) as [| rq rqs IHr]; [reflexivity |].
  cbn [flat_map]. rewrite IHr by (intros id r Hin; apply (Hno id r); now right).
  destruct rq as [u | u | id [| p d m | | r]]; try reflexivity.
  exfalso. apply (Hno id r). now left.
Qed.

(** X8.  When [/analyze] answers 200, the tree of the answer is the tree
    that was saved, under the user's id and the address of the request,
    after whatever the other analyses saved in the meantime, and alone when
    they saved nothing; its root is the repository, at depth 0; every depth
    field of the tree lies between 0 and 21, whatever depth was asked for;
    and the session of the analysis is gone from the table, unless another
    analysis brought the key back while the tree was being saved. *)
Theorem analyzeRoute_success env githubToken now userId rq w res w' :
  analyzeRoute env githubToken now userId rq w = Some (res, w') ->
  status res = 200 ->
  exists url owner repo fileTree,
    repoUrl rq = Some (Text url) /\
    parseGitHubUrl url = Some (owner, repo) /\
    body res = Analyzed "Repository analyzed successfully" owner repo
                        fileTree (clampDepth (maxDepth rq)) /\
    repositories w'
    = repositories w
      ++ savedElsewhere env (List.length (requested w))
                        (S (List.length (requested w')))
      ++ [mkStored userId url fileTree] /\
    ((forall n id repository,
         ~ In (OtherAnalysis id (Saves repository)) (arrivals env n)) ->
     repositories w' = repositories w ++ [mkStored userId url fileTree]) /\
    node_name fileTree = repo /\
    node_depth fileTree = Some 0 /\
    (forall n k,
        In n (nodes fileTree) -> node_depth n = Some k -> 0 <= k <= 21) /\
    ((forall step,
         ~ In (OtherAnalysis (analysisIdOf userId now) step)
              (arrivals env (List.length (requested w')))) ->
     JsMap.get (analysisIdOf userId now) (activeAnalyses w') = None).
Proof.
  intros H Hs.
  destruct (analyzeRoute_answers _ _ _ _ _ _ _ _ H)
    as [[H400 _]
       | [(H500 & _)
         | [(H500 & _)
           | [(H500 & _)
             | (_ & Hgone & url & owner & repo & tree
                & Hurl & _ & Hbody & Hrepo)]]]]; try congruence.
  exists url, owner, repo, tree.
  revert H. unfold analyzeRoute. rewrite Hurl.
  destruct url as [| c url];
    [intros H; inversion H; subst; discriminate |].
  destruct (parseGitHubUrl (String c url)) as [[owner' repo'] |] eqn:Hparse;
    [| intros H; inversion H; subst; discriminate].
  unfold buildFileTreeWithCancellation.
  match goal with
  | |- context [crawl ?f ?e ?o ?r ?p ?t ?a ?d ?m ?w0] =>
      destruct (crawl f e o r p t a d m w0) as [[[tree' | error] w2] |] eqn:E
  end; [| intros H; inversion H; subst; discriminate | discriminate].
  simpl activeAnalyses. rewrite JsMap.get_delete_same.
  destruct (Repository_create _ _ _ _ _) as [[saved | error] w4];
    intros H; inversion H; subst; [| discriminate].
  simpl in Hbody. inversion Hbody; subst owner' repo' tree'. clear H Hbody.
  apply crawl_unfolds in E.
  pose proof (clampDepth_bounds (maxDepth rq)) as Hclamp.
  split; [reflexivity |]. split; [reflexivity |]. split; [reflexivity |].
  split; [exact Hrepo |].
  split; [intros Hno; now rewrite Hrepo, savedElsewhere_none |].
  split; [inversion E; subst; [lia | reflexivity] |].
  split; [inversion E; subst; [lia | reflexivity] |].
  split; [| exact Hgone].
  intros n k Hn Hk.
  destruct (Unfolds_depth_fields _ _ _ _ _ _ _ _ E n k Hn Hk). lia.
Qed.

(** The tree that another analysis saves. *)
Definition gears : Stored :=
  mkStored "u2" "https://github.com/acme/gears"
           (Folder "gears" None [] (Some 0) None None).

Lemma analyzeRoute_success_witness :
  (exists res w' fileTree,
      analyzeRoute (repository widgets quiet) None 5 "u1"
                   (mkAnalyzeBody
                      (Some (Text "https://github.com/acme/widgets"))
                      (Some 40))
                   emptyWorld
      = Some (res, w') /\
      repositories w'
      = [mkStored "u1" "https://github.com/acme/widgets" fileTree] /\
      node_depth fileTree = Some 0) /\
  (exists res w' fileTree,
      analyzeRoute
        (repository widgets
           (during 3 [OtherAnalysis "u2-7" Leaves;
                      OtherAnalysis "u2-7" (Saves gears)]))
        None 5 "u1"
        (mkAnalyzeBody (Some (Text "https://github.com/acme/widgets"))
                       (Some 40))
        emptyWorld
      = Some (res, w') /\
      repositories w'
      = [gears; mkStored "u1" "https://github.com/acme/widgets" fileTree]).
Proof.
  split.
  - destruct (analyzeRoute (repository widgets quiet) None 5 "u1"
                (mkAnalyzeBody
                   (Some (Text "https://github.com/acme/widgets"))
                   (Some 40))
                emptyWorld) as [[res w'] |] eqn:E;
      [| vm_compute in E; discriminate].
    destruct (analyzeRoute_success _ _ _ _ _ _ _ _ E)
      as (url & owner & repo & tree & Hurl & _ & _ & _ & Hsaved & _ & Hd & _).
    + vm_compute in E. inversion E. reflexivity.
    + exists res, w', tree. simpl in Hurl. inversion Hurl; subst url.
      split; [reflexivity |]. split; [| exact Hd].
      apply Hsaved. intros n id r [].
  - destruct (analyzeRoute
                (repository widgets
                   (during 3 [OtherAnalysis "u2-7" Leaves;
                              OtherAnalysis "u2-7" (Saves gears)]))
                None 5 "u1"
                (mkAnalyzeBody
                   (Some (Text "https://github.com/acme/widgets"))
                   (Some 40))
                emptyWorld) as [[res w'] |] eqn:E;
      [| vm_compute in E; discriminate].
    destruct (analyzeRoute_success _ _ _ _ _ _ _ _ E)
      as (url & owner & repo & tree & Hurl & _ & _ & Hsaved & _).
    + vm_compute in E. inversion E. reflexivity.
    + exists res, w', tree. simpl in Hurl. inversion Hurl; subst url.
      split; [reflexivity |]. rewrite Hsaved.
      vm_compute in E. inversion E; subst. reflexivity.
Defined.

Lemma firstSession_found userId m id analysis :
  JsMap.get id m = Some analysis ->
  String.prefix userId id = true ->
  exists first, firstSession userId m = Some first.
Proof.
  intros Hget Hp.
  destruct (firstSession userId m) as [first |] eqn:E; [eauto |].
  rewrite firstSession_none in E.
  induction m as [| [k a] m IH]; simpl in Hget; [discriminate |].
  destruct (String.eqb k id) eqn:Ek.
  - apply String.eqb_eq in Ek. subst k.
    rewrite (E id a) in Hp by now left. discriminate.
  - apply IH; [exact Hget |]. intros id' a' Hin. eapply E. right. exact Hin.
Qed.

(** X9.  What is left after [/analyze] has answered 500, no other analysis
    using the key of this one.  When the crawl failed, be it for a failed
    listing or for a cancellation, the session is still in the table, and a
    progress request of the same user is answered with [active: true].
    When the crawl returned and the tree could not be saved, the session
    has been removed.  When the address was no string, nothing was
    registered and the state is as it was. *)
Theorem progress_active_after_failure env githubToken now userId rq w res
    w' :
  (forall n, Apart (analysisIdOf userId now) (arrivals env n)) ->
  analyzeRoute env githubToken now userId rq w = Some (res, w') ->
  status res = 500 ->
  ((exists inner,
       body res = Failure "Failed to analyze repository"
                          ("GitHub API error: " ++ inner)) /\
   exists p d path c,
     progressRoute userId w' = (mkResponse 200 (Active p d path c), w')) \/
  (JsMap.get (analysisIdOf userId now) (activeAnalyses w') = None /\
   exists url fileTree error,
     repoUrl rq = Some (Text url) /\
     createFails env (mkStored userId url fileTree) = Some error /\
     body res = Failure "Failed to analyze repository" error) \/
  (repoUrl rq = Some (Other true) /\ w' = w).
Proof.
  intros Hap H Hs.
  destruct (analyzeRoute_answers _ _ _ _ _ _ _ _ H)
    as [[H400 _]
       | [(_ & Hurl & Hw)
         | [(_ & Hbody & _ & Hget)
           | [(_ & Hgone & _ & Hfail) | [H200 _]]]]]; try congruence.
  - right. right. auto.
  - left. split; [exact Hbody |].
    destruct (Hget Hap) as (a & Ha).
    destruct (firstSession_found userId _ _ _ Ha (prefix_append _ _))
      as (first & Hfirst).
    unfold progressRoute. rewrite Hfirst. unfold snapshot. eauto.
  - right. left. auto.
Qed.

(** A repository behind a database that is out of reach. *)
Definition unreachable (listings : list (string * list Item)) : Env :=
  mkEnv (upstream (repository listings quiet)) quiet
        (fun _ => Some "connection closed").

Lemma progress_active_after_failure_witness :
  (exists res w' p d path c,
      analyzeRoute (repository [] quiet) None 5 "u1"
                   (mkAnalyzeBody
                      (Some (Text "https://github.com/acme/widgets")) None)
                   emptyWorld
      = Some (res, w') /\
      progressRoute "u1" w' = (mkResponse 200 (Active p d path c), w')) /\
  (exists res w',
      analyzeRoute (unreachable widgets) None 5 "u1"
                   (mkAnalyzeBody
                      (Some (Text "https://github.com/acme/widgets")) None)
                   emptyWorld
      = Some (res, w') /\
      body res = Failure "Failed to analyze repository" "connection closed" /\
      progressRoute "u1" w' = (mkResponse 200 Inactive, w')).
Proof.
  split.
  - destruct (analyzeRoute (repository [] quiet) None 5 "u1"
                (mkAnalyzeBody
                   (Some (Text "https://github.com/acme/widgets")) None)
                emptyWorld) as [[res w'] |] eqn:E;
      [| vm_compute in E; discriminate].
    destruct (progress_active_after_failure
                (repository [] quiet) None 5 "u1"
                (mkAnalyzeBody
                   (Some (Text "https://github.com/acme/widgets")) None)
                emptyWorld res w')
      as [(_ & p & d & path & c & Hp)
         | [(Hgone & _) | (Hurl & _)]].
    + intros n step [].
    + exact E.
    + vm_compute in E. inversion E. reflexivity.
    + exists res, w', p, d, path, c. split; [reflexivity | exact Hp].
    + exfalso. vm_compute in E. inversion E; subst. discriminate.
    + discriminate.
  - destruct (analyzeRoute (unreachable widgets) None 5 "u1"
                (mkAnalyzeBody
                   (Some (Text "https://github.com/acme/widgets")) None)
                emptyWorld) as [[res w'] |] eqn:E;
      [| vm_compute in E; discriminate].
    destruct (progress_active_after_failure
                (unreachable widgets) None 5 "u1"
                (mkAnalyzeBody
                   (Some (Text "https://github.com/acme/widgets")) None)
                emptyWorld res w')
      as [((inner & Hb) & _)
         | [(Hgone & url & tree & error & _ & Hfail & Hbody) | (Hurl & _)]].
    + intros n step [].
    + exact E.
    + vm_compute in E. inversion E. reflexivity.
    + exfalso. vm_compute in E. inversion E; subst. discriminate.
    + exists res, w'. split; [reflexivity |].
      simpl in Hfail. inversion Hfail; subst error.
      split; [exact Hbody |].
      vm_compute in E. inversion E; subst. reflexivity.
    + discriminate.
Defined.

Lemma set_fresh {V} (k : string) (v : V) (m : JsMap.t V) :
  JsMap.get k m = None -> JsMap.set k v m = m ++ [(k, v)].
Proof.
  induction m as [| [k' v'] m IH]; simpl; [reflexivity |].
  destruct (String.eqb k' k); [discriminate |].
  intros H. now rewrite IH.
Qed.

Lemma firstSession_app userId m m' first :
  firstSession userId m = Some first ->
  firstSession userId (m ++ m') = Some first.
Proof.
  induction m as [| [k a] m IH]; simpl; [discriminate |].
  destruct (String.prefix userId k); auto.
Qed.

(** X10.  The progress route reports the oldest session of a user: while a
    session whose key starts with the user's id is in the table, a session
    registered under a new key does not change the answer. *)
Theorem older_session_shadows userId id analysis w p d path c :
  JsMap.get id (activeAnalyses w) = None ->
  fst (progressRoute userId w) = mkResponse 200 (Active p d path c) ->
  fst (progressRoute userId
         (with_analyses (JsMap.set id analysis (activeAnalyses w)) w))
  = mkResponse 200 (Active p d path c).
Proof.
  intros Hfresh. unfold progressRoute. simpl.
  destruct (firstSession userId (activeAnalyses w)) as [first |] eqn:E;
    [| discriminate].
  rewrite (set_fresh _ _ _ Hfresh), (firstSession_app _ _ _ _ E).
  trivial.
Qed.

Lemma older_session_shadows_witness :
  fst (progressRoute "1"
         (with_analyses
            (JsMap.set (analysisIdOf "1" 1700000000002)
                       (mkSession false (Some 0) None None)
                       (activeAnalyses twoUsers))
            twoUsers))
  = mkResponse 200 (Active 20 3 "src" false).
Proof.
  apply older_session_shadows; reflexivity.
Defined.

(** ** What a crawl leaves alone *)

(** The progress fields of a session. *)
Definition progressFields (analysis : Session)
  : option Z * option Z * option string :=
  (progress analysis, currentDepth analysis, currentPath analysis).

Lemma arrived_in env from upto rq :
  In rq (arrived env from upto) ->
  exists n, (from <= n < upto)%nat /\ In rq (arrivals env n).
Proof.
  unfold arrived. rewrite in_flat_map. intros (n & Hn & Hin).
  apply in_seq in Hn. exists n. split; [lia | exact Hin].
Qed.

(** What is served changes the progress fields of the sessions of the
    other analyses only. *)
Lemma handleAll_fields id rqs w :
  Apart id rqs ->
  option_map progressFields (JsMap.get id (activeAnalyses (handleAll rqs w)))
  = option_map progressFields (JsMap.get id (activeAnalyses w)).
Proof.
  unfold handleAll. revert w.
  induction rqs as [| rq rqs IH]; intros w Hap; simpl; [reflexivity |].
  rewrite IH by (intros step Hin; apply (Hap step); now right).
  rewrite handle_get.
  destruct rq as [u | u | k step]; simpl; [| reflexivity |].
  - destruct (JsMap.get id (activeAnalyses w)) as [a |]; simpl;
      [| reflexivity].
    destruct (String.prefix u id); reflexivity.
  - destruct (String.eqb k id) eqn:E; [| reflexivity].
    apply String.eqb_eq in E. subst k. exfalso. apply (Hap step). now left.
Qed.

(** X11.  A crawl writes to its own session only.  Under any other key the
    table holds after the crawl what the requests and the other analyses
    that came during its fetches have made of the key, as if the crawl had
    not run, however it ended; and a key that no other analysis used in the
    meantime is in the table exactly when it was there before, with the
    progress, depth and path it had. *)
Theorem crawl_leaves_other_sessions env owner repo path githubToken
    analysisId depth maxDepth w r w' :
  buildFileTreeWithCancellation env owner repo path githubToken analysisId
                                depth maxDepth w
  = Some (r, w') ->
  forall id,
    truthyId analysisId <> Some id ->
    JsMap.get id (activeAnalyses w')
    = JsMap.get id
        (activeAnalyses
           (served env (List.length (requested w))
                   (List.length (requested w')) w)) /\
    ((forall n,
         (List.length (requested w) <= n < List.length (requested w'))%nat ->
         Apart id (arrivals env n)) ->
     option_map progressFields (JsMap.get id (activeAnalyses w'))
     = option_map progressFields (JsMap.get id (activeAnalyses w))).
Proof.
  intros H id Hid. apply crawl_follows in H as [_ H].
  destruct (H w (Follows_refl _ _)) as (_ & Hother & _).
  rewrite (Hother id Hid). split; [reflexivity |].
  intros Hap. apply handleAll_fields.
  intros step Hin. apply arrived_in in Hin as (n & Hn & Hin).
  exact (Hap n Hn step Hin).
Qed.

Lemma crawl_leaves_other_sessions_witness :
  exists r w',
    buildFileTreeWithCancellation
      (repository widgets
         (during 1 [CancelRequest "1"; OtherAnalysis "7-9" Registers;
                    OtherAnalysis "7-9" (Advances "docs" 2 10)]))
      "acme" "widgets" "" None (Some (analysisIdOf "1" 1700000000000))
      0 3 twoUsers
    = Some (r, w') /\
    option_map progressFields
               (JsMap.get (analysisIdOf "12" 1700000000001)
                          (activeAnalyses w'))
    = Some (Some 40, Some 6, Some "lib") /\
    option_map progressFields (JsMap.get "7-9" (activeAnalyses w'))
    = Some (Some 20, Some 2, Some "docs").
Proof.
  destruct (buildFileTreeWithCancellation
              (repository widgets
                 (during 1 [CancelRequest "1"; OtherAnalysis "7-9" Registers;
                            OtherAnalysis "7-9" (Advances "docs" 2 10)]))
              "acme" "widgets" "" None
              (Some (analysisIdOf "1" 1700000000000)) 0 3 twoUsers)
    as [[r w'] |] eqn:E; [| vm_compute in E; discriminate].
  exists r, w'. split; [reflexivity |]. split.
  - refine (proj2 (crawl_leaves_other_sessions
                     _ _ _ _ _ _ _ _ _ _ _ E
                     (analysisIdOf "12" 1700000000001) _) _).
    + vm_compute. discriminate.
    + intros n _ step Hin. unfold repository, during in Hin.
      cbn [arrivals] in Hin.
      destruct (Nat.eqb n 1); [| destruct Hin].
      repeat (destruct Hin as [Hin | Hin]; [discriminate |]).
      destruct Hin.
  - assert (Hother : truthyId (Some (analysisIdOf "1" 1700000000000))
                     <> Some "7-9") by (vm_compute; discriminate).
    rewrite (proj1 (crawl_leaves_other_sessions
                      _ _ _ _ _ _ _ _ _ _ _ E "7-9" Hother)).
    vm_compute in E. inversion E; subst. vm_compute. reflexivity.
Defined.

(** ** The order of the children *)

Lemma Children_order env owner repo githubToken maxDepth depth items
    children :
  Children env owner repo githubToken maxDepth depth items children ->
  List.map node_name children
  = List.map item_name (filter (fun item => negb (ignored item)) items) /\
  List.map node_path children
  = List.map (fun item => Some (item_path item))
             (filter (fun item => negb (ignored item)) items).
Proof.
  unfold ignored.
  induction 1 as [d | d item items ch Hskip _ IH
                  | d item items sub ch Hskip Hdir Hsub _ IH
                  | d item items size ch Hskip Hdir Hsize _ IH
                  | d item items ch Hskip Hdir Hsize _ IH];
    simpl; rewrite ?Hskip, ?Hdir, ?Hsize; simpl;
    try (destruct IH as [IHn IHp]; rewrite ?IHn, ?IHp); auto.
Qed.

(** X12.  The children of a tree come in the order of the listing: their
    names and paths are those of the entries of the listing that are not
    ignored (no skip pattern matches, and a file has an accepted size),
    one node for each, none left out and none added. *)
Theorem children_follow_listing env owner repo path githubToken analysisId
    depth maxDepth w tree w' :
  depth <= maxDepth ->
  buildFileTreeWithCancellation env owner repo path githubToken analysisId
                                depth maxDepth w
  = Some (Ok tree, w') ->
  exists items,
    upstream env owner repo path githubToken = Listing items /\
    List.map node_name (node_children tree)
    = List.map item_name (filter (fun item => negb (ignored item)) items) /\
    List.map node_path (node_children tree)
    = List.map (fun item => Some (item_path item))
               (filter (fun item => negb (ignored item)) items).
Proof.
  intros Hd H. apply crawl_unfolds in H.
  destruct (Unfolds_within _ _ _ _ _ _ _ _ H Hd)
    as (items & ch & Hup & Hch & ->).
  exists items. split; [exact Hup |]. simpl.
  eapply Children_order. exact Hch.
Qed.

Lemma children_follow_listing_witness :
  exists tree w',
    buildFileTreeWithCancellation (repository withModules quiet) "acme"
                                  "widgets" "" None None 0 2 emptyWorld
    = Some (Ok tree, w') /\
    List.map node_name (node_children tree) = ["src"].
Proof.
  destruct (buildFileTreeWithCancellation (repository withModules quiet)
              "acme" "widgets" "" None None 0 2 emptyWorld)
    as [[[tree | m] w'] |] eqn:E;
    try (vm_compute in E; discriminate).
  exists tree, w'. split; [reflexivity |].
  destruct (children_follow_listing
              (repository withModules quiet) "acme" "widgets" "" None None
              0 2 emptyWorld tree w' ltac:(lia) E)
    as (items & Hup & Hnames & _).
  vm_compute in Hup. inversion Hup; subst items. exact Hnames.
Defined.

(** ** The requests of a successful crawl *)

(** A directory node that was listed, not cut at the depth limit. *)
Definition listed (n : FileTreeNode) : bool :=
  negb (is_file n)
  && match node_truncated n with Some true => false | _ => true end.

(** The number of listed directories of a tree. *)
Definition listings (n : FileTreeNode) : nat :=
  List.length (filter listed (nodes n)).

Definition listingsOf (l : list FileTreeNode) : nat :=
  List.length (filter listed (flat_map nodes l)).

Lemma listingsOf_app l1 l2 :
  listingsOf (l1 ++ l2) = (listingsOf l1 + listingsOf l2)%nat.
Proof.
  unfold listingsOf.
  now rewrite flat_map_app, filter_app, length_app.
Qed.

Lemma listingsOf_cons n l :
  listingsOf (n :: l) = (listingsOf [n] + listingsOf l)%nat.
Proof. exact (listingsOf_app [n] l). Qed.

Lemma listings_folderChild item subTree depth :
  is_file subTree = false ->
  listingsOf [folderChild item subTree depth] = listings subTree.
Proof.
  intros Hfolder.
  unfold listingsOf, listings. cbn [flat_map]. rewrite app_nil_r.
  rewrite (nodes_descendants subTree), (nodes_descendants (folderChild _ _ _)).
  rewrite descendants_folderChild. cbn [filter].
  assert (E : listed (folderChild item subTree depth) = listed subTree)
    by (destruct subTree; [discriminate | reflexivity]).
  rewrite E. destruct (listed subTree); reflexivity.
Qed.

(** [Answered env owner repo githubToken n w w']: from [w] to [w'] exactly
    [n] requests were made, each one answered by a listing. *)
Definition Answered (env : Env) (owner repo : string)
    (githubToken : option string) (n : nat) (w w' : World) : Prop :=
  exists paths,
    requested w' = requested w ++ paths /\
    List.length paths = n /\
    Forall (fun p => exists items,
                upstream env owner repo p githubToken = Listing items) paths.

Lemma Answered_refl env owner repo githubToken w :
  Answered env owner repo githubToken 0 w w.
Proof.
  exists []. rewrite app_nil_r. auto.
Qed.

Lemma Answered_trans env owner repo githubToken n1 n2 w1 w2 w3 :
  Answered env owner repo githubToken n1 w1 w2 ->
  Answered env owner repo githubToken n2 w2 w3 ->
  Answered env owner repo githubToken (n1 + n2) w1 w3.
Proof.
  intros (p1 & E1 & L1 & F1) (p2 & E2 & L2 & F2).
  exists (p1 ++ p2). rewrite E2, E1, app_assoc, length_app, L1, L2.
  split; [reflexivity |]. split; [reflexivity | now apply Forall_app].
Qed.

Section Requests.

Variable env : Env.
Variables owner repo : string.
Variables githubToken analysisId : option string.
Variable maxDepth : Z.

Lemma forItems_answered recurse depth items :
  (forall p w subTree w',
      recurse p w = Some (Ok subTree, w') ->
      is_file subTree = false /\
      Answered env owner repo githubToken (listings subTree) w w') ->
  forall children w children' w',
    forItems recurse analysisId depth items children w
    = Some (Ok children', w') ->
    exists pushed,
      children' = children ++ pushed /\
      Answered env owner repo githubToken (listingsOf pushed) w w'.
Proof.
  intros Hrec.
  induction items as [| item rest IH]; intros children w children' w' H;
    simpl in H.
  - inversion H; subst. exists []. rewrite app_nil_r.
    split; [reflexivity | apply Answered_refl].
  - destruct (isCancelled analysisId w); [discriminate |].
    destruct (shouldSkip (item_name item)); [eauto |].
    destruct (isDir item).
    + destruct (recurse (item_path item) w) as [[[sub | m] w1] |] eqn:E;
        try discriminate.
      destruct (IH _ _ _ _ H) as (pushed & -> & Hrest).
      destruct (Hrec _ _ _ _ E) as [Hfolder Hsub].
      exists (folderChild item sub depth :: pushed).
      split; [now rewrite <- app_assoc |].
      rewrite listingsOf_cons, listings_folderChild by exact Hfolder.
      eapply Answered_trans; eauto.
    + destruct (reasonableSize item) as [size |]; [| eauto].
      destruct (IH _ _ _ _ H) as (pushed & -> & Hrest).
      exists (fileChild item size depth :: pushed).
      split; [now rewrite <- app_assoc |].
      rewrite listingsOf_cons. exact Hrest.
Qed.

Lemma crawl_answered fuel :
  forall path depth w tree w',
    crawl fuel env owner repo path githubToken analysisId depth maxDepth w
    = Some (Ok tree, w') ->
    is_file tree = false /\
    Answered env owner repo githubToken (listings tree) w w'.
Proof.
  induction fuel as [| fuel IH]; intros path depth w tree w' H;
    [discriminate |].
  apply crawl_ok_inv in H.
  destruct H as [_ [(Hd & -> & ->) | (Hd & items & w2 & ch & Hget & Hloop & ->)]];
    (split; [reflexivity |]).
  - exists []. rewrite app_nil_r, updateProgress_requested. auto.
  - pose proof (axios_get_reply _ _ _ _ _ _ _ _ Hget) as Hup.
    apply forItems_answered in Hloop; [| intros; eapply IH; eauto].
    destruct Hloop as (pushed & Hch & paths & Hreq & Hlen & Hall).
    simpl in Hch. subst ch.
    unfold axios_get in Hget. inversion Hget as [[Hreply Hw2]].
    match type of Hw2 with
    | handleAll ?r ?w1 = _ =>
        destruct (handleAll_histories r w1) as (Hr & _)
    end.
    rewrite Hw2 in Hr. simpl in Hr. rewrite updateProgress_requested in Hr.
    exists (path :: paths). rewrite Hreq, Hr, <- app_assoc. simpl.
    split; [reflexivity |]. split.
    + unfold listings. rewrite nodes_folder.
      change (S (List.length paths)
              = S (List.length (filter listed (flat_map nodes pushed)))).
      f_equal. exact Hlen.
    + constructor; [eauto | exact Hall].
Qed.

End Requests.

(** The paths under which the listed directories among [l] were requested,
    in the order of [l]; [path] stands for a node without a [path] field,
    which is the root of a tree. *)
Definition pathsOf (path : string) (l : list FileTreeNode) : list string :=
  List.map (fun n => orElse (node_path n) path) (filter listed l).

Lemma pathsOf_app path l1 l2 :
  pathsOf path (l1 ++ l2) = pathsOf path l1 ++ pathsOf path l2.
Proof. unfold pathsOf. now rewrite filter_app, List.map_app. Qed.

Lemma pathsOf_cons path n l :
  pathsOf path (n :: l)
  = (if listed n then [orElse (node_path n) path] else []) ++ pathsOf path l.
Proof. unfold pathsOf. cbn [filter]. destruct (listed n); reflexivity. Qed.

Lemma pathsOf_own path path' l :
  Forall (fun n => node_path n <> None) l ->
  pathsOf path l = pathsOf path' l.
Proof.
  induction 1 as [| n l Hn _ IH]; [reflexivity |].
  rewrite !pathsOf_cons, IH.
  destruct (node_path n); [reflexivity | contradiction].
Qed.

Section RequestedPaths.

Variable env : Env.
Variables owner repo : string.
Variables githubToken analysisId : option string.
Variable maxDepth : Z.

Lemma forItems_requests recurse depth items :
  (forall p w subTree w',
      recurse p w = Some (Ok subTree, w') ->
      is_file subTree = false /\ node_path subTree = None /\
      Forall (fun n => node_path n <> None) (descendants subTree) /\
      requested w' = requested w ++ pathsOf p (nodes subTree)) ->
  forall children w children' w',
    forItems recurse analysisId depth items children w
    = Some (Ok children', w') ->
    exists pushed,
      children' = children ++ pushed /\
      Forall (fun n => node_path n <> None) (flat_map nodes pushed) /\
      forall path,
        requested w' = requested w ++ pathsOf path (flat_map nodes pushed).
Proof.
  intros Hrec.
  induction items as [| item rest IH]; intros children w children' w' H;
    simpl in H.
  - inversion H; subst. exists []. rewrite app_nil_r.
    split; [reflexivity |]. split; [constructor |].
    intros path. unfold pathsOf. simpl. now rewrite app_nil_r.
  - destruct (isCancelled analysisId w); [discriminate |].
    destruct (shouldSkip (item_name item)); [eauto |].
    destruct (isDir item).
    + destruct (recurse (item_path item) w) as [[[sub | m] w1] |] eqn:E;
        try discriminate.
      destruct (IH _ _ _ _ H) as (pushed & -> & Hpaths & Hrest).
      destruct (Hrec _ _ _ _ E) as (Hfolder & Hroot & Hbelow & Hsub).
      exists (folderChild item sub depth :: pushed).
      split; [now rewrite <- app_assoc |].
      cbn [flat_map].
      rewrite (nodes_descendants (folderChild item sub depth)),
        descendants_folderChild.
      split.
      * constructor; [discriminate |]. apply Forall_app. auto.
      * intros path. rewrite (Hrest path), Hsub.
        rewrite (nodes_descendants sub), <- !app_assoc. f_equal.
        change ((folderChild item sub depth :: descendants sub)
                  ++ flat_map nodes pushed)
          with (folderChild item sub depth
                  :: (descendants sub ++ flat_map nodes pushed)).
        rewrite !pathsOf_cons, pathsOf_app, Hroot, <- app_assoc.
        rewrite (pathsOf_own (item_path item) path _ Hbelow).
        assert (Hl : listed (folderChild item sub depth) = listed sub)
          by (destruct sub; [discriminate | reflexivity]).
        rewrite Hl. reflexivity.
    + destruct (reasonableSize item) as [size |]; [| eauto].
      destruct (IH _ _ _ _ H) as (pushed & -> & Hpaths & Hrest).
      exists (fileChild item size depth :: pushed).
      split; [now rewrite <- app_assoc |]. cbn [flat_map]. split.
      * constructor; [discriminate | exact Hpaths].
      * intros path. rewrite (Hrest path). reflexivity.
Qed.

(** The requests of a successful call are for the paths of the listed
    directories of its tree, the root standing for the path of the call,
    in the order of the nodes. *)
Lemma crawl_requests fuel :
  forall path depth w tree w',
    crawl fuel env owner repo path githubToken analysisId depth maxDepth w
    = Some (Ok tree, w') ->
    is_file tree = false /\ node_path tree = None /\
    Forall (fun n => node_path n <> None) (descendants tree) /\
    requested w' = requested w ++ pathsOf path (nodes tree).
Proof.
  induction fuel as [| fuel IH]; intros path depth w tree w' H;
    [discriminate |].
  apply crawl_ok_inv in H.
  destruct H as [_ [(Hd & -> & ->) | (Hd & items & w2 & ch & Hget & Hloop & ->)]].
  - repeat split; [constructor |].
    rewrite updateProgress_requested. unfold pathsOf. simpl.
    now rewrite app_nil_r.
  - apply forItems_requests in Hloop; [| intros; eapply IH; eauto].
    destruct Hloop as (pushed & Hch & Hpaths & Hreq).
    simpl in Hch. subst ch.
    repeat split; [exact Hpaths |].
    unfold axios_get in Hget. inversion Hget as [[Hreply Hw2]].
    match type of Hw2 with
    | handleAll ?r ?w1 = _ =>
        destruct (handleAll_histories r w1) as (Hr & _)
    end.
    rewrite Hw2 in Hr. simpl in Hr. rewrite updateProgress_requested in Hr.
    rewrite (Hreq path), Hr, <- app_assoc, nodes_folder, pathsOf_cons.
    reflexivity.
Qed.

End RequestedPaths.

(** X13.  A crawl that returns a tree made one request for each directory
    that the tree shows as listed, for the path of that directory, the
    root standing for the path of the call, in the order of the nodes of
    the tree; it made no other request, so none for a file or for a
    truncated directory; and every request was answered by a listing, for
    a single failure ends the crawl without a tree. *)
Theorem requests_of_a_tree env owner repo path githubToken analysisId depth
    maxDepth w tree w' :
  buildFileTreeWithCancellation env owner repo path githubToken analysisId
                                depth maxDepth w
  = Some (Ok tree, w') ->
  exists paths,
    requested w' = requested w ++ paths /\
    paths = List.map (fun n => orElse (node_path n) path)
                     (filter listed (nodes tree)) /\
    List.length paths = listings tree /\
    forall p,
      In p paths ->
      exists items, upstream env owner repo p githubToken = Listing items.
Proof.
  intros H.
  destruct (crawl_requests _ _ _ _ _ _ _ _ _ _ _ _ H) as (_ & _ & _ & Hreq).
  apply crawl_answered in H.
  destruct H as (_ & paths & Hreq' & Hlen & Hall).
  rewrite Forall_forall in Hall.
  exists paths. split; [exact Hreq' |].
  rewrite Hreq' in Hreq. apply app_inv_head in Hreq.
  split; [exact Hreq |]. split; [exact Hlen | exact Hall].
Qed.

Lemma requests_of_a_tree_witness :
  exists tree w',
    buildFileTreeWithCancellation (repository widgets quiet) "acme"
                                  "widgets" "" None None 0 1 emptyWorld
    = Some (Ok tree, w') /\
    List.map (fun n => orElse (node_path n) "") (filter listed (nodes tree))
    = [""; "src"] /\
    requested w' = [""; "src"].
Proof.
  destruct (buildFileTreeWithCancellation (repository widgets quiet)
              "acme" "widgets" "" None None 0 1 emptyWorld)
    as [[[tree | m] w'] |] eqn:E;
    try (vm_compute in E; discriminate).
  exists tree, w'. split; [reflexivity |].
  destruct (requests_of_a_tree _ _ _ _ _ _ _ _ _ _ _ E)
    as (paths & Hreq & Hpaths & _).
  rewrite Hreq, <- Hpaths. simpl.
  vm_compute in E. inversion E; subst tree w'.
  vm_compute in Hreq. inversion Hreq. split; reflexivity.
Defined.

(** ** A crawl that nothing stops *)

Lemma isCancelled_updateProgress analysisId path depth maxDepth w :
  isCancelled analysisId (updateProgress analysisId path depth maxDepth w)
  = isCancelled analysisId w.
Proof.
  unfold isCancelled, updateProgress.
  destruct (truthyId analysisId) as [id |]; [| reflexivity].
  destruct (0 <? depth); [| reflexivity]. simpl.
  rewrite JsMap.get_set_same.
  destruct (JsMap.get id (activeAnalyses w)); reflexivity.
Qed.

(** Only a cancel request sets a [cancelled] field. *)
Lemma handle_no_cancel analysisId rq w :
  (forall userId, rq <> CancelRequest userId) ->
  isCancelled analysisId w = false ->
  isCancelled analysisId (handle rq w) = false.
Proof.
  intros Hno. unfold isCancelled.
  destruct (truthyId analysisId) as [id |]; [| reflexivity].
  rewrite handle_get.
  destruct rq as [u | u | k step]; simpl;
    [exfalso; apply (Hno u); reflexivity | trivial |].
  destruct (String.eqb k id); [| trivial].
  destruct step as [| path depth maxDepth | | r]; simpl; trivial.
  destruct (negb (String.eqb k "") && (0 <? depth)); trivial.
Qed.

Lemma handleAll_no_cancel analysisId rqs w :
  (forall userId, ~ In (CancelRequest userId) rqs) ->
  isCancelled analysisId w = false ->
  isCancelled analysisId (handleAll rqs w) = false.
Proof.
  unfold handleAll. revert w.
  induction rqs as [| rq rqs IH]; intros w Hno Hc; simpl; [exact Hc |].
  apply IH; [intros u Hin; apply (Hno u); now right |].
  apply handle_no_cancel; [| exact Hc].
  intros u ->. apply (Hno u). now left.
Qed.

Section Unstopped.

Variable env : Env.
Variables owner repo : string.
Variables githubToken analysisId : option string.
Variable maxDepth : Z.

Hypothesis every_listing_answered :
  forall path,
    exists items, upstream env owner repo path githubToken = Listing items.
Hypothesis no_cancel_request :
  forall n userId, ~ In (CancelRequest userId) (arrivals env n).

Lemma axios_get_unstopped path w reply w' :
  axios_get env owner repo path githubToken w = (reply, w') ->
  isCancelled analysisId w = false ->
  (exists items, reply = Listing items) /\
  isCancelled analysisId w' = false.
Proof.
  unfold axios_get. intros H Hc. inversion H; subst. split.
  - apply every_listing_answered.
  - apply handleAll_no_cancel; [apply no_cancel_request | exact Hc].
Qed.

Lemma forItems_unstopped recurse depth items :
  (forall p w r w',
      recurse p w = Some (r, w') ->
      isCancelled analysisId w = false ->
      (exists subTree, r = Ok subTree) /\
      isCancelled analysisId w' = false) ->
  forall children w r w',
    forItems recurse analysisId depth items children w = Some (r, w') ->
    isCancelled analysisId w = false ->
    (exists children', r = Ok children') /\
    isCancelled analysisId w' = false.
Proof.
  intros Hrec.
  induction items as [| item rest IH]; intros children w r w' H Hc;
    simpl in H.
  - inversion H; subst. eauto.
  - rewrite Hc in H.
    destruct (shouldSkip (item_name item)); [eauto |].
    destruct (isDir item).
    + destruct (recurse (item_path item) w) as [[o w1] |] eqn:E;
        [| discriminate].
      destruct (Hrec _ _ _ _ E Hc) as [[sub ->] Hc1]. eauto.
    + destruct (reasonableSize item); eauto.
Qed.

Lemma crawl_unstopped fuel :
  forall path depth w r w',
    crawl fuel env owner repo path githubToken analysisId depth maxDepth w
    = Some (r, w') ->
    isCancelled analysisId w = false ->
    (exists tree, r = Ok tree) /\ isCancelled analysisId w' = false.
Proof.
  induction fuel as [| fuel IH]; intros path depth w r w' H Hc;
    [discriminate |].
  rewrite crawl_step, Hc in H. cbv zeta in H.
  pose proof (isCancelled_updateProgress analysisId path depth maxDepth w)
    as Hu. rewrite Hc in Hu.
  destruct (maxDepth <? depth).
  { simpl in H. inversion H; subst. eauto. }
  destruct (axios_get _ _ _ _ _ _) as [reply w2] eqn:Hget.
  destruct (axios_get_unstopped _ _ _ _ Hget Hu) as [[items ->] Hc2].
  destruct (forItems _ _ _ _ _ _) as [[o3 w3] |] eqn:Hloop;
    [| discriminate].
  destruct (forItems_unstopped
              _ _ _ (fun p w0 r0 w0' => IH p (depth + 1) w0 r0 w0')
              _ _ _ _ Hloop Hc2) as [[ch ->] Hc3].
  simpl in H. inversion H; subst. eauto.
Qed.

End Unstopped.

(** X14.  When the API answers every listing and no cancel request comes
    in, a crawl whose session is not cancelled at the start returns a
    tree. *)
Theorem crawl_returns_tree env owner repo path githubToken analysisId depth
    maxDepth w :
  (forall p,
      exists items, upstream env owner repo p githubToken = Listing items) ->
  (forall n userId, ~ In (CancelRequest userId) (arrivals env n)) ->
  isCancelled analysisId w = false ->
  exists tree w',
    buildFileTreeWithCancellation env owner repo path githubToken analysisId
                                  depth maxDepth w
    = Some (Ok tree, w').
Proof.
  intros Hup Hno Hc.
  destruct (buildFileTreeWithCancellation_returns
              env owner repo path githubToken analysisId depth maxDepth w)
    as (r & w' & H).
  destruct (crawl_unstopped env owner repo githubToken analysisId maxDepth
                            Hup Hno _ _ _ _ _ _ H Hc) as [[tree ->] _].
  eauto.
Qed.

(** A repository where every path but the root is an empty directory. *)
Definition shallow : Env :=
  mkEnv (fun _ _ path _ =>
           Listing (if String.eqb path ""
                    then [dir "src" "src"; file "a.txt" "a.txt" 3]
                    else []))
        (fun _ => [ProgressRequest "u1"]) (fun _ => None).

Lemma crawl_returns_tree_witness :
  exists tree w',
    buildFileTreeWithCancellation shallow "acme" "widgets" "" None
                                  (Some "u1-5") 0 5 emptyWorld
    = Some (Ok tree, w').
Proof.
  apply crawl_returns_tree.
  - intros p. eexists. reflexivity.
  - intros n u [H | []]. discriminate.
  - reflexivity.
Defined.

(** ** Errors *)

(** [message] wrapped [k] times by the [catch] of lines 165-167. *)
Fixpoint wrapped (k : nat) (message : string) : string :=
  match k with
  | O => message
  | S k' => ("GitHub API error: " ++ wrapped k' message)%string
  end.

Section Errors.

Variable env : Env.
Variables owner repo : string.
Variables githubToken analysisId : option string.
Variable maxDepth : Z.

(** What is thrown in the first place: the cancellation, or the message of
    a listing that failed. *)
Definition Cause (message : string) : Prop :=
  message = "Analysis cancelled by user" \/
  exists path,
    upstream env owner repo path githubToken = Failed message.

Lemma forItems_thrown recurse depth items k :
  (forall p w message w',
      recurse p w = Some (Throw message, w') ->
      exists j cause,
        (j <= k)%nat /\ message = wrapped j cause /\ Cause cause) ->
  forall children w message w',
    forItems recurse analysisId depth items children w
    = Some (Throw message, w') ->
    exists j cause,
      (j <= k)%nat /\ message = wrapped j cause /\ Cause cause.
Proof.
  intros Hrec.
  induction items as [| item rest IH]; intros children w message w' H;
    simpl in H; [discriminate |].
  destruct (isCancelled analysisId w).
  { inversion H; subst. exists 0%nat, "Analysis cancelled by user".
    split; [lia |]. split; [reflexivity | now left]. }
  destruct (shouldSkip (item_name item)); [eauto |].
  destruct (isDir item).
  - destruct (recurse (item_path item) w) as [[[sub | m] w1] |] eqn:E;
      [eauto | | discriminate].
    inversion H; subst. eauto.
  - destruct (reasonableSize item); eauto.
Qed.

Lemma crawl_thrown fuel :
  forall path depth w message w',
    crawl fuel env owner repo path githubToken analysisId depth maxDepth w
    = Some (Throw message, w') ->
    exists j cause,
      (1 <= j <= fuel)%nat /\ message = wrapped j cause /\ Cause cause.
Proof.
  induction fuel as [| fuel IH]; intros path depth w message w' H;
    [discriminate |].
  rewrite crawl_step in H.
  apply rethrow_throw in H as (m0 & H & ->).
  assert (Hwrap : (exists j cause,
                      (j <= fuel)%nat /\ m0 = wrapped j cause /\
                      Cause cause) ->
                  exists j cause,
                    (1 <= j <= S fuel)%nat /\
                    ("GitHub API error: " ++ m0)%string = wrapped j cause /\
                    Cause cause).
  { intros (j & cause & Hj & -> & Hcause).
    exists (S j), cause. split; [lia |]. split; [reflexivity | exact Hcause]. }
  apply Hwrap. clear Hwrap.
  destruct (isCancelled analysisId w).
  { inversion H; subst. exists 0%nat, "Analysis cancelled by user".
    split; [lia |]. split; [reflexivity | now left]. }
  cbv zeta in H.
  destruct (maxDepth <? depth); [discriminate |].
  destruct (axios_get _ _ _ _ _ _) as [reply w2] eqn:Hget.
  apply axios_get_reply in Hget.
  destruct reply as [items | m].
  - destruct (forItems _ _ _ _ _ _) as [[[ch | m] w3] |] eqn:Hloop;
      [discriminate | | discriminate].
    inversion H; subst.
    eapply forItems_thrown; [| exact Hloop].
    intros p w0 m1 w0' Hrec.
    destruct (IH _ _ _ _ _ Hrec) as (j & cause & Hj & Hm & Hc).
    exists j, cause. split; [lia | auto].
  - inversion H; subst.
    exists 0%nat, m0. split; [lia |]. split; [reflexivity |].
    right. eauto.
Qed.

End Errors.

(** X15.  What a crawl throws is the cancellation or the message of a
    failed listing, wrapped in [GitHub API error: ] once for each level of
    the recursion it passes: at least once, and at most as many times as
    there are levels from the depth of the call to the depth limit. *)
Theorem crawl_error_message env owner repo path githubToken analysisId depth
    maxDepth w message w' :
  buildFileTreeWithCancellation env owner repo path githubToken analysisId
                                depth maxDepth w
  = Some (Throw message, w') ->
  exists j cause,
    (1 <= j <= levels depth maxDepth)%nat /\
    message = wrapped j cause /\
    (cause = "Analysis cancelled by user" \/
     exists p, upstream env owner repo p githubToken = Failed cause).
Proof.
  intros H. apply crawl_thrown in H. exact H.
Qed.

Lemma crawl_error_message_witness :
  exists message w',
    buildFileTreeWithCancellation
      (repository [("", [dir "src" "src"])] quiet)
      "acme" "widgets" "" None None 0 3 emptyWorld
    = Some (Throw message, w') /\
    message = wrapped 2 "Request failed with status code 404".
Proof.
  destruct (buildFileTreeWithCancellation
              (repository [("", [dir "src" "src"])] quiet)
              "acme" "widgets" "" None None 0 3 emptyWorld)
    as [[[tree | message] w'] |] eqn:E;
    try (vm_compute in E; discriminate).
  exists message, w'. split; [reflexivity |].
  destruct (crawl_error_message _ _ _ _ _ _ _ _ _ _ _ E)
    as (j & cause & _ & _ & _).
  vm_compute in E. inversion E. reflexivity.
Defined.

(** ** Which names are skipped *)

Lemma matchHere_star cls re s :
  Regex.matchHere (Regex.Star cls :: re) s
  = Regex.matchHere re s
    || match s with
       | String c rest =>
           Regex.accepts cls c && Regex.matchHere (Regex.Star cls :: re) rest
       | EmptyString => false
       end.
Proof. destruct s; reflexivity. Qed.

Lemma matchHere_star_inv cls re s :
  Regex.matchHere (Regex.Star cls :: re) s = true ->
  exists mid rest,
    s = (mid ++ rest)%string /\ Regex.matchHere re rest = true.
Proof.
  induction s as [| c s IH]; rewrite matchHere_star; intros H.
  - rewrite orb_false_r in H. exists EmptyString, EmptyString. auto.
  - apply orb_true_iff in H as [H | H].
    + exists EmptyString, (String c s). auto.
    + apply andb_true_iff in H as [_ H].
      destruct (IH H) as (mid & rest & -> & Hrest).
      exists (String c mid), rest. auto.
Qed.

Lemma test_iff re s :
  Regex.test re s = true <->
  exists before rest,
    s = (before ++ rest)%string /\ Regex.matchHere re rest = true.
Proof.
  induction s as [| c s IH]; simpl.
  - rewrite orb_false_r. split.
    + intros H. exists EmptyString, EmptyString. auto.
    + intros (before & rest & Hs & H).
      destruct before; [| discriminate]. simpl in Hs. now subst rest.
  - rewrite orb_true_iff, IH. split.
    + intros [H | (before & rest & -> & H)].
      * exists EmptyString, (String c s). auto.
      * exists (String c before), rest. auto.
    + intros (before & rest & Hs & H).
      destruct before as [| b before]; simpl in Hs.
      * left. now subst rest.
      * right. inversion Hs; subst. eauto.
Qed.

(** [name] holds [core] after a character that is no line terminator. *)
Definition holdsAfterChar (core name : string) : Prop :=
  exists before c after,
    name = (before ++ String c (core ++ after))%string /\
    Regex.lineTerminator c = false.

(** [name] holds [min], another character and [tail], after a character,
    neither character being a line terminator. *)
Definition holdsMin (tail name : string) : Prop :=
  exists before c c' after,
    name = (before ++ String c ("min" ++ String c' (tail ++ after)))%string /\
    Regex.lineTerminator c = false /\ Regex.lineTerminator c' = false.

Lemma lit_inv c re s :
  Regex.matchHere (Regex.One (Regex.Lit c) :: re) s = true <->
  exists rest, s = String c rest /\ Regex.matchHere re rest = true.
Proof.
  destruct s as [| a s]; simpl.
  - split; [discriminate | intros (rest & H & _); discriminate].
  - rewrite andb_true_iff, Ascii.eqb_eq. split.
    + intros [-> H]. eauto.
    + intros (rest & Hs & H). inversion Hs; subst. auto.
Qed.

Lemma any_inv re s :
  Regex.matchHere (Regex.One Regex.AnyChar :: re) s = true <->
  exists c rest,
    s = String c rest /\ Regex.lineTerminator c = false /\
    Regex.matchHere re rest = true.
Proof.
  destruct s as [| a s]; simpl.
  - split; [discriminate | intros (c & rest & H & _); discriminate].
  - rewrite andb_true_iff, negb_true_iff. split.
    + intros [Ha H]. eauto.
    + intros (c & rest & Hs & Hc & H). inversion Hs; subst. auto.
Qed.

Lemma star_any_empty re s :
  Regex.matchHere re s = true ->
  Regex.matchHere (Regex.Star Regex.AnyChar :: re) s = true.
Proof.
  intros H. rewrite matchHere_star, H. reflexivity.
Qed.

Ltac peel H :=
  repeat first
    [ apply lit_inv in H; destruct H as (?rest & -> & H)
    | apply any_inv in H; destruct H as (?c & ?rest & -> & ?Hc & H) ].

Lemma wildcard_simple (core name : string) (re : list Regex.Atom) :
  (forall s,
      Regex.matchHere re s = true <-> exists after, s = (core ++ after)%string) ->
  Regex.test (Regex.Star Regex.AnyChar :: Regex.One Regex.AnyChar :: re) name
  = true
  <-> holdsAfterChar core name.
Proof.
  intros Hre. rewrite test_iff. split.
  - intros (before & rest & -> & H).
    apply matchHere_star_inv in H as (mid & rest' & -> & H).
    apply any_inv in H as (c & rest & -> & Hc & H).
    apply Hre in H as (after & ->).
    exists (before ++ mid)%string, c, after.
    split; [now rewrite string_app_assoc | exact Hc].
  - intros (before & c & after & -> & Hc).
    exists before, (String c (core ++ after)). split; [reflexivity |].
    apply star_any_empty, any_inv.
    exists c, (core ++ after)%string. repeat split; auto.
    apply Hre. eauto.
Qed.

Lemma literal_log s :
  Regex.matchHere (Regex.parse "log") s = true
  <-> exists after, s = ("log" ++ after)%string.
Proof.
  simpl Regex.parse. split.
  - intros H. peel H. eexists. reflexivity.
  - intros (after & ->). reflexivity.
Qed.

Lemma literal_lock s :
  Regex.matchHere (Regex.parse "lock") s = true
  <-> exists after, s = ("lock" ++ after)%string.
Proof.
  simpl Regex.parse. split.
  - intros H. peel H. eexists. reflexivity.
  - intros (after & ->). reflexivity.
Qed.

Lemma literal_map s :
  Regex.matchHere (Regex.parse "map") s = true
  <-> exists after, s = ("map" ++ after)%string.
Proof.
  simpl Regex.parse. split.
  - intros H. peel H. eexists. reflexivity.
  - intros (after & ->). reflexivity.
Qed.

Lemma wildcard_min (tail name : string) (re : list Regex.Atom) :
  (forall s,
      Regex.matchHere re s = true <-> exists after, s = (tail ++ after)%string) ->
  Regex.test (Regex.Star Regex.AnyChar :: Regex.One Regex.AnyChar
                :: Regex.parse "min" ++ Regex.One Regex.AnyChar :: re) name
  = true
  <-> holdsMin tail name.
Proof.
  intros Hre. rewrite test_iff. split.
  - intros (before & rest & -> & H).
    apply matchHere_star_inv in H as (mid & rest' & -> & H).
    simpl Regex.parse in H. simpl app in H. peel H.
    apply Hre in H as (after & ->).
    exists (before ++ mid)%string, c, c0, after.
    split; [now rewrite string_app_assoc | auto].
  - intros (before & c & c' & after & -> & Hc & Hc').
    eexists before, _. split; [reflexivity |].
    apply star_any_empty, any_inv.
    eexists c, _. repeat split; auto.
    simpl Regex.parse. simpl app.
    apply lit_inv; eexists; split; [reflexivity |].
    apply lit_inv; eexists; split; [reflexivity |].
    apply lit_inv; eexists; split; [reflexivity |].
    apply any_inv. eexists c', _. repeat split; auto.
    apply Hre. eauto.
Qed.

Lemma literal_js s :
  Regex.matchHere (Regex.parse "js") s = true
  <-> exists after, s = ("js" ++ after)%string.
Proof.
  simpl Regex.parse. split.
  - intros H. peel H. eexists. reflexivity.
  - intros (after & ->). reflexivity.
Qed.

Lemma literal_css s :
  Regex.matchHere (Regex.parse "css") s = true
  <-> exists after, s = ("css" ++ after)%string.
Proof.
  simpl Regex.parse. split.
  - intros H. peel H. eexists. reflexivity.
  - intros (after & ->). reflexivity.
Qed.

(** X16.  The names that the crawler skips: the ten names of directories,
    as they are written; and, the wildcard patterns being expressions that
    match anywhere in a name and whose dot stands for any character, every
    name that holds [log], [lock] or [map] after some character, or [min],
    a character and [js] or [css] after some character.  So [error.log] is
    skipped, and so are [catalog.json] and [sitemap.xml]. *)
Theorem shouldSkip_iff (name : string) :
  shouldSkip name = true <->
  In name [ "node_modules"; ".git"; "dist"; "build"; ".next"; ".nuxt";
            "coverage"; ".nyc_output"; ".cache"; ".parcel-cache" ] \/
  holdsAfterChar "log" name \/ holdsAfterChar "lock" name \/
  holdsMin "js" name \/ holdsMin "css" name \/
  holdsAfterChar "map" name.
Proof.
  unfold shouldSkip, skipPatterns. cbn [existsb].
  rewrite orb_false_r. repeat rewrite orb_true_iff.
  unfold patternMatches. cbn [includes Ascii.eqb Bool.eqb orb].
  repeat rewrite String.eqb_eq.
  change (Regex.parse (replace_first "*" ".*" "*.log"))
    with (Regex.Star Regex.AnyChar :: Regex.One Regex.AnyChar
            :: Regex.parse "log").
  change (Regex.parse (replace_first "*" ".*" "*.lock"))
    with (Regex.Star Regex.AnyChar :: Regex.One Regex.AnyChar
            :: Regex.parse "lock").
  change (Regex.parse (replace_first "*" ".*" "*.map"))
    with (Regex.Star Regex.AnyChar :: Regex.One Regex.AnyChar
            :: Regex.parse "map").
  change (Regex.parse (replace_first "*" ".*" "*.min.js"))
    with (Regex.Star Regex.AnyChar :: Regex.One Regex.AnyChar
            :: Regex.parse "min" ++ Regex.One Regex.AnyChar
            :: Regex.parse "js").
  change (Regex.parse (replace_first "*" ".*" "*.min.css"))
    with (Regex.Star Regex.AnyChar :: Regex.One Regex.AnyChar
            :: Regex.parse "min" ++ Regex.One Regex.AnyChar
            :: Regex.parse "css").
  rewrite (wildcard_simple "log" name _ literal_log).
  rewrite (wildcard_simple "lock" name _ literal_lock).
  rewrite (wildcard_simple "map" name _ literal_map).
  rewrite (wildcard_min "js" name _ literal_js).
  rewrite (wildcard_min "css" name _ literal_css).
  cbn [In]. intuition (subst; auto).
Qed.

(** ** The percentage on binary64 numbers

    Line 69 and line 72 compute on the numbers of JavaScript, which are
    binary64.  [progressFloat] is that computation, operation by operation;
    [Math.round] is taken on the exact value of the minimum. *)

Definition float_of_Z (n : Z) : PrimFloat.float :=
  PrimFloat.of_uint63 (Uint63.of_Z n).

(** The exact value of a finite number. *)
Definition Q_of_float (x : PrimFloat.float) : option Q :=
  match FloatOps.Prim2SF x with
  | SpecFloat.S754_zero _ => Some 0%Q
  | SpecFloat.S754_finite negative m e =>
      let magnitude := (inject_Z (Zpos m) * Qpower 2 e)%Q in
      Some (if negative then (- magnitude)%Q else magnitude)
  | _ => None
  end.

(** [Math.min] of two numbers, neither being [NaN]. *)
Definition float_min (x y : PrimFloat.float) : PrimFloat.float :=
  if PrimFloat.ltb x y then x else y.

Definition progressFloat (depth maxDepth : Z) : option Z :=
  let ratio := PrimFloat.div (float_of_Z depth) (float_of_Z maxDepth) in
  let percent := PrimFloat.mul ratio (float_of_Z 100) in
  option_map js_round (Q_of_float (float_min percent (float_of_Z 100))).

Definition agrees (depth maxDepth : Z) : bool :=
  match progressFloat depth maxDepth with
  | Some p => p =? progressPercent depth maxDepth
  | None => false
  end.

Lemma agrees_on_grid :
  forallb (fun m => forallb (fun d => agrees (Z.of_nat d) (Z.of_nat m))
                            (seq 1 21))
          (seq 1 20)
  = true.
Proof. vm_compute. reflexivity. Qed.

(** X17.  For every depth limit that the route allows, 1 to 20, and every
    depth that a crawl reaches under it, 1 to 21, the percentage computed
    on binary64 numbers is the one computed on rationals: rounding errors
    of the division and the product never change the rounded result. *)
Theorem progressFloat_exact (depth maxDepth : Z) :
  1 <= maxDepth <= 20 -> 1 <= depth <= 21 ->
  progressFloat depth maxDepth = Some (progressPercent depth maxDepth).
Proof.
  intros Hm Hd.
  pose proof agrees_on_grid as H. rewrite forallb_forall in H.
  specialize (H (Z.to_nat maxDepth)).
  rewrite in_seq, forallb_forall in H.
  specialize (H ltac:(lia) (Z.to_nat depth)).
  rewrite in_seq, !Z2Nat.id in H by lia.
  specialize (H ltac:(lia)). unfold agrees in H.
  destruct (progressFloat depth maxDepth) as [p |]; [| discriminate].
  apply Z.eqb_eq in H. now subst p.
Qed.

Lemma progressFloat_exact_witness :
  progressFloat 1 3 = Some 33 /\ progressFloat 5 8 = Some 63.
Proof.
  split.
  - refine (progressFloat_exact 1 3 _ _); lia.
  - refine (progressFloat_exact 5 8 _ _); lia.
Defined.

(** Beyond the depth limits that the route allows, the computation on
    binary64 numbers and the formula part: at depth 23 under the limit 40
    the quotient [23 / 40] times 100 falls just below 57.5. *)
Lemma percentage_beyond_the_limits :
  progressFloat 23 40 = Some 57 /\ specProgress 23 40 = 58.
Proof. split; vm_compute; reflexivity. Qed.


(** ** The sessions that a crawl stores *)






Section Calls.

Variable env : Env.
Variables owner repo : string.
Variables githubToken analysisId : option string.
Variable id : string.
Variable maxDepth : Z.

Hypothesis own : truthyId analysisId = Some id.

Abbreviation percent := (fun depth => progressPercent depth maxDepth).










End Calls.




(** ** The statistics of a tree (contexts/AuthContext.tsx, lines 912-941)

    The page that shows a tree computes its statistics by a walk of its
    own, [traverse], which counts the levels from the root and does not
    read the [depth] fields. *)

Module TreeStats.

Record Stats : Type := mkStats {
  totalFiles : Z;
  totalFolders : Z;
  maxDepth : Z;
  totalSize : Z;
  truncatedFolders : Z
}.

(** [stats.maxDepth = Math.max(stats.maxDepth, depth)] *)
Definition reach (depth : Z) (stats : Stats) : Stats :=
  mkStats (totalFiles stats) (totalFolders stats)
          (Z.max (maxDepth stats) depth) (totalSize stats)
          (truncatedFolders stats).

(** The branch of a file: [if (node.size)] leaves the sum alone for a size
    of zero. *)
Definition countFile (size : Z) (stats : Stats) : Stats :=
  mkStats (totalFiles stats + 1) (totalFolders stats) (maxDepth stats)
          (if size =? 0 then totalSize stats else totalSize stats + size)
          (truncatedFolders stats).

(** The branch of a folder, before its children. *)
Definition countFolder (truncated : option bool) (stats : Stats) : Stats :=
  mkStats (totalFiles stats) (totalFolders stats + 1) (maxDepth stats)
          (totalSize stats)
          (match truncated with
           | Some true => truncatedFolders stats + 1
           | _ => truncatedFolders stats
           end).

Fixpoint traverse (node : FileTreeNode) (depth : Z) (stats : Stats)
  : Stats :=
  let stats := reach depth stats in
  match node with
  | File _ _ _ size _ => countFile size stats
  | Folder _ _ children _ truncated _ =>
      (fix forEach (l : list FileTreeNode) (stats : Stats) : Stats :=
         match l with
         | [] => stats
         | child :: l' => forEach l' (traverse child (depth + 1) stats)
         end) children (countFolder truncated stats)
  end.

(** [traverse(data)] on the initial statistics. *)
Definition repoStats (data : FileTreeNode) : Stats :=
  traverse data 0 (mkStats 0 0 0 0 0).

End TreeStats.

(** The number of the nodes of [l] that satisfy [f]. *)
Definition count (f : FileTreeNode -> bool) (l : list FileTreeNode) : Z :=
  Z.of_nat (List.length (filter f l)).

Definition node_size (n : FileTreeNode) : Z :=
  match n with
  | File _ _ _ size _ => size
  | Folder _ _ _ _ _ _ => 0
  end.

Definition sizeSum (l : list FileTreeNode) : Z :=
  fold_right (fun n acc => node_size n + acc) 0 l.

Definition isTruncated (n : FileTreeNode) : bool :=
  match node_truncated n with Some true => true | _ => false end.

(** The level of the deepest node of a tree whose root is at [level]. *)
Fixpoint deepest (n : FileTreeNode) (level : Z) : Z :=
  match n with
  | File _ _ _ _ _ => level
  | Folder _ _ children _ _ _ =>
      (fix over (l : list FileTreeNode) : Z :=
         match l with
         | [] => level
         | child :: l' => Z.max (deepest child (level + 1)) (over l')
         end) children
  end.

Definition deepestOf (l : list FileTreeNode) (level : Z) : Z :=
  fold_right (fun child acc => Z.max (deepest child (level + 1)) acc) level l.

Lemma deepest_folder name path children depth truncated message level :
  deepest (Folder name path children depth truncated message) level
  = deepestOf children level.
Proof.
  unfold deepestOf. simpl.
  induction children as [| c l IH]; simpl; [reflexivity | now rewrite IH].
Qed.

Lemma deepest_ge n level : level <= deepest n level.
Proof.
  destruct n as [| name path children d t m]; simpl; [lia |].
  induction children as [| c l IH]; simpl; lia.
Qed.

(** Induction on trees, the children of a folder being covered. *)
Fixpoint FileTreeNode_induction (P : FileTreeNode -> Prop)
    (Hfile : forall name path url size depth,
        P (File name path url size depth))
    (Hfolder : forall name path children depth truncated message,
        Forall P children ->
        P (Folder name path children depth truncated message))
    (n : FileTreeNode) : P n :=
  match n with
  | File name path url size depth => Hfile name path url size depth
  | Folder name path children depth truncated message =>
      Hfolder name path children depth truncated message
        ((fix all (l : list FileTreeNode) : Forall P l :=
            match l with
            | [] => Forall_nil P
            | c :: l' =>
                Forall_cons c (FileTreeNode_induction P Hfile Hfolder c)
                            (all l')
            end) children)
  end.

Lemma count_app f l1 l2 : count f (l1 ++ l2) = count f l1 + count f l2.
Proof.
  unfold count. rewrite filter_app, length_app. lia.
Qed.

Lemma sizeSum_app l1 l2 : sizeSum (l1 ++ l2) = sizeSum l1 + sizeSum l2.
Proof.
  unfold sizeSum. induction l1 as [| n l1 IH]; simpl; lia.
Qed.

(** What the walk of a tree adds to the statistics. *)
Definition added (l : list FileTreeNode) (deep : Z)
    (stats : TreeStats.Stats) : TreeStats.Stats :=
  TreeStats.mkStats
    (TreeStats.totalFiles stats + count is_file l)
    (TreeStats.totalFolders stats + count (fun n => negb (is_file n)) l)
    (Z.max (TreeStats.maxDepth stats) deep)
    (TreeStats.totalSize stats + sizeSum l)
    (TreeStats.truncatedFolders stats + count isTruncated l).

Lemma traverse_folder name path children depth truncated message level
    stats :
  TreeStats.traverse (Folder name path children depth truncated message)
                     level stats
  = fold_left (fun s child => TreeStats.traverse child (level + 1) s)
              children
              (TreeStats.countFolder truncated (TreeStats.reach level stats)).
Proof.
  simpl.
  generalize (TreeStats.countFolder truncated (TreeStats.reach level stats)).
  induction children as [| c l IH]; intros s; simpl; [reflexivity | apply IH].
Qed.

Lemma deepestOf_ge l level : level <= deepestOf l level.
Proof.
  unfold deepestOf. induction l as [| c l IH]; simpl; lia.
Qed.

Lemma added_added l1 l2 deep1 deep2 stats :
  added l2 deep2 (added l1 deep1 stats)
  = added (l1 ++ l2) (Z.max deep1 deep2) stats.
Proof.
  unfold added. simpl. rewrite !count_app, sizeSum_app.
  f_equal; lia.
Qed.

Lemma traverse_added (n : FileTreeNode) :
  forall level stats,
    TreeStats.traverse n level stats
    = added (nodes n) (deepest n level) stats.
Proof.
  induction n as [name path url size depth
                 | name path children depth truncated message IH]
    using FileTreeNode_induction; intros level stats.
  - unfold added, count, sizeSum. simpl.
    unfold TreeStats.countFile. simpl.
    f_equal; try lia. destruct (size =? 0) eqn:E; [| lia].
    apply Z.eqb_eq in E. lia.
  - rewrite traverse_folder, nodes_folder, deepest_folder.
    assert (Hfirst :
              TreeStats.countFolder truncated (TreeStats.reach level stats)
              = added [Folder name path children depth truncated message]
                      level stats).
    { unfold added, count, sizeSum, isTruncated. simpl.
      unfold TreeStats.countFolder. simpl.
      f_equal; try lia. destruct truncated as [[|] |]; simpl; lia. }
    rewrite Hfirst. clear Hfirst.
    change (Folder name path children depth truncated message
              :: flat_map nodes children)
      with ([Folder name path children depth truncated message]
              ++ flat_map nodes children).
    replace (deepestOf children level)
      with (Z.max level (deepestOf children level))
      by (pose proof (deepestOf_ge children level); lia).
    assert (Hlevel : level <= level) by lia. revert Hlevel.
    generalize level at 2 4 5 as deep.
    generalize [Folder name path children depth truncated message].
    induction IH as [| c l Hc _ IHl]; intros seen deep Hdeep.
    + simpl. rewrite app_nil_r. f_equal. lia.
    + cbn [fold_left flat_map]. rewrite Hc, added_added, IHl.
      * rewrite <- app_assoc. f_equal.
        unfold deepestOf. cbn [fold_right]. fold (deepestOf l level). lia.
      * pose proof (deepest_ge c (level + 1)). lia.
Qed.

Lemma count_split f l :
  count f l + count (fun n => negb (f n)) l = Z.of_nat (List.length l).
Proof.
  unfold count. induction l as [| n l IH]; cbn [filter]; [reflexivity |].
  destruct (f n); cbn [negb Datatypes.length];
    rewrite !Nat2Z.inj_succ; lia.
Qed.

(** X18.  The statistics of a tree are an inventory of its nodes: the
    files and the folders are each counted once, the sizes of the files are
    summed, the folders marked as truncated are counted, and [maxDepth] is
    the number of levels below the root. *)
Theorem repoStats_inventory (data : FileTreeNode) :
  TreeStats.totalFiles (TreeStats.repoStats data)
  = count is_file (nodes data) /\
  TreeStats.totalFolders (TreeStats.repoStats data)
  = count (fun n => negb (is_file n)) (nodes data) /\
  TreeStats.totalFiles (TreeStats.repoStats data)
  + TreeStats.totalFolders (TreeStats.repoStats data)
  = Z.of_nat (List.length (nodes data)) /\
  TreeStats.totalSize (TreeStats.repoStats data) = sizeSum (nodes data) /\
  TreeStats.truncatedFolders (TreeStats.repoStats data)
  = count isTruncated (nodes data) /\
  TreeStats.maxDepth (TreeStats.repoStats data) = deepest data 0.
Proof.
  unfold TreeStats.repoStats. rewrite traverse_added. unfold added. simpl.
  repeat split.
  - apply count_split.
  - pose proof (deepest_ge data 0). lia.
Qed.

Lemma deepest_folderChild item subTree depth level :
  deepest (folderChild item subTree depth) level = deepest subTree level.
Proof.
  unfold folderChild. rewrite deepest_folder.
  destruct subTree; [reflexivity | now rewrite deepest_folder].
Qed.

Lemma Unfolds_deepest env owner repo githubToken maxDepth depth path tree :
  Unfolds env owner repo githubToken maxDepth depth path tree ->
  forall level,
    deepest tree level <= level + Z.max 0 (maxDepth + 1 - depth).
Proof.
  intros H.
  induction H using Unfolds_mut with
    (P := fun d p t _ =>
            forall level, deepest t level <= level + Z.max 0 (maxDepth + 1 - d))
    (P0 := fun d items ch _ =>
             d <= maxDepth ->
             forall level,
               deepestOf ch level <= level + (maxDepth + 1 - d)).
  - intros level. unfold truncatedFolder. simpl. lia.
  - intros level. rewrite deepest_folder. specialize (IHUnfolds l level). lia.
  - intros Hd level. unfold deepestOf. simpl. lia.
  - auto.
  - intros Hd level. unfold deepestOf. cbn [fold_right].
    fold (deepestOf children level). rewrite deepest_folderChild.
    specialize (IHUnfolds (level + 1)). specialize (IHUnfolds0 Hd level).
    lia.
  - intros Hd level. unfold deepestOf. cbn [fold_right].
    fold (deepestOf children level).
    specialize (IHUnfolds Hd level). simpl. lia.
  - auto.
Qed.

Lemma sizeSum_bound (bound : Z) (l : list FileTreeNode) :
  0 <= bound ->
  (forall name p url size d,
      In (File name p url size d) l -> size <= bound) ->
  sizeSum l <= bound * count is_file l.
Proof.
  intros Hb. unfold count, sizeSum.
  induction l as [| n l IH]; intros Hall; cbn [fold_right filter];
    [simpl; lia |].
  assert (IH' := IH (fun name p url size d Hin =>
                       Hall name p url size d (or_intror Hin))).
  destruct n as [name p url size d | name p ch d t m];
    cbn [is_file node_size Datatypes.length].
  - specialize (Hall name p url size d (or_introl eq_refl)).
    rewrite Nat2Z.inj_succ. lia.
  - lia.
Qed.

Lemma count_cons f n l :
  count f (n :: l) = (if f n then 1 else 0) + count f l.
Proof.
  unfold count. cbn [filter]. destruct (f n); [| lia].
  cbn [Datatypes.length]. rewrite Nat2Z.inj_succ. lia.
Qed.

Lemma folders_listed_or_truncated (l : list FileTreeNode) :
  count (fun n => negb (is_file n)) l = count listed l + count isTruncated l.
Proof.
  induction l as [| n l IH]; [reflexivity |].
  rewrite !count_cons, IH.
  destruct n as [name p url size d | name p ch d [[|] |] m];
    unfold listed, isTruncated; cbn [is_file negb node_truncated andb].
  all: lia.
Qed.

(** X19.  The statistics shown for the tree of an analysis: [maxDepth] is
    at most the depth limit plus one; the total size is below 1 MiB for
    each file counted; and the folders that are not truncated are as many
    as the requests that the crawl made. *)
Theorem statistics_of_a_crawl env owner repo path githubToken analysisId
    maxDepth w tree w' :
  buildFileTreeWithCancellation env owner repo path githubToken analysisId
                                0 maxDepth w
  = Some (Ok tree, w') ->
  TreeStats.maxDepth (TreeStats.repoStats tree) <= Z.max 0 (maxDepth + 1) /\
  TreeStats.totalSize (TreeStats.repoStats tree)
  <= 1048575 * TreeStats.totalFiles (TreeStats.repoStats tree) /\
  TreeStats.totalFolders (TreeStats.repoStats tree)
  - TreeStats.truncatedFolders (TreeStats.repoStats tree)
  = Z.of_nat (List.length (requested w'))
    - Z.of_nat (List.length (requested w)).
Proof.
  intros H. unfold TreeStats.repoStats. rewrite traverse_added.
  unfold added. cbn [TreeStats.maxDepth TreeStats.totalSize
                     TreeStats.totalFiles TreeStats.totalFolders
                     TreeStats.truncatedFolders].
  split; [| split].
  - pose proof (Unfolds_deepest _ _ _ _ _ _ _ _ (crawl_unfolds _ _ _ _ _ _ _ _ _ _ _ _ H) 0).
    lia.
  - rewrite !Z.add_0_l. apply sizeSum_bound; [lia |].
    intros name p url size d Hn.
    destruct (file_node_origin _ _ _ _ _ _ _ _ _ _ _ H _ _ _ _ _ Hn)
      as (parent & items & item & _ & _ & _ & Hsize & _).
    apply reasonableSize_some in Hsize. lia.
  - rewrite !Z.add_0_l, folders_listed_or_truncated.
    destruct (crawl_answered _ _ _ _ _ _ _ _ _ _ _ _ H)
      as (_ & paths & Hreq & Hlen & _).
    rewrite Hreq, length_app, Nat2Z.inj_add, Hlen.
    unfold listings, count. lia.
Qed.

Lemma statistics_of_a_crawl_witness :
  exists tree w',
    buildFileTreeWithCancellation (repository widgets quiet) "acme"
                                  "widgets" "" None None 0 1 emptyWorld
    = Some (Ok tree, w') /\
    TreeStats.repoStats tree = TreeStats.mkStats 2 3 2 210 1 /\
    TreeStats.maxDepth (TreeStats.repoStats tree) <= Z.max 0 (1 + 1).
Proof.
  destruct (buildFileTreeWithCancellation (repository widgets quiet)
              "acme" "widgets" "" None None 0 1 emptyWorld)
    as [[[tree | m] w'] |] eqn:E;
    try (vm_compute in E; discriminate).
  exists tree, w'. split; [reflexivity |].
  pose proof (proj1 (statistics_of_a_crawl _ _ _ _ _ _ _ _ _ _ E)) as Hmax.
  vm_compute in E. inversion E; subst tree w'.
  split; [reflexivity | exact Hmax].
Defined.

(** ** The store of the analysed repositories (models/Repository.js)

    [Repository] keeps the saved trees.  Its functions are modelled on the
    fallback storage, the branch [database.isUsingFallback()]: an object
    with the counter [repoIdCounter] and the [Map] [repositories], keyed by
    numbers.  The other branch hands the work to a database. *)

(** [parseInt(string)] with no radix: white space is skipped, a sign is
    read, [0x] announces hexadecimal digits, and the longest run of digits
    is the number; with no digit the result is [NaN], here [None]. *)
Module ParseInt.

Definition isWhiteSpace (c : ascii) : bool :=
  let n := nat_of_ascii c in
  ((9 <=? n) && (n <=? 13) || (n =? 32) || (n =? 160))%nat.

Fixpoint trimStart (s : string) : string :=
  match s with
  | String c rest => if isWhiteSpace c then trimStart rest else s
  | EmptyString => s
  end.

Definition digitValue (c : ascii) : option Z :=
  let n := Z.of_nat (nat_of_ascii c) in
  if (48 <=? n) && (n <=? 57) then Some (n - 48)
  else if (97 <=? n) && (n <=? 122) then Some (n - 87)
  else if (65 <=? n) && (n <=? 90) then Some (n - 55)
  else None.

(** The value of the longest run of digits at the head of [s], [acc] being
    the value read so far. *)
Fixpoint digits (radix : Z) (s : string) (acc : option Z) : option Z :=
  match s with
  | String c rest =>
      match digitValue c with
      | Some v =>
          if v <? radix
          then digits radix rest (Some (match acc with
                                        | Some a => a * radix + v
                                        | None => v
                                        end))
          else acc
      | None => acc
      end
  | EmptyString => acc
  end.

Definition parseInt (s : string) : option Z :=
  let s1 := trimStart s in
  let (negative, s2) :=
    match s1 with
    | String "-"%char rest => (true, rest)
    | String "+"%char rest => (false, rest)
    | _ => (false, s1)
    end in
  let (radix, s3) :=
    match s2 with
    | String "0"%char (String x rest) =>
        if Ascii.eqb x "x"%char || Ascii.eqb x "X"%char
        then (16, rest) else (10, s2)
    | _ => (10, s2)
    end in
  match digits radix s3 None with
  | Some n => Some (if negative then - n else n)
  | None => None
  end.

End ParseInt.

(** [a === b] on numbers: [NaN] equals nothing, itself included. *)
Definition sameNumber (a b : option Z) : bool :=
  match a, b with
  | Some x, Some y => x =? y
  | _, _ => false
  end.

(** A [Map] keyed by numbers, in insertion order. *)
Module NumMap.

Definition t (V : Type) : Type := list (Z * V).

Fixpoint get {V} (k : Z) (m : t V) : option V :=
  match m with
  | [] => None
  | (k', v) :: m' => if k' =? k then Some v else get k m'
  end.

Fixpoint set {V} (k : Z) (v : V) (m : t V) : t V :=
  match m with
  | [] => [(k, v)]
  | (k', v') :: m' =>
      if k' =? k then (k', v) :: m' else (k', v') :: set k v m'
  end.

Fixpoint delete {V} (k : Z) (m : t V) : t V :=
  match m with
  | [] => []
  | (k', v') :: m' =>
      if k' =? k then delete k m' else (k', v') :: delete k m'
  end.

(** [m.values()] *)
Definition values {V} (m : t V) : list V := List.map snd m.

End NumMap.

Module RepositoryModel.

(** A saved repository; [created_at] is the time of [new Date()] in
    milliseconds. *)
Record Repo : Type := mkRepo {
  id : Z;
  user_id : option Z;
  repo_url : string;
  repo_data : FileTreeNode;
  created_at : Z
}.

(** [database.getFallbackStorage()] *)
Record Storage : Type := mkStorage {
  repoIdCounter : Z;
  repositories : NumMap.t Repo
}.

(** Lines 8-18; [now] is the time at line 15. *)
Definition create (userId repoUrl : string) (repoData : FileTreeNode)
    (now : Z) (storage : Storage) : Repo * Storage :=
  let repoId := repoIdCounter storage in
  let repository :=
    mkRepo repoId (ParseInt.parseInt userId) repoUrl repoData now in
  (repository,
   mkStorage (repoIdCounter storage + 1)
             (NumMap.set repoId repository (repositories storage))).

(** The place of [a] in a list that is sorted by
    [(a, b) => b.created_at - a.created_at]: behind the entries that are
    newer, before the others. *)
Fixpoint insert (a : Repo) (sorted : list Repo) : list Repo :=
  match sorted with
  | [] => [a]
  | b :: rest =>
      if created_at a <? created_at b then b :: insert a rest
      else a :: sorted
  end.

(** [list.sort((a, b) => b.created_at - a.created_at)]: newest first, and
    entries of the same time in the order they had. *)
Definition sortNewestFirst (l : list Repo) : list Repo :=
  fold_right insert [] l.

(** Lines 44-51. *)
Definition findByUserId (userId : string) (storage : Storage) : list Repo :=
  sortNewestFirst
    (filter (fun repo =>
               sameNumber (user_id repo) (ParseInt.parseInt userId))
            (NumMap.values (repositories storage))).

(** Lines 73-79. *)
Definition deleteById (userId repoId : string) (storage : Storage)
  : bool * Storage :=
  match ParseInt.parseInt repoId with
  | Some key =>
      match NumMap.get key (repositories storage) with
      | Some repo =>
          if sameNumber (user_id repo) (ParseInt.parseInt userId)
          then (true,
                mkStorage (repoIdCounter storage)
                          (NumMap.delete key (repositories storage)))
          else (false, storage)
      | None => (false, storage)
      end
  | None => (false, storage)
  end.

End RepositoryModel.


Module NumMapFacts.

Lemma num_get_set_same {V} (k : Z) (v : V) (m : NumMap.t V) :
  NumMap.get k (NumMap.set k v m) = Some v.
Proof.
  induction m as [| [k' v'] m IH]; simpl.
  - now rewrite Z.eqb_refl.
  - destruct (k' =? k) eqn:E; simpl; rewrite E; auto.
Qed.

Lemma num_get_set_other {V} (k k' : Z) (v : V) (m : NumMap.t V) :
  k <> k' -> NumMap.get k' (NumMap.set k v m) = NumMap.get k' m.
Proof.
  intros Hk. induction m as [| [k0 v0] m IH]; simpl.
  - destruct (k =? k') eqn:E; [apply Z.eqb_eq in E; contradiction |].
    reflexivity.
  - destruct (k0 =? k) eqn:E; simpl.
    + apply Z.eqb_eq in E. subst k0.
      destruct (k =? k') eqn:E'; [apply Z.eqb_eq in E'; contradiction |].
      reflexivity.
    + now rewrite IH.
Qed.

Lemma num_get_delete_same {V} (k : Z) (m : NumMap.t V) :
  NumMap.get k (NumMap.delete k m) = None.
Proof.
  induction m as [| [k' v'] m IH]; simpl; [reflexivity |].
  destruct (k' =? k) eqn:E; simpl; [| rewrite E]; exact IH.
Qed.

Lemma num_get_delete_other {V} (k k' : Z) (m : NumMap.t V) :
  k <> k' -> NumMap.get k' (NumMap.delete k m) = NumMap.get k' m.
Proof.
  intros Hk. induction m as [| [k0 v0] m IH]; simpl; [reflexivity |].
  destruct (k0 =? k) eqn:E; simpl.
  - apply Z.eqb_eq in E. subst k0.
    destruct (k =? k') eqn:E'; [apply Z.eqb_eq in E'; contradiction |].
    exact IH.
  - now rewrite IH.
Qed.

Lemma num_set_fresh {V} (k : Z) (v : V) (m : NumMap.t V) :
  NumMap.get k m = None -> NumMap.set k v m = m ++ [(k, v)].
Proof.
  induction m as [| [k' v'] m IH]; simpl; [reflexivity |].
  destruct (k' =? k); [discriminate |].
  intros H. now rewrite IH.
Qed.

Lemma num_get_in {V} (k : Z) (v : V) (m : NumMap.t V) :
  NumMap.get k m = Some v -> In v (NumMap.values m).
Proof.
  induction m as [| [k' v'] m IH]; simpl; [discriminate |].
  destruct (k' =? k); [intros H; inversion H; auto | auto].
Qed.

Lemma num_delete_values {V} (k : Z) (m : NumMap.t V) (v : V) :
  In v (NumMap.values (NumMap.delete k m)) -> In v (NumMap.values m).
Proof.
  induction m as [| [k' v'] m IH]; simpl; [auto |].
  destruct (k' =? k); simpl; intuition.
Qed.

End NumMapFacts.

(** ** Sorting the repositories of a user *)

Definition newerFirst (a b : RepositoryModel.Repo) : Prop :=
  RepositoryModel.created_at b <= RepositoryModel.created_at a.

Lemma insert_perm a l :
  Permutation (RepositoryModel.insert a l) (a :: l).
Proof.
  induction l as [| b l IH]; simpl; [reflexivity |].
  destruct (RepositoryModel.created_at a <? RepositoryModel.created_at b);
    [| reflexivity].
  rewrite IH. apply perm_swap.
Qed.

Lemma sortNewestFirst_perm l :
  Permutation (RepositoryModel.sortNewestFirst l) l.
Proof.
  induction l as [| a l IH]; simpl; [reflexivity |].
  rewrite insert_perm. now constructor.
Qed.

Lemma insert_sorted a l :
  StronglySorted newerFirst l ->
  StronglySorted newerFirst (RepositoryModel.insert a l).
Proof.
  induction 1 as [| b l Hs IH Hall]; simpl.
  - repeat constructor.
  - destruct (RepositoryModel.created_at a <? RepositoryModel.created_at b)
      eqn:E.
    + apply Z.ltb_lt in E. constructor; [exact IH |].
      rewrite (insert_perm a l). constructor; [unfold newerFirst; lia |].
      exact Hall.
    + apply Z.ltb_ge in E. constructor; [now constructor |].
      constructor; [exact E |].
      eapply Forall_impl; [| exact Hall].
      unfold newerFirst. intros c Hc. lia.
Qed.

Lemma sortNewestFirst_sorted l :
  StronglySorted newerFirst (RepositoryModel.sortNewestFirst l).
Proof.
  induction l as [| a l IH]; simpl; [constructor | now apply insert_sorted].
Qed.

Lemma sortNewestFirst_in repo l :
  In repo (RepositoryModel.sortNewestFirst l) <-> In repo l.
Proof.
  split; apply Permutation_in;
    [| symmetry]; apply sortNewestFirst_perm.
Qed.

(** The repositories of the store that [findByUserId] looks at for a
    user. *)
Definition ownedBy (userId : string) (repo : RepositoryModel.Repo) : bool :=
  sameNumber (RepositoryModel.user_id repo) (ParseInt.parseInt userId).

Lemma findByUserId_in userId storage repo :
  In repo (RepositoryModel.findByUserId userId storage) <->
  In repo (NumMap.values (RepositoryModel.repositories storage)) /\
  exists n,
    ParseInt.parseInt userId = Some n /\
    RepositoryModel.user_id repo = Some n.
Proof.
  unfold RepositoryModel.findByUserId.
  rewrite sortNewestFirst_in, filter_In.
  unfold sameNumber. split.
  - intros [Hin Hs]. split; [exact Hin |].
    destruct (RepositoryModel.user_id repo) as [x |]; [| discriminate].
    destruct (ParseInt.parseInt userId) as [y |]; [| discriminate].
    apply Z.eqb_eq in Hs. subst y. eauto.
  - intros [Hin (n & -> & ->)]. split; [exact Hin | apply Z.eqb_refl].
Qed.

(** X20.  [findByUserId] returns the repositories stored under the number
    that [parseInt] reads from the user's id, each of them once, those and
    no others, the newest first. *)
Theorem findByUserId_lists (userId : string)
    (storage : RepositoryModel.Storage) :
  Permutation
    (RepositoryModel.findByUserId userId storage)
    (filter (ownedBy userId)
            (NumMap.values (RepositoryModel.repositories storage))) /\
  StronglySorted
    (fun a b => RepositoryModel.created_at b <= RepositoryModel.created_at a)
    (RepositoryModel.findByUserId userId storage) /\
  (forall repo,
      In repo (RepositoryModel.findByUserId userId storage) <->
      In repo (NumMap.values (RepositoryModel.repositories storage)) /\
      exists n,
        ParseInt.parseInt userId = Some n /\
        RepositoryModel.user_id repo = Some n).
Proof.
  split; [apply sortNewestFirst_perm |].
  split; [apply sortNewestFirst_sorted | apply findByUserId_in].
Qed.

(** ** Deleting and saving *)

(** Every key of the store lies below the counter. *)
Definition Bounded (storage : RepositoryModel.Storage) : Prop :=
  forall key repo,
    NumMap.get key (RepositoryModel.repositories storage) = Some repo ->
    key < RepositoryModel.repoIdCounter storage.

(** X21.  [deleteById] removes a repository only for its owner: it returns
    [true] only when [parseInt] reads from the two ids the key of a stored
    repository and the number that repository is stored under; then that
    key is gone and every other key is as it was.  When it returns
    [false] the store is unchanged. *)
Theorem deleteById_owner (userId repoId : string)
    (storage : RepositoryModel.Storage) :
  (fst (RepositoryModel.deleteById userId repoId storage) = true ->
   exists key repo n,
     ParseInt.parseInt repoId = Some key /\
     NumMap.get key (RepositoryModel.repositories storage) = Some repo /\
     ParseInt.parseInt userId = Some n /\
     RepositoryModel.user_id repo = Some n /\
     NumMap.get key
       (RepositoryModel.repositories
          (snd (RepositoryModel.deleteById userId repoId storage)))
     = None /\
     (forall other,
         other <> key ->
         NumMap.get other
           (RepositoryModel.repositories
              (snd (RepositoryModel.deleteById userId repoId storage)))
         = NumMap.get other (RepositoryModel.repositories storage)) /\
     RepositoryModel.repoIdCounter
       (snd (RepositoryModel.deleteById userId repoId storage))
     = RepositoryModel.repoIdCounter storage) /\
  (fst (RepositoryModel.deleteById userId repoId storage) = false ->
   snd (RepositoryModel.deleteById userId repoId storage) = storage).
Proof.
  unfold RepositoryModel.deleteById.
  destruct (ParseInt.parseInt repoId) as [key |];
    [| split; [discriminate | reflexivity]].
  destruct (NumMap.get key (RepositoryModel.repositories storage))
    as [repo |] eqn:Hget; [| split; [discriminate | reflexivity]].
  destruct (sameNumber (RepositoryModel.user_id repo)
                       (ParseInt.parseInt userId)) eqn:Hs;
    [| split; [discriminate | reflexivity]].
  split; [| discriminate]. intros _. simpl.
  unfold sameNumber in Hs.
  destruct (RepositoryModel.user_id repo) as [x |] eqn:Hu; [| discriminate].
  destruct (ParseInt.parseInt userId) as [y |]; [| discriminate].
  apply Z.eqb_eq in Hs. subst y.
  exists key, repo, x. rewrite Hu.
  repeat split; auto.
  - apply NumMapFacts.num_get_delete_same.
  - intros other Hother. apply NumMapFacts.num_get_delete_other. congruence.
Qed.

Lemma filter_last {A} (f : A -> bool) (l : list A) (a : A) :
  filter f (l ++ [a]) = filter f l ++ (if f a then [a] else []).
Proof.
  rewrite filter_app. reflexivity.
Qed.

(** X22.  In a store whose keys lie below the counter, [create] saves the
    repository under a key that was free, so that it replaces nothing, and
    the keys still lie below the counter.  The repository is then found by
    the users whose id reads as the same number as the id it was saved
    for, and by nobody when that id reads as no number; the lists of all
    other users are as they were. *)
Theorem create_saves (userId repoUrl : string) (repoData : FileTreeNode)
    (now : Z) (storage : RepositoryModel.Storage) :
  Bounded storage ->
  let repo :=
    fst (RepositoryModel.create userId repoUrl repoData now storage) in
  let storage' :=
    snd (RepositoryModel.create userId repoUrl repoData now storage) in
  NumMap.get (RepositoryModel.id repo)
             (RepositoryModel.repositories storage) = None /\
  NumMap.get (RepositoryModel.id repo)
             (RepositoryModel.repositories storage') = Some repo /\
  (forall other,
      other <> RepositoryModel.id repo ->
      NumMap.get other (RepositoryModel.repositories storage')
      = NumMap.get other (RepositoryModel.repositories storage)) /\
  Bounded storage' /\
  (forall reader,
      In repo (RepositoryModel.findByUserId reader storage') <->
      exists n,
        ParseInt.parseInt userId = Some n /\
        ParseInt.parseInt reader = Some n) /\
  (forall reader,
      sameNumber (ParseInt.parseInt userId) (ParseInt.parseInt reader)
      = false ->
      RepositoryModel.findByUserId reader storage'
      = RepositoryModel.findByUserId reader storage).
Proof.
  intros Hb. simpl.
  assert (Hfree : NumMap.get (RepositoryModel.repoIdCounter storage)
                             (RepositoryModel.repositories storage) = None).
  { destruct (NumMap.get _ _) as [r |] eqn:E; [| reflexivity].
    apply Hb in E. lia. }
  split; [exact Hfree |].
  split; [apply NumMapFacts.num_get_set_same |].
  split; [intros other Hother; apply NumMapFacts.num_get_set_other; congruence |].
  split.
  { intros key repo. simpl.
    destruct (Z.eq_dec (RepositoryModel.repoIdCounter storage) key)
      as [<- | Hne].
    - intros _. lia.
    - rewrite NumMapFacts.num_get_set_other by exact Hne.
      intros H. apply Hb in H. lia. }
  split.
  - intros reader. rewrite findByUserId_in. simpl. split.
    + intros [_ (n & Hr & Hu)]. eauto.
    + intros (n & Hu & Hr). split; [| eauto].
      eapply NumMapFacts.num_get_in. apply NumMapFacts.num_get_set_same.
  - intros reader Hs. unfold RepositoryModel.findByUserId. simpl.
    rewrite (NumMapFacts.num_set_fresh _ _ _ Hfree).
    unfold NumMap.values. rewrite List.map_app. simpl.
    rewrite filter_last. simpl. rewrite Hs, app_nil_r. reflexivity.
Qed.

Lemma create_saves_witness :
  let storage := RepositoryModel.mkStorage 1 [] in
  let saved :=
    RepositoryModel.create "12" "https://github.com/acme/widgets"
                           (Folder "widgets" None [] (Some 0) None None)
                           1700000000000 storage in
  RepositoryModel.findByUserId "12" (snd saved) = [fst saved] /\
  RepositoryModel.findByUserId "1" (snd saved) = [] /\
  Bounded (snd saved).
Proof.
  assert (Hb : Bounded (RepositoryModel.mkStorage 1 []))
    by (intros key repo H; discriminate).
  pose proof (create_saves "12" "https://github.com/acme/widgets"
                           (Folder "widgets" None [] (Some 0) None None)
                           1700000000000 _ Hb) as H.
  simpl in H. destruct H as (_ & _ & _ & Hb' & _).
  repeat split; exact Hb'.
Defined.

(** ** The tree is a function of the repository *)

Lemma Unfolds_functional env owner repo githubToken maxDepth depth path
    tree :
  Unfolds env owner repo githubToken maxDepth depth path tree ->
  forall tree',
    Unfolds env owner repo githubToken maxDepth depth path tree' ->
    tree = tree'.
Proof.
  intros H.
  induction H using Unfolds_mut with
    (P := fun d p t _ =>
            forall t',
              Unfolds env owner repo githubToken maxDepth d p t' -> t = t')
    (P0 := fun d items ch _ =>
             forall ch',
               Children env owner repo githubToken maxDepth d items ch' ->
               ch = ch').
  - intros t' H'. inversion H'; subst; [reflexivity | lia].
  - intros t' H'. inversion H'; subst; [lia |].
    assert (items0 = items) by congruence. subst items0.
    f_equal. auto.
  - intros ch' H'. inversion H'. reflexivity.
  - intros ch' H'. inversion H'; subst; try congruence. auto.
  - intros ch' H'. inversion H'; subst; try congruence.
    f_equal; [| auto]. f_equal. auto.
  - intros ch' H'. inversion H'; subst; try congruence.
    f_equal; [| auto]. congruence.
  - intros ch' H'. inversion H'; subst; try congruence. auto.
Qed.

(** X23.  The tree of a crawl depends on the repository alone: two crawls
    of the same path, at the same depth and with the same limit, that both
    return a tree return the same tree, whatever sessions they run under
    and whatever requests and other analyses the server handles
    meanwhile. *)
Theorem tree_depends_on_repository env arrivals' createFails' owner repo path
    githubToken analysisId analysisId' depth maxDepth w1 w2 tree1 tree2 w1'
    w2' :
  buildFileTreeWithCancellation env owner repo path githubToken analysisId
                                depth maxDepth w1
  = Some (Ok tree1, w1') ->
  buildFileTreeWithCancellation (mkEnv (upstream env) arrivals' createFails')
                                owner repo path githubToken analysisId' depth
                                maxDepth w2
  = Some (Ok tree2, w2') ->
  tree1 = tree2.
Proof.
  intros H1 H2. apply crawl_unfolds in H1. apply crawl_unfolds in H2.
  eapply Unfolds_functional; [exact H1 |].
  clear - H2.
  induction H2 using Unfolds_mut with
    (P := fun d p t _ =>
            Unfolds env owner repo githubToken maxDepth d p t)
    (P0 := fun d items ch _ =>
             Children env owner repo githubToken maxDepth d items ch);
    try solve [econstructor; eauto].
Qed.

Lemma tree_depends_on_repository_witness :
  exists tree1 tree2 w1' w2',
    buildFileTreeWithCancellation (repository widgets quiet) "acme"
                                  "widgets" "" None (Some "u1-5") 0 2
                                  emptyWorld
    = Some (Ok tree1, w1') /\
    buildFileTreeWithCancellation
      (mkEnv (upstream (repository widgets quiet))
             (fun _ => [ProgressRequest "u2"; CancelRequest "u3";
                        OtherAnalysis "u4-7" Leaves])
             (fun _ => None))
      "acme" "widgets" "" None (Some "u2-9") 0 2 twoUsers
    = Some (Ok tree2, w2') /\
    tree1 = tree2.
Proof.
  destruct (buildFileTreeWithCancellation (repository widgets quiet)
              "acme" "widgets" "" None (Some "u1-5") 0 2 emptyWorld)
    as [[[tree1 | m] w1'] |] eqn:E1;
    try (vm_compute in E1; discriminate).
  destruct (buildFileTreeWithCancellation
              (mkEnv (upstream (repository widgets quiet))
                     (fun _ => [ProgressRequest "u2"; CancelRequest "u3";
                                OtherAnalysis "u4-7" Leaves])
                     (fun _ => None))
              "acme" "widgets" "" None (Some "u2-9") 0 2 twoUsers)
    as [[[tree2 | m] w2'] |] eqn:E2;
    try (vm_compute in E2; discriminate).
  exists tree1, tree2, w1', w2'.
  split; [reflexivity |]. split; [reflexivity |].
  exact (tree_depends_on_repository _ _ _ _ _ _ _ _ _ _ _ _ _ _ _ _ _ E1 E2).
Defined.

(** ** A cancellation that the crawl sees *)

Lemma isCancelled_get analysisId id w :
  truthyId analysisId = Some id ->
  isCancelled analysisId w
  = match JsMap.get id (activeAnalyses w) with
    | Some analysis => cancelled analysis
    | None => false
    end.
Proof.
  intros Hid. unfold isCancelled. now rewrite Hid.
Qed.

(** While the session [id] is in the table, a cancel request of a user
    whose id the key starts with leaves it cancelled, whatever requests
    follow, as long as no other analysis uses the key. *)
Lemma handleAll_cancels id rqs w :
  Apart id rqs ->
  JsMap.get id (activeAnalyses w) <> None ->
  (exists userId,
      In (CancelRequest userId) rqs /\ String.prefix userId id = true) ->
  exists analysis,
    JsMap.get id (activeAnalyses (handleAll rqs w)) = Some analysis /\
    cancelled analysis = true.
Proof.
  unfold handleAll. revert w.
  induction rqs as [| rq rqs IH]; intros w Hap Hin (u & Hu & Hp);
    [destruct Hu |].
  assert (Hap' : Apart id rqs)
    by (intros step Hs; apply (Hap step); now right).
  simpl. destruct Hu as [-> | Hu].
  - destruct (JsMap.get id (activeAnalyses w)) as [a |] eqn:Hget;
      [| contradiction].
    assert (Hc : JsMap.get id
                   (activeAnalyses (handle (CancelRequest u) w))
                 = Some (markCancelled a)).
    { rewrite handle_get, Hget. simpl. now rewrite Hp. }
    destruct (handleAll_kept id rqs (handle (CancelRequest u) w) Hap' _ Hc)
      as (a' & Ha' & Hcancel).
    exists a'. split; [exact Ha' | now apply Hcancel].
  - apply IH; [exact Hap' | | eauto].
    destruct (JsMap.get id (activeAnalyses w)) as [a |] eqn:Hget;
      [| contradiction].
    assert (Hrq : forall step, rq <> OtherAnalysis id step)
      by (intros step ->; apply (Hap step); now left).
    destruct (handle_kept id rq w Hrq a Hget) as (a' & Ha' & _).
    congruence.
Qed.

Section Observed.

Variable env : Env.
Variables owner repo : string.
Variable githubToken : option string.
Variable analysisId : option string.
Variable id : string.
Variable maxDepth : Z.

Hypothesis own : truthyId analysisId = Some id.
Hypothesis no_empty_listing :
  forall path,
    upstream env owner repo path githubToken <> Listing [].
Hypothesis apart : forall n, Apart id (arrivals env n).

(** No request of the numbers [from], ..., [upto - 1] came with a cancel
    request that reaches the session. *)
Definition Undisturbed (from upto : nat) : Prop :=
  forall n userId,
    (from <= n < upto)%nat ->
    In (CancelRequest userId) (arrivals env n) ->
    String.prefix userId id = false.

(** The session is in the table and not cancelled. *)
Definition Running (w : World) : Prop :=
  exists analysis,
    JsMap.get id (activeAnalyses w) = Some analysis /\
    cancelled analysis = false.

Lemma Running_not_cancelled w :
  JsMap.get id (activeAnalyses w) <> None ->
  isCancelled analysisId w = false -> Running w.
Proof.
  intros Hin Hc. rewrite (isCancelled_get _ _ _ own) in Hc.
  destruct (JsMap.get id (activeAnalyses w)) as [a |] eqn:E;
    [| contradiction].
  exists a. split; [exact E | exact Hc].
Qed.

Lemma Running_isCancelled w : Running w -> isCancelled analysisId w = false.
Proof.
  intros (a & Hget & Hc). now rewrite (isCancelled_get _ _ _ own), Hget.
Qed.

Lemma forItems_observed recurse depth items :
  (forall p w subTree w',
      recurse p w = Some (Ok subTree, w') ->
      Running w ->
      Running w' /\
      (List.length (requested w) <= List.length (requested w'))%nat /\
      Undisturbed (List.length (requested w)) (List.length (requested w'))) ->
  forall children w children' w',
    forItems recurse analysisId depth items children w
    = Some (Ok children', w') ->
    Running w ->
    Running w' /\
    (List.length (requested w) <= List.length (requested w'))%nat /\
    Undisturbed (List.length (requested w)) (List.length (requested w')).
Proof.
  intros Hrec.
  induction items as [| item rest IH]; intros children w children' w' H Hrun;
    simpl in H.
  - inversion H; subst. split; [exact Hrun |]. split; [lia |].
    intros n u Hn. lia.
  - destruct (isCancelled analysisId w); [discriminate |].
    destruct (shouldSkip (item_name item)); [eauto |].
    destruct (isDir item).
    + destruct (recurse (item_path item) w) as [[[sub | m] w1] |] eqn:E;
        try discriminate.
      destruct (Hrec _ _ _ _ E Hrun) as (Hrun1 & Hle1 & Hun1).
      destruct (IH _ _ _ _ H Hrun1) as (Hrun2 & Hle2 & Hun2).
      split; [exact Hrun2 |]. split; [lia |].
      intros n u Hn Hin.
      destruct (Nat.lt_ge_cases n (List.length (requested w1))).
      * eapply Hun1; [| exact Hin]. lia.
      * eapply Hun2; [| exact Hin]. lia.
    + destruct (reasonableSize item); eauto.
Qed.

Lemma updateProgress_running path depth w :
  Running w -> Running (updateProgress analysisId path depth maxDepth w).
Proof.
  intros (a & Hget & Hc). unfold updateProgress. rewrite own.
  destruct (0 <? depth); [| exists a; auto].
  unfold Running. simpl. rewrite JsMap.get_set_same, Hget.
  eexists. split; [reflexivity | exact Hc].
Qed.

Lemma crawl_observed fuel :
  forall path depth w tree w',
    crawl fuel env owner repo path githubToken analysisId depth maxDepth w
    = Some (Ok tree, w') ->
    Running w ->
    Running w' /\
    (List.length (requested w) <= List.length (requested w'))%nat /\
    Undisturbed (List.length (requested w)) (List.length (requested w')).
Proof.
  induction fuel as [| fuel IH]; intros path depth w tree w' H Hrun;
    [discriminate |].
  apply crawl_ok_inv in H.
  destruct H as [_ [(Hd & -> & ->) | (Hd & items & w2 & ch & Hget & Hloop & ->)]].
  - split; [now apply updateProgress_running |].
    rewrite updateProgress_requested. split; [lia |].
    intros n u Hn. lia.
  - pose proof (updateProgress_running path depth w Hrun) as Hrun1.
    pose proof (axios_get_reply _ _ _ _ _ _ _ _ Hget) as Hup.
    destruct items as [| item rest];
      [exfalso; exact (no_empty_listing path Hup) |].
    assert (Hc2 : isCancelled analysisId w2 = false).
    { simpl in Hloop. destruct (isCancelled analysisId w2);
        [discriminate | reflexivity]. }
    unfold axios_get in Hget. inversion Hget as [[Hreply Hw2]].
    rewrite updateProgress_requested in Hw2.
    match type of Hw2 with
    | handleAll ?r ?w1 = _ =>
        set (rqs := r) in *; set (sent := w1) in *
    end.
    assert (Hsent : JsMap.get id (activeAnalyses sent) <> None).
    { destruct Hrun1 as (a & Ha & _). unfold sent. simpl. congruence. }
    assert (Hquiet : forall u,
               In (CancelRequest u) rqs -> String.prefix u id = false).
    { intros u Hin. destruct (String.prefix u id) eqn:Hp; [| reflexivity].
      destruct (handleAll_cancels id rqs sent (apart _) Hsent)
        as (a & Ha & Hca); [eauto |].
      rewrite Hw2 in Ha.
      rewrite (isCancelled_get _ _ _ own), Ha in Hc2. congruence. }
    assert (Hrun2 : Running w2).
    { apply Running_not_cancelled; [| exact Hc2].
      destruct Hrun1 as (a & Ha & _).
      destruct (handleAll_kept id rqs sent (apart _) a) as (a' & Ha' & _);
        [exact Ha |].
      rewrite Hw2 in Ha'. congruence. }
    assert (Hlen2 : List.length (requested w2)
                    = S (List.length (requested w))).
    { destruct (handleAll_histories rqs sent) as (Hr & _).
      rewrite Hw2 in Hr. rewrite Hr. unfold sent. simpl.
      rewrite length_app. simpl. lia. }
    destruct (forItems_observed _ _ _
                (fun p w0 t w0' => IH p (depth + 1) w0 t w0')
                _ _ _ _ Hloop Hrun2) as (Hrun3 & Hle3 & Hun3).
    split; [exact Hrun3 |]. split; [lia |].
    intros n u Hn Hin.
    destruct (Nat.eq_dec n (List.length (requested w))) as [-> | Hne].
    + apply Hquiet. exact Hin.
    + eapply Hun3; [| exact Hin]. lia.
Qed.

End Observed.

(** X24.  A cancellation is seen at the first entry of the next listing.
    So when the API never answers with an empty listing and every analysis
    has a session key of its own, a crawl that returns a tree was not
    cancelled on the way: its session, in the table and not cancelled at
    the start, is so at the end, and none of its requests was in flight
    when a cancel request came from a user whose id the key of the session
    starts with. *)
Theorem tree_means_not_cancelled env owner repo path githubToken id depth
    maxDepth w tree w' analysis :
  (forall p, upstream env owner repo p githubToken <> Listing []) ->
  (forall n step, ~ In (OtherAnalysis id step) (arrivals env n)) ->
  id <> EmptyString ->
  JsMap.get id (activeAnalyses w) = Some analysis ->
  cancelled analysis = false ->
  buildFileTreeWithCancellation env owner repo path githubToken (Some id)
                                depth maxDepth w
  = Some (Ok tree, w') ->
  (exists analysis',
      JsMap.get id (activeAnalyses w') = Some analysis' /\
      cancelled analysis' = false) /\
  forall n userId,
    (List.length (requested w) <= n < List.length (requested w'))%nat ->
    In (CancelRequest userId) (arrivals env n) ->
    String.prefix userId id = false.
Proof.
  intros Hlist Hap Hid Hget Hc H.
  assert (Hown : truthyId (Some id) = Some id).
  { simpl. destruct (String.eqb id "") eqn:E; [| reflexivity].
    apply String.eqb_eq in E. contradiction. }
  destruct (crawl_observed env owner repo githubToken (Some id) id maxDepth
                           Hown Hlist Hap _ _ _ _ _ _ H)
    as (Hrun & _ & Hun).
  - exists analysis. auto.
  - split; [exact Hrun | exact Hun].
Qed.

Lemma tree_means_not_cancelled_witness :
  exists tree w' analysis',
    buildFileTreeWithCancellation
      (repository widgets
         (fun _ => [CancelRequest "12";
                    OtherAnalysis (analysisIdOf "12" 1700000000001) Leaves]))
      "acme" "widgets" "" None (Some (analysisIdOf "1" 1700000000000))
      0 1 twoUsers
    = Some (Ok tree, w') /\
    JsMap.get (analysisIdOf "1" 1700000000000) (activeAnalyses w')
    = Some analysis' /\
    cancelled analysis' = false.
Proof.
  destruct (buildFileTreeWithCancellation
              (repository widgets
                 (fun _ => [CancelRequest "12";
                            OtherAnalysis (analysisIdOf "12" 1700000000001)
                                          Leaves]))
              "acme" "widgets" "" None
              (Some (analysisIdOf "1" 1700000000000)) 0 1 twoUsers)
    as [[[tree | m] w'] |] eqn:E;
    try (vm_compute in E; discriminate).
  destruct (tree_means_not_cancelled
              (repository widgets
                 (fun _ => [CancelRequest "12";
                            OtherAnalysis (analysisIdOf "12" 1700000000001)
                                          Leaves]))
              "acme" "widgets" "" None (analysisIdOf "1" 1700000000000)
              0 1 twoUsers tree w'
              (mkSession false (Some 20) (Some 3) (Some "src")))
    as [(analysis' & Hget & Hc) _].
  - intros p. unfold repository. cbn [upstream]. unfold widgets.
    cbn [lookupListing].
    repeat (destruct (String.eqb _ p); [discriminate |]). discriminate.
  - intros n step [Hin | [Hin | []]]; [discriminate |].
    vm_compute in Hin. discriminate.
  - discriminate.
  - reflexivity.
  - reflexivity.
  - exact E.
  - exists tree, w', analysis'. split; [reflexivity |]. split; assumption.
Defined.

(** X25.  A crawl saves nothing and removes no session, however it ends.
    The repositories saved during a crawl are those that the other analyses
    saved; every session that the requests and the other analyses of that
    time leave in the table is in the table after the crawl, cancelled if
    they left it cancelled; so, when no other analysis took a step, the
    saved repositories are the same after the crawl, every session of the
    table is still there, and a session that was cancelled is still
    cancelled. *)
Theorem crawl_never_saves env owner repo path githubToken analysisId depth
    maxDepth w r w' :
  buildFileTreeWithCancellation env owner repo path githubToken analysisId
                                depth maxDepth w
  = Some (r, w') ->
  repositories w'
  = repositories w
    ++ savedElsewhere env (List.length (requested w))
                      (List.length (requested w')) /\
  (forall id analysis,
      JsMap.get id
        (activeAnalyses
           (served env (List.length (requested w))
                   (List.length (requested w')) w))
      = Some analysis ->
      exists analysis',
        JsMap.get id (activeAnalyses w') = Some analysis' /\
        (cancelled analysis = true -> cancelled analysis' = true)) /\
  ((forall n id step, ~ In (OtherAnalysis id step) (arrivals env n)) ->
   repositories w' = repositories w /\
   forall id analysis,
     JsMap.get id (activeAnalyses w) = Some analysis ->
     exists analysis',
       JsMap.get id (activeAnalyses w') = Some analysis' /\
       (cancelled analysis = true -> cancelled analysis' = true)).
Proof.
  intros H. split; [exact (crawl_saves _ _ _ _ _ _ _ _ _ _ _ _ H) |]. split.
  - apply crawl_follows in H as [_ H].
    destruct (H w (Follows_refl _ _)) as (_ & _ & Hup). exact Hup.
  - intros Hno. split.
    + rewrite (crawl_saves _ _ _ _ _ _ _ _ _ _ _ _ H), savedElsewhere_none,
        app_nil_r; [reflexivity |].
      intros n id repository. apply Hno.
    + intros id. eapply crawl_kept; [| exact H].
      intros n step. apply Hno.
Qed.

Lemma crawl_never_saves_witness :
  exists r w',
    buildFileTreeWithCancellation
      (repository widgets
         (during 1 [CancelRequest "1";
                    OtherAnalysis "7-9"
                      (Saves (mkStored "7" "https://github.com/acme/gears"
                                       (Folder "gears" None [] (Some 0)
                                               None None)))]))
      "acme" "widgets" "" None (Some (analysisIdOf "1" 1700000000000))
      0 3 twoUsers
    = Some (r, w') /\
    repositories w'
    = [mkStored "7" "https://github.com/acme/gears"
                (Folder "gears" None [] (Some 0) None None)].
Proof.
  destruct (buildFileTreeWithCancellation
              (repository widgets
                 (during 1 [CancelRequest "1";
                            OtherAnalysis "7-9"
                              (Saves (mkStored "7"
                                        "https://github.com/acme/gears"
                                        (Folder "gears" None [] (Some 0)
                                                None None)))]))
              "acme" "widgets" "" None
              (Some (analysisIdOf "1" 1700000000000)) 0 3 twoUsers)
    as [[r w'] |] eqn:E; [| vm_compute in E; discriminate].
  exists r, w'. split; [reflexivity |].
  rewrite (proj1 (crawl_never_saves _ _ _ _ _ _ _ _ _ _ _ E)).
  vm_compute in E. inversion E; subst. vm_compute. reflexivity.
Defined.
